(** * A Redis-like server: command dispatch, transactions, replication

    Shallow embedding of [app/redis_server.py] (class [Redis]) and proofs
    about its command pipeline.

    Conventions of the embedding:
    - Python [str] is [string]; the text is taken to be ASCII, so that
      [upper], [lower] and [int] are the ASCII fragments of the Python
      functions.
    - Python [int] is [Z].  The conversions between integers and text are
      those of CPython 3.11 with its default limit: [int] and [str] refuse
      a numeral of more than 4300 digits.  Lengths, and the counters that
      the replication manager keeps (its generation and its offset), are
      written with [decimal], the numeral itself.
    - A [dict] is a [gmap].  [KEYS] therefore lists keys in the map's
      order, not in insertion order; nothing below depends on the order.
    - A [StreamWriter] is identified by a [nat]; what a handler writes to
      the client's writer is returned as the list of the byte strings
      passed to [writer.write], in order.
    - The clock, the snapshot file, the upstream connection and the
      handshake handlers of the replication manager are inputs ([Env]).
    - The collaborators ([RESPProtocol], [ReplicationManager], [Config],
      [RDBParser]) are assumed not to raise. *)

From stdpp Require Import gmap strings list fin_maps pretty.
From Stdlib Require Import ZArith Lia Ascii String.

Local Open Scope string_scope.
Local Open Scope list_scope.
Local Open Scope Z_scope.

(** ** Python string primitives *)

Module Py.

Definition CR : ascii := ascii_of_nat 13.
Definition LF : ascii := ascii_of_nat 10.
Definition CRLF : string := String CR (String LF EmptyString).

Definition code (c : ascii) : nat := nat_of_ascii c.

Definition between (lo hi : nat) (c : ascii) : bool :=
  (Nat.leb lo (code c)) && (Nat.leb (code c) hi).

Definition is_digit (c : ascii) : bool := between 48 57 c.
Definition is_lower (c : ascii) : bool := between 97 122 c.
Definition is_upper (c : ascii) : bool := between 65 90 c.

(** [str.isspace] on ASCII: TAB..CR, FS..US and the blank. *)
Definition is_space (c : ascii) : bool :=
  between 9 13 c || between 28 32 c.

Definition upper_char (c : ascii) : ascii :=
  if is_lower c then ascii_of_nat (code c - 32) else c.
Definition lower_char (c : ascii) : ascii :=
  if is_upper c then ascii_of_nat (code c + 32) else c.

Fixpoint map_string (f : ascii -> ascii) (s : string) : string :=
  match s with
  | EmptyString => EmptyString
  | String c r => String (f c) (map_string f r)
  end.

(** [s.upper()] and [s.lower()] *)
Definition upper : string -> string := map_string upper_char.
Definition lower : string -> string := map_string lower_char.

(** [s.startswith(p)] *)
Definition startswith (p s : string) : bool := String.prefix p s.

(** [s[n:]] *)
Fixpoint drop_chars (n : nat) (s : string) : string :=
  match n, s with
  | O, _ => s
  | S m, String _ r => drop_chars m r
  | S _, EmptyString => EmptyString
  end.

(** [c in s] for a one-character [c] *)
Fixpoint contains (c : ascii) (s : string) : bool :=
  match s with
  | EmptyString => false
  | String d r => Ascii.eqb c d || contains c r
  end.

(** [s.split(c)[0]]: the text before the first [c] *)
Fixpoint split_head (c : ascii) (s : string) : string :=
  match s with
  | EmptyString => EmptyString
  | String d r => if Ascii.eqb c d then EmptyString else String d (split_head c r)
  end.

Fixpoint lstrip (s : string) : string :=
  match s with
  | String c r => if is_space c then lstrip r else s
  | EmptyString => EmptyString
  end.

Definition strip (s : string) : string :=
  String.rev (lstrip (String.rev (lstrip s))).

Definition digit_val (c : ascii) : Z := Z.of_nat (code c) - 48.

(** Digits of a Python integer literal: decimal digits, where single
    underscores may separate two digits. [seen] tells whether the
    previous character was a digit. *)
Fixpoint parse_digits (acc : Z) (seen : bool) (s : string) : option Z :=
  match s with
  | EmptyString => if seen then Some acc else None
  | String c r =>
      if is_digit c then parse_digits (10 * acc + digit_val c) true r
      else if Ascii.eqb c "_"%char && seen then
        match r with
        | String d _ => if is_digit d then parse_digits acc false r else None
        | EmptyString => None
        end
      else None
  end.

(** White space that [int] skips around a numeral, in ASCII text and in
    bytes alike: TAB..CR and the blank. FS..US are white space to
    [str.strip] and [str.split] only. *)
Definition is_int_space (c : ascii) : bool :=
  between 9 13 c || Ascii.eqb c " ".

Fixpoint lstrip_int (s : string) : string :=
  match s with
  | String c r => if is_int_space c then lstrip_int r else s
  | EmptyString => EmptyString
  end.

Definition strip_int (s : string) : string :=
  String.rev (lstrip_int (String.rev (lstrip_int s))).

(** [sys.get_int_max_str_digits()], as it is unless configured otherwise:
    the longest numeral that [int] reads and [str] writes. *)
Definition max_str_digits : nat := 4300.

Fixpoint count_digits (s : string) : nat :=
  match s with
  | EmptyString => 0
  | String c r => ((if is_digit c then 1 else 0) + count_digits r)%nat
  end.

(** [int(s)]: [None] stands for [ValueError]. *)
Definition int (s : string) : option Z :=
  let t := strip_int s in
  if Nat.leb (count_digits t) max_str_digits then
    match t with
    | String "+"%char r => parse_digits 0 false r
    | String "-"%char r => Z.opp <$> parse_digits 0 false r
    | _ => parse_digits 0 false t
    end
  else None.

(** The decimal numeral of [n], as formatting writes it. *)
Definition decimal (n : Z) : string := pretty n.

(** The numeral of [n] has at most [max_str_digits] digits. *)
Definition printable (n : Z) : bool :=
  Nat.leb (count_digits (decimal n)) max_str_digits.

(** [str(n)]: [None] stands for [ValueError]. *)
Definition str (n : Z) : option string :=
  if printable n then Some (decimal n) else None.

(** Truth value of an optional string: [None] and the empty string are
    false. *)
Definition truthy (o : option string) : bool :=
  match o with
  | Some s => negb (String.eqb s "")
  | None => false
  end.

End Py.

(** ** Wire codec *)

Module RESPProtocol.
Import Py.

(** Modelled from the spec: [RESPProtocol.encode_simple_string] is not
    part of the sources; replies use the [+] prefix and end a line. *)
Definition encode_simple_string (s : string) : string := "+" +:+ s +:+ CRLF.

(** Modelled from the spec: [RESPProtocol.encode_error] is not part of
    the sources; replies use the [-] prefix and end a line. *)
Definition encode_error (s : string) : string := "-" +:+ s +:+ CRLF.

(** Modelled from the spec: [RESPProtocol.encode_integer] is not part of
    the sources; replies use the [:] prefix and end a line. *)
Definition encode_integer (n : Z) : string := ":" +:+ decimal n +:+ CRLF.

(** Modelled from the spec: [RESPProtocol.encode_bulk_string] is not part
    of the sources; a bulk string is [$<len>\r\n<bytes>\r\n], and the
    null variant is [$-1\r\n]. *)
Definition encode_bulk_string (o : option string) : string :=
  match o with
  | Some s => "$" +:+ decimal (Z.of_nat (String.length s)) +:+ CRLF +:+ s +:+ CRLF
  | None => "$-1" +:+ CRLF
  end.

(** Modelled from the spec: [RESPProtocol.encode_array] is not part of
    the sources; an array of strings is [*<n>\r\n] followed by the [n]
    elements as bulk strings. *)
Definition encode_array (l : list string) : string :=
  "*" +:+ decimal (Z.of_nat (List.length l)) +:+ CRLF
      +:+ String.concat "" (map (fun s => encode_bulk_string (Some s)) l).

End RESPProtocol.

(** ** State of the node *)

(** A connected replica, as the replication manager tracks it: whether its
    socket is closing, and the last offset it acknowledged. *)
Record Replica := mkReplica {
  replica_closing : bool;
  replica_ack_offset : Z;
}.

(** The fields of [ReplicationManager] that [redis_server.py] reads or
    writes. [propagated] records the calls of [propagate_to_replicas], the
    latest call last. *)
Record ReplicationManager := mkReplication {
  role : string;
  master_replid : string;
  master_repl_offset : Z;
  generation : Z;
  highest_seen_generation : Z;
  election_state : string;
  master_host : option string;
  master_port : option Z;
  has_pending_writes : bool;
  replicas : list Replica;
  propagated : list (list string);
}.

(** A writer is a connection's number; a buffered command is a name with its
    arguments. *)
Abbreviation Writer := nat (only parsing).
Abbreviation Command := (string * list string)%type (only parsing).

Record Redis := mkRedis {
  data_store : gmap string (string * option Z);
  replication : ReplicationManager;
  config : gmap string string;
  transactions : gmap Writer (list Command);
}.

Definition set_data_store (d : gmap string (string * option Z)) (st : Redis) : Redis :=
  mkRedis d (replication st) (config st) (transactions st).
Definition set_replication (r : ReplicationManager) (st : Redis) : Redis :=
  mkRedis (data_store st) r (config st) (transactions st).
Definition set_transactions (t : gmap Writer (list Command)) (st : Redis) : Redis :=
  mkRedis (data_store st) (replication st) (config st) t.

Definition set_highest_seen_generation (g : Z) (r : ReplicationManager) : ReplicationManager :=
  mkReplication (role r) (master_replid r) (master_repl_offset r) (generation r) g
    (election_state r) (master_host r) (master_port r) (has_pending_writes r)
    (replicas r) (propagated r).
Definition step_down (r : ReplicationManager) : ReplicationManager :=
  mkReplication "slave" (master_replid r) (master_repl_offset r) (generation r)
    (highest_seen_generation r) "follower" (master_host r) (master_port r)
    (has_pending_writes r) (replicas r) (propagated r).
Definition set_replicas (l : list Replica) (r : ReplicationManager) : ReplicationManager :=
  mkReplication (role r) (master_replid r) (master_repl_offset r) (generation r)
    (highest_seen_generation r) (election_state r) (master_host r) (master_port r)
    (has_pending_writes r) l (propagated r).

(** ** What the node observes of its environment *)

(** Outcome of opening a connection to the master, sending a command and
    reading once: an exception with its text, or the bytes read. *)
Inductive Upstream :=
| UpstreamFailed (reason : string)
| UpstreamReplied (response_data : string).

(** What a reading of the clock inside [WAIT] sees: the time, and the
    replication manager as the other tasks have left it by then. *)
Record Tick := mkTick {
  tick_now : Z;
  tick_repl : ReplicationManager;
}.

Record Env := mkEnv {
  (** [get_current_time_ms()], for the [i]-th command a dispatch runs (only
      [EXEC] runs more than one) *)
  env_clock : nat -> Z;
  (** what [RDBParser.load_rdb] returns *)
  env_rdb : gmap string (string * option Z);
  (** the connection that [_forward_write_to_master] opens *)
  env_upstream : Upstream;
  (** successive readings of the clock by [WAIT] *)
  env_ticks : nat -> Tick;
  (** [ReplicationManager.handle_replconf] and [handle_psync] *)
  env_replconf : list string -> Writer -> ReplicationManager -> ReplicationManager * list string;
  env_psync : list string -> Writer -> ReplicationManager -> ReplicationManager * list string;
}.

Definition env_now (env : Env) : Z := env_clock env 0%nat.

(** ** Replication manager *)

Module Replication.
Import Py RESPProtocol.

(** Modelled from the spec: [ReplicationManager.propagate_to_replicas] is
    not part of the sources; it re-encodes the write as a wire frame for
    every open replica, advances [master_repl_offset] by the byte length
    of that frame, and from then on a write has been accepted. *)
Definition propagate_to_replicas (cmd : list string) (r : ReplicationManager)
  : ReplicationManager :=
  mkReplication (role r) (master_replid r)
    (master_repl_offset r + Z.of_nat (String.length (encode_array cmd)))
    (generation r) (highest_seen_generation r) (election_state r)
    (master_host r) (master_port r) true (replicas r) (propagated r ++ [cmd]).

(** Modelled from the spec: [ReplicationManager.cleanup_replicas] is not
    part of the sources; it prunes the closed replica connections. *)
Definition cleanup_replicas (r : ReplicationManager) : ReplicationManager :=
  set_replicas (List.filter (fun x => negb (replica_closing x)) (replicas r)) r.

(** Modelled from the spec: [ReplicationManager.count_acked_replicas] is
    not part of the sources; it counts the replicas whose acknowledged
    offset has reached the given offset. *)
Definition count_acked_replicas (offset : Z) (r : ReplicationManager) : Z :=
  Z.of_nat (List.length
    (List.filter (fun x => offset <=? replica_ack_offset x) (replicas r))).

End Replication.

(** ** Keyspace *)

Module Keyspace.
Import Py RESPProtocol Replication.

(** [is_key_expired] *)
Definition is_key_expired (now : Z) (st : Redis) (key : string) : bool :=
  match data_store st !! key with
  | None => true
  | Some (_, None) => false
  | Some (_, Some expiry) => expiry <=? now
  end.

(** [self.config.get("dir")] and [self.config.get("dbfilename")] are both
    set and non-empty *)
Definition rdb_configured (st : Redis) : bool :=
  truthy (config st !! "dir") && truthy (config st !! "dbfilename").

(** [_load_from_rdb]: [self.data_store.update(data)] *)
Definition load_from_rdb (env : Env) (st : Redis) : Redis :=
  if rdb_configured st then set_data_store (env_rdb env ∪ data_store st) st else st.

(** [_save_rdb] hands the keyspace to the snapshot collaborator; the node
    itself is left as it is. *)
Definition save_rdb (st : Redis) : Redis := st.

Definition propagate (cmd : list string) (st : Redis) : Redis :=
  set_replication (propagate_to_replicas cmd (replication st)) st.

(** [_get_value_from_rdb] *)
Definition get_value_from_rdb (env : Env) (target_key : string) : option string :=
  match env_rdb env !! target_key with
  | Some (value, Some expiry) => if expiry <=? env_now env then None else Some value
  | Some (value, None) => Some value
  | None => None
  end.

(** The optional [PX ms] of [SET]: [inl expiry], or [inr tt] when the
    milliseconds are not an integer. *)
Definition set_expiry (now : Z) (args : list string) : option Z + unit :=
  match args with
  | _ :: _ :: opt :: px :: _ =>
      if String.eqb (upper opt) "PX" then
        match int px with
        | Some px_value => inl (Some (now + px_value))
        | None => inr tt
        end
      else inl None
  | _ => inl None
  end.

(** [_handle_set]; the dispatcher calls it with two arguments or more. *)
Definition handle_set (env : Env) (args : list string) (st : Redis)
  : Redis * list string :=
  match args with
  | key :: value :: rest =>
      match set_expiry (env_now env) args with
      | inr _ => (st, [encode_error "value is not an integer or out of range"])
      | inl expiry =>
          let st1 := set_data_store (<[key := (value, expiry)]> (data_store st)) st in
          (propagate ("SET" :: key :: value :: rest) (save_rdb st1),
           [encode_simple_string "OK"])
      end
  | _ => (st, [encode_error "execution error"])
  end.

(** [_handle_get] *)
Definition handle_get (env : Env) (args : list string) (st : Redis)
  : Redis * list string :=
  match args with
  | [key] =>
      match data_store st !! key with
      | Some (value, _) =>
          if is_key_expired (env_now env) st key
          then (set_data_store (delete key (data_store st)) st,
                [encode_bulk_string None])
          else (st, [encode_bulk_string (Some value)])
      | None =>
          let from_rdb :=
            if rdb_configured st then get_value_from_rdb env key else None in
          if truthy from_rdb then (st, [encode_bulk_string from_rdb])
          else (st, [encode_bulk_string None])
      end
  | _ => (st, [encode_error "wrong number of arguments for 'get' command"])
  end.

(** The keys of the store that are not expired:
    [[key for key in self.data_store.keys() if ...]] *)
Definition keys_where (now : Z) (st : Redis) (p : string -> bool) : list string :=
  List.filter (fun key => p key && negb (is_key_expired now st key))
    (map_to_list (data_store st)).*1.

(** [not self.data_store] *)
Definition is_empty_store (st : Redis) : bool :=
  match map_to_list (data_store st) with [] => true | _ => false end.

(** [_get_matching_keys] *)
Definition get_matching_keys (env : Env) (pattern : string) (st : Redis)
  : Redis * list string :=
  if String.eqb pattern "*" then
    let st1 :=
      if is_empty_store st && rdb_configured st then load_from_rdb env st else st in
    (st1, keys_where (env_now env) st1 (fun _ => true))
  else if contains "?" pattern || contains "[" pattern then
    let prefix := split_head "[" (split_head "?" pattern) in
    (st, keys_where (env_now env) st (startswith prefix))
  else
    match data_store st !! pattern with
    | Some _ =>
        if negb (is_key_expired (env_now env) st pattern) then (st, [pattern])
        else (st, [])
    | None => (st, [])
    end.

End Keyspace.

(** ** Command handlers *)

(** What a handler does to the outside, in order. *)
Inductive Event :=
| ClientWrite (data : string)    (* [writer.write(data)] *)
| MasterWrite (data : string)    (* [master_writer.write(data)] *)
| ReplicaWrite (data : string)   (* [replica_writer.write(data)] *)
| Sleep.                         (* [await asyncio.sleep(0.01)] *)

Module Handlers.
Import Py RESPProtocol Replication Keyspace.

Definition reply (st : Redis) (data : string) : Redis * list Event :=
  (st, [ClientWrite data]).

Definition client_writes (p : Redis * list string) : Redis * list Event :=
  (p.1, ClientWrite <$> p.2).

Definition master_configured (r : ReplicationManager) : bool :=
  truthy (master_host r) &&
  match master_port r with Some p => negb (p =? 0) | None => false end.

(** [_forward_write_to_master] *)
Definition forward_write_to_master (env : Env) (command : string)
    (args : list string) (st : Redis) : Redis * list Event :=
  if negb (master_configured (replication st)) then
    reply st (encode_error "READONLY You can't write against a read only replica")
  else
    match env_upstream env with
    | UpstreamReplied response_data =>
        (st, [MasterWrite (encode_array (command :: args)); ClientWrite response_data])
    | UpstreamFailed e =>
        reply st (encode_error ("ERR master connection failed: " +:+ e))
    end.

(** [_handle_incr] *)
Definition handle_incr (env : Env) (args : list string) (st : Redis)
  : Redis * list Event :=
  match args with
  | [key] =>
      if String.eqb (role (replication st)) "slave" then
        forward_write_to_master env "INCR" args st
      else
        let create :=
          let st1 := set_data_store (<[key := ("1", None)]> (data_store st)) st in
          (propagate ["SET"; key; "1"] (save_rdb st1),
           [ClientWrite (encode_integer 1)]) in
        match data_store st !! key with
        | Some (value, expiry) =>
            if negb (is_key_expired (env_now env) st key) then
              let not_an_integer :=
                reply st (encode_error "ERR value is not an integer or out of range") in
              match int value with
              | Some n =>
                  let int_value := n + 1 in
                  match str int_value with
                  | Some new_value =>
                      let st1 :=
                        set_data_store (<[key := (new_value, expiry)]> (data_store st))
                          st in
                      (propagate ["SET"; key; new_value] (save_rdb st1),
                       [ClientWrite (encode_integer int_value)])
                  | None => not_an_integer
                  end
              | None => not_an_integer
              end
            else create
        | None => create
        end
  | _ => reply st (encode_error "ERR wrong number of arguments for 'incr' command")
  end.

(** [_handle_multi] *)
Definition handle_multi (writer : Writer) (st : Redis) : Redis * list Event :=
  (set_transactions (<[writer := []]> (transactions st)) st,
   [ClientWrite (encode_simple_string "OK")]).

(** [_handle_discard] *)
Definition handle_discard (writer : Writer) (st : Redis) : Redis * list Event :=
  match transactions st !! writer with
  | None => reply st (encode_error "ERR DISCARD without MULTI")
  | Some _ =>
      (set_transactions (delete writer (transactions st)) st,
       [ClientWrite (encode_simple_string "OK")])
  end.

(** [_execute_transaction_command]: the reply is returned, not written. *)
Definition execute_transaction_command (now : Z) (command : string)
    (args : list string) (st : Redis) : Redis * string :=
  if String.eqb command "PING" then (st, "+PONG" +:+ CRLF)
  else if String.eqb command "ECHO" && negb (bool_decide (args = [])) then
    (st, encode_bulk_string (head args))
  else if String.eqb command "SET" && (2 <=? Z.of_nat (List.length args)) then
    match args with
    | key :: value :: rest =>
        match set_expiry now args with
        | inr _ => (st, encode_error "value is not an integer or out of range")
        | inl expiry =>
            let st1 := set_data_store (<[key := (value, expiry)]> (data_store st)) st in
            (propagate ("SET" :: key :: value :: rest) (save_rdb st1),
             encode_simple_string "OK")
        end
    | _ => (st, encode_error "execution error")
    end
  else if String.eqb command "GET" then
    match args with
    | [key] =>
        match data_store st !! key with
        | Some (value, _) =>
            if is_key_expired now st key
            then (set_data_store (delete key (data_store st)) st,
                  encode_bulk_string None)
            else (st, encode_bulk_string (Some value))
        | None => (st, encode_bulk_string None)
        end
    | _ => (st, encode_error "wrong number of arguments for 'get' command")
    end
  else if String.eqb command "INCR" then
    match args with
    | [key] =>
        let create :=
          let st1 := set_data_store (<[key := ("1", None)]> (data_store st)) st in
          (propagate ["INCR"; key] (save_rdb st1), encode_integer 1) in
        match data_store st !! key with
        | Some (value, expiry) =>
            if negb (is_key_expired now st key) then
              let not_an_integer :=
                (st, encode_error "ERR value is not an integer or out of range") in
              match int value with
              | Some n =>
                  let int_value := n + 1 in
                  match str int_value with
                  | Some new_value =>
                      let st1 :=
                        set_data_store (<[key := (new_value, expiry)]> (data_store st))
                          st in
                      (propagate ["INCR"; key] (save_rdb st1), encode_integer int_value)
                  | None => not_an_integer
                  end
              | None => not_an_integer
              end
            else create
        | None => create
        end
    | _ => (st, encode_error "wrong number of arguments for 'incr' command")
    end
  else (st, encode_error ("unknown command '" +:+ command +:+ "'")).

(** The loop of [_handle_exec]: the [i]-th buffered command runs at the
    [i]-th reading of the clock, in the state the previous ones left;
    [responses.append(response)]. *)
Fixpoint run_queued (clock : nat -> Z) (i : nat) (queued : list Command)
    (responses : list string) (st : Redis) : Redis * list string :=
  match queued with
  | [] => (st, responses)
  | (command, args) :: rest =>
      let '(st1, response) := execute_transaction_command (clock i) command args st in
      run_queued clock (S i) rest (responses ++ [response]) st1
  end.

(** [array_response += resp] for every collected response *)
Definition build_array (responses : list string) : string :=
  fold_left String.append responses
    ("*" +:+ decimal (Z.of_nat (List.length responses)) +:+ CRLF).

(** [_handle_exec] *)
Definition handle_exec (env : Env) (writer : Writer) (st : Redis)
  : Redis * list Event :=
  match transactions st !! writer with
  | None => reply st (encode_error "ERR EXEC without MULTI")
  | Some [] =>
      (set_transactions (delete writer (transactions st)) st,
       [ClientWrite ("*0" +:+ CRLF)])
  | Some queued_commands =>
      let '(st1, responses) := run_queued (env_clock env) 0 queued_commands [] st in
      (set_transactions (delete writer (transactions st1)) st1,
       [ClientWrite (build_array responses)])
  end.

(** The generation announced by [CLUSTER MASTER_ANNOUNCE]: the last
    [generation=<int>] argument that parses, 0 when there is none.  The
    [node_id=] and [replid=] arguments only feed the log. *)
Fixpoint announced_generation (generation : Z) (args : list string) : Z :=
  match args with
  | [] => generation
  | arg :: rest =>
      if startswith "node_id=" arg then announced_generation generation rest
      else if startswith "generation=" arg then
        match int (drop_chars 11 arg) with
        | Some g => announced_generation g rest
        | None => announced_generation generation rest
        end
      else announced_generation generation rest
  end.

(** [_handle_cluster_command] *)
Definition handle_cluster_command (args : list string) (st : Redis)
  : Redis * list Event :=
  match args with
  | [] => reply st (encode_error "ERR wrong number of arguments for 'cluster' command")
  | sub :: rest =>
      let subcommand := upper sub in
      if String.eqb subcommand "MASTER_ANNOUNCE" then
        let r := replication st in
        let generation' := announced_generation 0 rest in
        if (generation r <? generation') ||
           ((generation' =? generation r) && String.eqb (role r) "slave")
        then
          let r1 := if String.eqb (role r) "master" then step_down r else r in
          let r2 := set_highest_seen_generation
                      (Z.max (highest_seen_generation r1) generation') r1 in
          (set_replication r2 st, [ClientWrite (encode_simple_string "OK")])
        else
          reply st (encode_simple_string
            ("REJECTED generation=" +:+ decimal (generation r) +:+ " role=" +:+ role r))
      else reply st (encode_error ("ERR unknown subcommand '" +:+ subcommand +:+ "'"))
  end.

End Handlers.

(** ** WAIT *)

Module Wait.
Import Py RESPProtocol Replication.

(** [REPLCONF GETACK *] written to every replica that is not closing *)
Definition broadcast_getack (r : ReplicationManager) : list Event :=
  (fun _ => ReplicaWrite (encode_array ["REPLCONF"; "GETACK"; "*"]))
    <$> List.filter (fun x => negb (replica_closing x)) (replicas r).

(** [while self.get_current_time_ms() < end_time: await asyncio.sleep(0.01)],
    reading the clock at tick [i] first; the result is the tick at which
    the loop is left. One unit of fuel per reading. *)
Fixpoint sleep_until (fuel : nat) (ticks : nat -> Tick) (end_time : Z) (i : nat)
  : option nat :=
  match fuel with
  | O => None
  | S fuel' =>
      if tick_now (ticks i) <? end_time
      then sleep_until fuel' ticks end_time (S i)
      else Some i
  end.

(** The polling loop: while the deadline is ahead, count the replicas that
    acknowledged [current_offset], stop when there are enough, sleep
    otherwise. The result is the last count and the tick at which the
    loop is left. *)
Fixpoint poll_acks (fuel : nat) (ticks : nat -> Tick)
    (num_replicas end_time current_offset acked_replicas : Z) (i : nat)
  : option (Z * nat) :=
  match fuel with
  | O => None
  | S fuel' =>
      if tick_now (ticks i) <? end_time then
        let acked := count_acked_replicas current_offset (tick_repl (ticks i)) in
        if num_replicas <=? acked then Some (acked, i)
        else poll_acks fuel' ticks num_replicas end_time current_offset acked (S i)
      else Some (acked_replicas, i)
  end.

Definition sleeps (from to : nat) : list Event := replicate (to - from) Sleep.

(** What [WAIT] answers once its arguments are parsed and the closed
    replicas are pruned: [r0] is the replication manager at that point.
    The result is the integer of the reply and what was done before it. *)
Definition wait_reply (fuel : nat) (ticks : nat -> Tick)
    (num_replicas timeout_ms : Z) (r0 : ReplicationManager)
  : option (Z * list Event) :=
  let replica_count := Z.of_nat (List.length (replicas r0)) in
  if (replica_count =? 0) || (num_replicas =? 0) then Some (0, [])
  else
    (* fewer replicas than requested: wait for the timeout *)
    let waited :=
      if replica_count <? num_replicas then
        let start_time := tick_now (ticks 0%nat) in
        let end_time := start_time + timeout_ms in
        j ← sleep_until fuel ticks end_time 1;
        Some (tick_repl (ticks j), S j, broadcast_getack r0 ++ sleeps 1 j)
      else Some (r0, 0%nat, []) in
    '(r, i, before) ← waited;
    let replica_count := Z.of_nat (List.length (replicas r)) in
    if (replica_count =? 0) || (num_replicas =? 0) then Some (0, before)
    else if negb (has_pending_writes r) then Some (replica_count, before)
    else
      let current_offset := master_repl_offset r in
      let start_time := tick_now (ticks i) in
      let end_time := start_time + timeout_ms in
      '(acked_replicas, j) ←
        poll_acks fuel ticks num_replicas end_time current_offset 0 (S i);
      Some (Z.min acked_replicas num_replicas,
            before ++ broadcast_getack r ++ sleeps (S i) j).

(** The [WAIT] branch of [_execute_command] *)
Definition handle_wait (fuel : nat) (env : Env) (args : list string) (st : Redis)
  : option (Redis * list Event) :=
  let parsed (o : option string) : option Z :=
    match o with Some a => int a | None => Some 0 end in
  match parsed (args !! 0%nat) with
  | None => Some (st, [ClientWrite (encode_error "value is not an integer")])
  | Some num_replicas =>
      match parsed (args !! 1%nat) with
      | None => Some (st, [ClientWrite (encode_error "timeout is not an integer")])
      | Some timeout_ms =>
          let r0 := cleanup_replicas (replication st) in
          '(response_value, before) ←
            wait_reply fuel (env_ticks env) num_replicas timeout_ms r0;
          Some (set_replication r0 st,
                before ++ [ClientWrite (encode_integer response_value)])
      end
  end.

End Wait.

(** ** The dispatcher *)

Module Dispatcher.
Import Py RESPProtocol Replication Keyspace Handlers Wait.

(** The generation marker: the loop
    [for i in range(len(args) - 1, -1, -1)] with [i + 1] indices left to
    visit. The first argument met that starts with [_GEN_] ends the loop,
    whether its number parses or not. *)
Fixpoint scan_generation (n : nat) (args : list string) (highest : Z)
  : list string * Z :=
  match n with
  | O => (args, highest)
  | S i =>
      match args !! i with
      | Some a =>
          if startswith "_GEN_" a then
            match int (drop_chars 5 a) with
            | Some generation =>
                (delete i args,
                 if highest <? generation then generation else highest)
            | None => (args, highest)
            end
          else scan_generation i args highest
      | None => (args, highest)
      end
  end.

Definition extract_generation (args : list string) (st : Redis)
  : list string * Redis :=
  let '(args', g) :=
    scan_generation (List.length args) args
      (highest_seen_generation (replication st)) in
  (args', set_replication (set_highest_seen_generation g (replication st)) st).

Definition write_commands : list string :=
  ["SET"; "INCR"; "DEL"; "LPUSH"; "RPUSH"; "HSET"; "SADD"; "ZADD"; "EXPIRE"].

Definition is_write_command (command : string) : bool :=
  existsb (String.eqb command) write_commands.

(** [format_info_response] *)
Definition format_info_response (section : option string) (st : Redis) : string :=
  match section with
  | Some s =>
      if String.eqb s "replication" then
        let r := replication st in
        let info_str :=
          String.concat (String LF EmptyString)
            ["role:" +:+ role r;
             "master_replid:" +:+ master_replid r;
             "master_repl_offset:" +:+ decimal (master_repl_offset r)] in
        "$" +:+ decimal (Z.of_nat (String.length info_str)) +:+ CRLF +:+ info_str +:+ CRLF
      else "$-1" +:+ CRLF
  | None => "$-1" +:+ CRLF
  end.

Definition in_replication (f : ReplicationManager -> ReplicationManager * list string)
    (st : Redis) : Redis * list Event :=
  let '(r, out) := f (replication st) in
  (set_replication r st, ClientWrite <$> out).

(** [_execute_command]. [None] only when [WAIT] runs out of fuel. *)
Definition execute_command (fuel : nat) (env : Env) (command : string)
    (args : list string) (writer : Writer) (st : Redis)
  : option (Redis * list Event) :=
  let command := upper command in
  let '(args, st) := extract_generation args st in
  if String.eqb (role (replication st)) "slave" && is_write_command command then
    Some (forward_write_to_master env command args st)
  else if String.eqb command "MULTI" then Some (handle_multi writer st)
  else if String.eqb command "EXEC" then Some (handle_exec env writer st)
  else if String.eqb command "DISCARD" then Some (handle_discard writer st)
  else
    match transactions st !! writer with
    | Some queued =>
        Some (set_transactions
                (<[writer := queued ++ [(command, args)]]> (transactions st)) st,
              [ClientWrite (encode_simple_string "QUEUED")])
    | None =>
        if String.eqb command "PING" then Some (reply st ("+PONG" +:+ CRLF))
        else if String.eqb command "ECHO" && negb (bool_decide (args = [])) then
          Some (reply st (encode_bulk_string (head args)))
        else if String.eqb command "REPLCONF" then
          Some (in_replication (env_replconf env args writer) st)
        else if String.eqb command "PSYNC" then
          Some (in_replication (env_psync env args writer) st)
        else if String.eqb command "INFO" then
          Some (reply st (format_info_response (lower <$> head args) st))
        else if String.eqb command "SET" && (2 <=? Z.of_nat (List.length args)) then
          Some (client_writes (handle_set env args st))
        else if String.eqb command "GET" then
          Some (client_writes (handle_get env args st))
        else if String.eqb command "INCR" then Some (handle_incr env args st)
        else if String.eqb command "CONFIG" && (2 <=? Z.of_nat (List.length args))
                && String.eqb (upper (default "" (head args))) "GET" then
          match args !! 1%nat with
          | Some param =>
              Some (reply st
                      (encode_array [param; default "" (config st !! param)]))
          | None =>
              Some (reply st
                      (encode_error "wrong number of arguments for CONFIG GET"))
          end
        else if String.eqb command "KEYS" then
          let pattern := default "*" (head args) in
          let '(st1, matched_keys) := get_matching_keys env pattern st in
          Some (reply st1 (encode_array matched_keys))
        else if String.eqb command "WAIT" then handle_wait fuel env args st
        else if String.eqb command "CLUSTER" then
          Some (handle_cluster_command args st)
        else Some (reply st (encode_error "unknown command"))
    end.

End Dispatcher.

(** ** Sample nodes, used to run the handlers *)

Module Samples.
Import Py Handlers.

Definition master_node : ReplicationManager :=
  mkReplication "master" "8371b4fb1155b71f4a04d3e1bc3e18c4a990aeeb" 0 3 3 "leader"
    None None false [] [].

Definition slave_node : ReplicationManager :=
  mkReplication "slave" "8371b4fb1155b71f4a04d3e1bc3e18c4a990aeeb" 0 3 3 "follower"
    (Some "localhost") (Some 6379) false [] [].

Definition empty_redis (r : ReplicationManager) : Redis := mkRedis ∅ r ∅ ∅.

Definition with_key (key value : string) (expiry : option Z) (st : Redis) : Redis :=
  set_data_store (<[key := (value, expiry)]> (data_store st)) st.

Definition with_queue (writer : Writer) (queued : list Command) (st : Redis) : Redis :=
  set_transactions (<[writer := queued]> (transactions st)) st.

Definition no_handshake (args : list string) (writer : Writer) (r : ReplicationManager)
  : ReplicationManager * list string := (r, []).

(** An environment whose clock shows [now] throughout. *)
Definition quiet_env (now : Z) (r : ReplicationManager) (up : Upstream) : Env :=
  mkEnv (fun _ => now) ∅ up (fun _ => mkTick now r) no_handshake no_handshake.

(** An environment whose clock advances by [step] at every reading. *)
Definition ticking_env (step : Z) (r : ReplicationManager) : Env :=
  mkEnv (fun i => step * Z.of_nat i) ∅ (UpstreamFailed "refused")
    (fun i => mkTick (step * Z.of_nat i) r) no_handshake no_handshake.

End Samples.

(** ** Specification vocabulary *)

Module Spec.
Import Py RESPProtocol Keyspace Handlers.

(** A key is live at [now]: it has an entry whose expiry, if any, is ahead. *)
Definition live (now : Z) (st : Redis) (key : string) : Prop :=
  ∃ value expiry, data_store st !! key = Some (value, expiry) ∧
    match expiry with Some e => now < e | None => True end.

(** No argument of [args] is marked as a generation. *)
Definition unmarked (args : list string) : Prop :=
  Forall (fun a => startswith "_GEN_" a = false) args.

(** [j] is the first reading of the clock, from the [i]-th on, at which the
    deadline has passed. *)
Definition reaches (ticks : nat -> Tick) (deadline : Z) (i j : nat) : Prop :=
  (i <= j)%nat ∧ deadline <= tick_now (ticks j) ∧
  ∀ k, (i <= k < j)%nat -> tick_now (ticks k) < deadline.

(** The replicas seen at the [k]-th reading that acknowledged [offset]. *)
Definition acked_at (ticks : nat -> Tick) (offset : Z) (k : nat) : Z :=
  Replication.count_acked_replicas offset (tick_repl (ticks k)).

(** Polling from the [i]-th reading on ends at the [j]-th with the count [c]:
    every earlier reading was before the deadline and counted fewer than
    [num_replicas]; at the [j]-th either the deadline is still ahead and [c],
    the count there, is enough, or the deadline has passed and [c] is the
    count of the last poll, 0 if there was none. *)
Definition polled (ticks : nat -> Tick) (num_replicas deadline offset : Z)
    (i : nat) (c : Z) (j : nat) : Prop :=
  (i <= j)%nat ∧
  (∀ k, (i <= k < j)%nat ->
     tick_now (ticks k) < deadline ∧ acked_at ticks offset k < num_replicas) ∧
  ((tick_now (ticks j) < deadline ∧ c = acked_at ticks offset j ∧ num_replicas <= c) ∨
   (deadline <= tick_now (ticks j) ∧ j = i ∧ c = 0) ∨
   (deadline <= tick_now (ticks j) ∧ (i < j)%nat ∧ c = acked_at ticks offset (j - 1))).

(** The clock goes past every deadline. *)
Definition time_passes (ticks : nat -> Tick) : Prop :=
  ∀ deadline i, ∃ j, (i <= j)%nat ∧ deadline <= tick_now (ticks j).

End Spec.

(** ** The connection loop *)

(** [handle_client]: bytes are [string]s, and [.decode()] is the identity:
    the bytes received are taken to be ASCII. *)
Module Connection.
Import Py RESPProtocol Replication Handlers Dispatcher.

Definition is_crlf (c d : ascii) : bool := Ascii.eqb c CR && Ascii.eqb d LF.

(** [buffer.find(b"\r\n")]; [None] stands for -1. *)
Fixpoint find_crlf (s : string) : option nat :=
  match s with
  | EmptyString => None
  | String c r =>
      match r with
      | String d _ => if is_crlf c d then Some 0%nat else S <$> find_crlf r
      | EmptyString => None
      end
  end.

(** [buffer[:n]] *)
Fixpoint take_chars (n : nat) (s : string) : string :=
  match n, s with
  | S m, String c r => String c (take_chars m r)
  | _, _ => EmptyString
  end.

(** [int(b)] for bytes [b]: [int] reads ASCII bytes as it reads ASCII
    text. [None] stands for [ValueError]. *)
Definition int_bytes (s : string) : option Z := int s.

(** [buffer.find(b"\r\n", start)] *)
Definition find_crlf_from (start : nat) (s : string) : option nat :=
  (fun i => (start + i)%nat) <$> find_crlf (drop_chars start s).

Definition cons_head (c : ascii) (l : list string) : list string :=
  match l with
  | x :: r => String c x :: r
  | [] => [String c EmptyString]
  end.

(** [data.split(b"\r\n")] *)
Fixpoint split_crlf (s : string) : list string :=
  match s with
  | EmptyString => [EmptyString]
  | String c r =>
      match r with
      | String d r' =>
          if is_crlf c d then EmptyString :: split_crlf r'
          else cons_head c (split_crlf r)
      | EmptyString => [String c EmptyString]
      end
  end.

(** [line.split()]: the words between runs of white space *)
Fixpoint words (s : string) : list string :=
  match s with
  | EmptyString => []
  | String c r =>
      if is_space c then words r
      else
        match r with
        | String d _ =>
            if is_space d then String c EmptyString :: words r
            else cons_head c (words r)
        | EmptyString => [String c EmptyString]
        end
  end.

(** The loop [for _ in range(array_length * 2)] that looks for the end of
    the command, with [n] rounds left: the result is [command_end] and
    [count]. *)
Fixpoint scan_items (n : nat) (buffer : string) (command_end count : nat)
  : nat * nat :=
  match n with
  | O => (command_end, count)
  | S n' =>
      match find_crlf_from command_end buffer with
      | None => (command_end, count)
      | Some next_end => scan_items n' buffer (next_end + 2) (S count)
      end
  end.

(** The loop [while i < len(lines) and i < array_length * 2] that reads the
    command and its arguments off the lines. A line at [i] that does not
    start with [$] leaves [i] as it is, so the loop takes another round
    with nothing changed; a round costs one unit of fuel. *)
Fixpoint parse_lines (fuel : nat) (lines : list string) (array_length : Z)
    (i : nat) (command : option string) (args : list string)
  : option (option string * list string) :=
  match fuel with
  | O => None
  | S fuel' =>
      if Nat.ltb i (List.length lines) && (Z.of_nat i <? array_length * 2) then
        if startswith "$" (default "" (lines !! i)) then
          let i1 := S i in
          let '(command1, args1) :=
            match lines !! i1 with
            | Some line =>
                match command with
                | None => (Some (upper line), args)
                | Some _ => (command, args ++ [line])
                end
            | None => (command, args)
            end in
          parse_lines fuel' lines array_length (S i1) command1 args1
        else parse_lines fuel' lines array_length i command args
      else Some (command, args)
  end.

(** What the head of the buffer holds. *)
Inductive Frame :=
| FrameIncomplete                       (* [break]: wait for more bytes *)
| FramePong (rest : string)             (* the buffer starts with [PING] *)
| FrameCommand (command : option string) (args : list string) (rest : string)
| FrameProtocolError (rest : string)    (* [except (ValueError, IndexError)] *)
| FrameBlank (rest : string).           (* a line without a word *)

(** The buffer after the line that could not be parsed *)
Definition skip_line (buffer : string) : string :=
  match find_crlf buffer with
  | Some i => drop_chars (i + 2) buffer
  | None => EmptyString
  end.

(** One round of [while b"\r\n" in buffer], up to the call of
    [_execute_command]; the buffer holds a line end. [None] when
    [parse_lines] runs out of fuel. *)
Definition next_frame (fuel : nat) (buffer : string) : option Frame :=
  if startswith "PING" buffer then
    let buffer1 := drop_chars 4 buffer in
    Some (FramePong
            (if startswith CRLF buffer1 then drop_chars 2 buffer1 else buffer1))
  else if startswith "*" buffer then
    match find_crlf buffer with
    | None => Some FrameIncomplete
    | Some first_line_end =>
        match int_bytes (take_chars (first_line_end - 1) (drop_chars 1 buffer)) with
        | None => Some (FrameProtocolError (skip_line buffer))
        | Some array_length =>
            let '(command_end, count) :=
              scan_items (Z.to_nat (array_length * 2)) buffer (first_line_end + 2) 0 in
            if Z.of_nat count <? array_length * 2 then Some FrameIncomplete
            else
              let command_data := take_chars command_end buffer in
              let buffer1 := drop_chars command_end buffer in
              let lines := split_crlf command_data in
              '(command, args) ← parse_lines fuel lines array_length 1 None [];
              Some (FrameCommand command args buffer1)
        end
    end
  else
    match find_crlf buffer with
    | None => Some FrameIncomplete
    | Some line_end =>
        let line := strip (take_chars line_end buffer) in
        let buffer1 := drop_chars (line_end + 2) buffer in
        match words line with
        | [] => Some (FrameBlank buffer1)
        | command :: args => Some (FrameCommand (Some (upper command)) args buffer1)
        end
    end.

(** The frame when [data] follows in the buffer. *)
Definition extend (data : string) (frame : Frame) : Frame :=
  match frame with
  | FrameIncomplete => FrameIncomplete
  | FramePong rest => FramePong (rest +:+ data)
  | FrameCommand command args rest => FrameCommand command args (rest +:+ data)
  | FrameProtocolError rest => FrameProtocolError (rest +:+ data)
  | FrameBlank rest => FrameBlank (rest +:+ data)
  end.

(** [_execute_command] as the loop calls it: without a command,
    [command.upper()] raises and the handler answers with its own error. *)
Definition execute_parsed (fuel : nat) (env : Env) (command : option string)
    (args : list string) (writer : Writer) (st : Redis)
  : option (Redis * list Event) :=
  match command with
  | Some c => execute_command fuel env c args writer st
  | None => Some (st, [ClientWrite (encode_error "execution error")])
  end.

(** [while b"\r\n" in buffer]: [steps] bounds the rounds, [k] counts the
    commands dispatched so far, and the [k]-th runs in [envs k]. The result
    is the buffer left, the node, what was written and the new count. *)
Fixpoint process_buffer (steps fuel : nat) (envs : nat -> Env) (k : nat)
    (buffer : string) (writer : Writer) (st : Redis)
  : option (string * Redis * list Event * nat) :=
  match steps with
  | O => None
  | S steps' =>
      match find_crlf buffer with
      | None => Some (buffer, st, [], k)
      | Some _ =>
          frame ← next_frame fuel buffer;
          match frame with
          | FrameIncomplete => Some (buffer, st, [], k)
          | FramePong rest =>
              '(b, st', out, k') ←
                process_buffer steps' fuel envs k rest writer st;
              Some (b, st', ClientWrite ("+PONG" +:+ CRLF) :: out, k')
          | FrameCommand command args rest =>
              '(st1, out1) ← execute_parsed fuel (envs k) command args writer st;
              '(b, st', out, k') ←
                process_buffer steps' fuel envs (S k) rest writer st1;
              Some (b, st', out1 ++ out, k')
          | FrameProtocolError rest =>
              '(b, st', out, k') ←
                process_buffer steps' fuel envs k rest writer st;
              Some (b, st', ClientWrite ("-ERR protocol error" +:+ CRLF) :: out, k')
          | FrameBlank rest => process_buffer steps' fuel envs k rest writer st
          end
      end
  end.

(** [while True: data = await reader.read(1024)] over the chunks the
    client sends; an empty chunk, like the end of the list, is the end of
    the stream. *)
Fixpoint read_loop (steps fuel : nat) (envs : nat -> Env) (k : nat)
    (chunks : list string) (buffer : string) (writer : Writer) (st : Redis)
  : option (Redis * list Event) :=
  match chunks with
  | [] => Some (st, [])
  | data :: more =>
      if String.eqb data "" then Some (st, [])
      else
        '(buffer1, st1, out1, k1) ←
          process_buffer steps fuel envs k (buffer +:+ data) writer st;
        '(st', out) ← read_loop steps fuel envs k1 more buffer1 writer st1;
        Some (st', out1 ++ out)
  end.

(** What [handle_client] does once the stream has ended: the connection's
    transaction is dropped and the closed replicas are pruned. *)
Definition disconnect (writer : Writer) (st : Redis) : Redis :=
  set_replication (cleanup_replicas (replication st))
    (set_transactions (delete writer (transactions st)) st).

(** [handle_client] *)
Definition handle_client (steps fuel : nat) (envs : nat -> Env)
    (chunks : list string) (writer : Writer) (st : Redis)
  : option (Redis * list Event) :=
  '(st', out) ← read_loop steps fuel envs 0 chunks "" writer st;
  Some (disconnect writer st', out).

End Connection.

(** ** Vocabulary for the properties of the whole pipeline *)

Module Observations.
Import Py RESPProtocol Replication Keyspace Handlers Wait Dispatcher.

(** The commands of one connection dispatched one after the other, the
    [k]-th and the following in [envs k], [envs (S k)], ... *)
Fixpoint dispatch_all (fuel : nat) (envs : nat -> Env) (k : nat)
    (commands : list Command) (writer : Writer) (st : Redis)
  : option (Redis * list Event) :=
  match commands with
  | [] => Some (st, [])
  | (command, args) :: rest =>
      '(st1, out1) ← execute_command fuel (envs k) command args writer st;
      '(st', out) ← dispatch_all fuel envs (S k) rest writer st1;
      Some (st', out1 ++ out)
  end.

(** [INCR key] handled [n] times in a row, the [i]-th time in [envs i]. *)
Fixpoint incr_times (envs : nat -> Env) (n : nat) (key : string) (st : Redis)
  : Redis :=
  match n with
  | O => st
  | S m => (handle_incr (envs m) [key] (incr_times envs m key st)).1
  end.

(** The arguments of a command once its generation marker is removed. *)
Definition routed_args (args : list string) : list string :=
  (scan_generation (List.length args) args 0).1.

(** What a command is buffered as. *)
Definition queued_as (c : Command) : Command := (upper c.1, routed_args c.2).

Definition is_control (command : string) : bool :=
  String.eqb command "MULTI" || String.eqb command "EXEC"
  || String.eqb command "DISCARD".

(** The command is buffered when it reaches a connection in a transaction:
    it is not MULTI, EXEC or DISCARD, and not a write reaching a slave. *)
Definition buffered (st : Redis) (c : Command) : Prop :=
  is_control (upper c.1) = false ∧
  (role (replication st) = "slave" -> is_write_command (upper c.1) = false).

(** A buffered command that [EXEC] runs as the dispatcher runs it outside a
    transaction: PING, ECHO with an argument, SET with a key and a value,
    GET, or INCR of one key. *)
Definition replayable (c : Command) : Prop :=
  c.1 = "PING" ∨ (c.1 = "ECHO" ∧ c.2 ≠ []) ∨
  (c.1 = "SET" ∧ (2 <= List.length c.2)%nat) ∨ c.1 = "GET" ∨
  (c.1 = "INCR" ∧ List.length c.2 = 1%nat).

(** Two nodes hold the same keyspace under the same configuration and
    have the same role. *)
Definition akin (st st' : Redis) : Prop :=
  data_store st = data_store st' ∧ config st = config st' ∧
  role (replication st) = role (replication st').

(** What no command changes in the replication state: the node's own
    generation and identity and its upstream; the highest generation seen
    only grows, and the role only goes from master to slave. *)
Definition keeps_identity (r r' : ReplicationManager) : Prop :=
  generation r' = generation r ∧ master_replid r' = master_replid r ∧
  master_host r' = master_host r ∧ master_port r' = master_port r ∧
  highest_seen_generation r <= highest_seen_generation r' ∧
  (role r' = role r ∨ (role r = "master" ∧ role r' = "slave")).

(** The same, with the role kept too. *)
Definition steady (r r' : ReplicationManager) : Prop :=
  keeps_identity r r' ∧ role r' = role r.

(** The text holds only ASCII characters. *)
Definition is_ascii (s : string) : Prop :=
  Forall (fun c => (code c < 128)%nat) (list_ascii_of_string s).

(** The text is ASCII and holds no line end. *)
Definition plain (s : string) : Prop :=
  is_ascii s ∧ Connection.find_crlf s = None.

(** The text holds no white space. *)
Definition spaceless (s : string) : Prop :=
  Forall (fun c => is_space c = false) (list_ascii_of_string s).

(** A frame of bulk strings whose headers are arbitrary: [items] pairs each
    header, the text after [$], with its payload. *)
Definition frame_of (items : list (string * string)) : string :=
  "*" +:+ decimal (Z.of_nat (List.length items)) +:+ CRLF
      +:+ String.concat ""
            (map (fun hv => "$" +:+ hv.1 +:+ CRLF +:+ hv.2 +:+ CRLF) items).

(** A frame given by its lines: the line of the count, then every line
    with its line end. *)
Definition frame_lines (n : Z) (lines : list string) : string :=
  "*" +:+ decimal n +:+ CRLF +:+ String.concat "" (map (fun l => l +:+ CRLF) lines).

(** The lines of the items of a frame: a header and a payload each. *)
Definition item_lines (items : list (string * string)) : list string :=
  flat_map (fun hv => ["$" +:+ hv.1; hv.2]) items.

(** Requests sent one right after the other. *)
Definition pipeline (commands : list Command) : string :=
  String.concat "" (map (fun c => encode_array (c.1 :: c.2)) commands).

(** The connection that receives [chunks] is served with the result [r]:
    the node it leaves and what it writes. *)
Definition served (fuel : nat) (envs : nat -> Env) (chunks : list string)
    (writer : Writer) (st : Redis) (r : Redis * list Event) : Prop :=
  ∃ steps, Connection.handle_client steps fuel envs chunks writer st = Some r.

(** A word of an inline command: ASCII text, not empty, without white
    space. *)
Definition word (w : string) : Prop := w ≠ "" ∧ spaceless w ∧ is_ascii w.

(** A request can be read: its name and arguments are ASCII without a line
    end, their count is a numeral that [int] reads, and the loop over its
    lines has the fuel for them. *)
Definition readable (fuel : nat) (c : Command) : Prop :=
  Forall plain (c.1 :: c.2) ∧ (S (List.length c.2) < fuel)%nat ∧
  printable (Z.of_nat (S (List.length c.2))) = true.

End Observations.

(** * Properties *)

Import Py RESPProtocol Replication Keyspace Handlers Wait Dispatcher Samples Spec.

Example int_examples :
  Py.int "12" = Some 12 /\ Py.int " -7 " = Some (-7) /\ Py.int "1_000" = Some 1000 /\
  Py.int "abc" = None /\ Py.int "" = None /\ Py.int "1__0" = None /\ Py.int "+" = None /\
  Py.int (String LF " 5 ") = Some 5 /\ Py.int (String (ascii_of_nat 28) "5") = None /\
  Py.str (-12) = Some "-12".
Proof. repeat split; reflexivity. Qed.

Example upper_example : upper "MasTer_announce" = "MASTER_ANNOUNCE".
Proof. reflexivity. Qed.

Example encode_examples :
  encode_bulk_string (Some "2") = "$1" +:+ CRLF +:+ "2" +:+ CRLF /\
  encode_integer 2 = ":2" +:+ CRLF /\
  encode_array ["REPLCONF"; "GETACK"; "*"] =
    "*3" +:+ CRLF +:+ "$8" +:+ CRLF +:+ "REPLCONF" +:+ CRLF +:+ "$6" +:+ CRLF
      +:+ "GETACK" +:+ CRLF +:+ "$1" +:+ CRLF +:+ "*" +:+ CRLF.
Proof. repeat split; reflexivity. Qed.

(** ** Generation-based master announcement *)



(** ** Transactions *)

Lemma extract_generation_fields (args : list string) (st : Redis) :
  let st' := (extract_generation args st).2 in
  data_store st' = data_store st ∧ transactions st' = transactions st ∧
  config st' = config st ∧
  role (replication st') = role (replication st) ∧
  generation (replication st') = generation (replication st) ∧
  master_host (replication st') = master_host (replication st) ∧
  master_port (replication st') = master_port (replication st) ∧
  propagated (replication st') = propagated (replication st) ∧
  replicas (replication st') = replicas (replication st).
Proof.
  unfold extract_generation.
  destruct (scan_generation _ _ _) as [args' g]. simpl. repeat split.
Qed.

Lemma is_write_command_multi : is_write_command "MULTI" = false.
Proof. reflexivity. Qed.

(** Where [MULTI] leads, whatever the connection's state. *)
Lemma execute_multi (fuel : nat) (env : Env) (command : string) (args : list string)
    (writer : Writer) (st : Redis) :
  upper command = "MULTI" ->
  execute_command fuel env command args writer st =
    Some (handle_multi writer (extract_generation args st).2).
Proof.
  intros Hc. unfold execute_command. rewrite Hc.
  destruct (extract_generation args st) as [args' st1]. simpl.
  rewrite andb_false_r. reflexivity.
Qed.

(** C6, as stated, fails: a connection with [SET a 1] queued that issues
    [MULTI] again is answered OK, but its queue is empty afterwards. *)
Lemma C6_multi_reentrant_counterexample :
  let st := with_queue 7%nat [("SET", ["a"; "1"])] (empty_redis master_node) in
  transactions st !! 7%nat = Some [("SET", ["a"; "1"])] ∧
  (fun p => (transactions p.1 !! 7%nat, p.2))
    <$> execute_command 0 (quiet_env 0 master_node (UpstreamFailed "refused"))
          "MULTI" [] 7%nat st
  = Some (Some [], [ClientWrite (encode_simple_string "OK")]).
Proof. split; vm_compute; reflexivity. Qed.

(** C6, amended: for a connection that is in a transaction, [MULTI] is
    answered OK and the connection stays in a transaction, with an empty
    queue: the commands buffered so far are dropped, so the queue is
    unchanged only when it was empty. The keyspace and the other
    connections' queues are untouched. *)
Theorem C6_multi_reentrant_resets_queue (fuel : nat) (env : Env) (command : string)
    (args : list string) (writer : Writer) (st : Redis) (queued : list Command) :
  upper command = "MULTI" ->
  transactions st !! writer = Some queued ->
  ∃ st',
    execute_command fuel env command args writer st =
      Some (st', [ClientWrite (encode_simple_string "OK")]) ∧
    transactions st' !! writer = Some [] ∧
    (transactions st' !! writer = Some queued ↔ queued = []) ∧
    (∀ other, other ≠ writer -> transactions st' !! other = transactions st !! other) ∧
    data_store st' = data_store st.
Proof.
  intros Hc Hq. rewrite (execute_multi _ _ _ _ _ _ Hc).
  destruct (extract_generation_fields args st) as (Hd & Ht & _).
  unfold handle_multi. eexists. split; [reflexivity |]. simpl.
  rewrite Ht, lookup_insert_eq. repeat split.
  - intros Heq. congruence.
  - intros ->. reflexivity.
  - intros other Hne. rewrite lookup_insert_ne by congruence. reflexivity.
  - exact Hd.
Qed.

Lemma C6_multi_reentrant_resets_queue_witness :
  let st := with_queue 7%nat [("SET", ["a"; "1"])] (empty_redis master_node) in
  upper "multi" = "MULTI" ∧
  transactions st !! 7%nat = Some [("SET", ["a"; "1"])] ∧
  ∃ st',
    execute_command 0 (quiet_env 0 master_node (UpstreamFailed "refused"))
      "multi" [] 7%nat st = Some (st', [ClientWrite (encode_simple_string "OK")]) ∧
    transactions st' !! 7%nat = Some [].
Proof.
  intros st. split; [reflexivity |]. split; [vm_compute; reflexivity |].
  destruct (C6_multi_reentrant_resets_queue 0
              (quiet_env 0 master_node (UpstreamFailed "refused"))
              "multi" [] 7%nat st [("SET", ["a"; "1"])] eq_refl)
    as (st' & Hrun & Hempty & _).
  - vm_compute. reflexivity.
  - exists st'. split; assumption.
Defined.

(** ** Keyspace: expiry and increment *)

Lemma is_key_expired_true (now : Z) (st : Redis) (key : string) :
  is_key_expired now st key = true ↔
  data_store st !! key = None ∨
  ∃ value expiry, data_store st !! key = Some (value, Some expiry) ∧ expiry <= now.
Proof.
  unfold is_key_expired.
  destruct (data_store st !! key) as [[value [expiry |]] |].
  - rewrite Z.leb_le. split.
    + intros H. right. eauto.
    + intros [H | (v & e & H & Hle)]; [discriminate | congruence].
  - split; [discriminate |].
    intros [H | (v & e & H & _)]; discriminate.
  - split; [auto | reflexivity].
Qed.

Lemma is_key_expired_false (now : Z) (st : Redis) (key : string) :
  is_key_expired now st key = false ↔ live now st key.
Proof.
  unfold is_key_expired, live.
  destruct (data_store st !! key) as [[value [expiry |]] |].
  - rewrite Z.leb_gt. split.
    + intros H. eauto.
    + intros (v & e & H & Hlt). injection H as <- <-. exact Hlt.
  - split; [| reflexivity].
    intros _. exists value, None. split; [reflexivity | exact I].
  - split; [discriminate | intros (v & e & H & _); discriminate].
Qed.

Lemma integer_is_not_error (n : Z) (e : string) : encode_integer n ≠ encode_error e.
Proof. unfold encode_integer, encode_error. simpl. discriminate. Qed.

(** A reply that is an integer is not an error reply. *)
Ltac refute_integer_error :=
  match goal with
  | H : [ClientWrite (encode_integer ?n)] = [ClientWrite (encode_error ?e)] |- _ =>
      exfalso; apply (integer_is_not_error n e); congruence
  | H : encode_integer ?n = encode_error ?e |- _ =>
      exfalso; exact (integer_is_not_error n e H)
  end.

(** C7: on a node that is not a slave, [INCR] on a key that is absent or
    expired stores "1" and answers 1; on a live key whose value is not an
    integer (or is an integer whose successor [str] cannot write) it
    answers an error and leaves the whole node as it was; and whenever
    [INCR] answers an error, whatever its arguments, the node is as it
    was. The same holds of [INCR] replayed by [EXEC]. *)
Theorem C7_increment (env : Env) (now : Z) (key : string) (st : Redis) :
  role (replication st) ≠ "slave" ->
  (* the handler *)
  ((data_store st !! key = None ∨
     (∃ value expiry, data_store st !! key = Some (value, Some expiry)
                      ∧ expiry <= env_now env) ->
     (handle_incr env [key] st).2 = [ClientWrite (encode_integer 1)] ∧
     data_store (handle_incr env [key] st).1 = <[key := ("1", None)]> (data_store st)) ∧
   (∀ value, live (env_now env) st key ->
     (∃ expiry, data_store st !! key = Some (value, expiry)) ->
     (∀ n, int value = Some n -> str (n + 1) = None) ->
     handle_incr env [key] st =
       (st, [ClientWrite (encode_error "ERR value is not an integer or out of range")])) ∧
   (∀ args e, (handle_incr env args st).2 = [ClientWrite (encode_error e)] ->
     (handle_incr env args st).1 = st)) ∧
  (* the same command inside a transaction *)
  ((data_store st !! key = None ∨
     (∃ value expiry, data_store st !! key = Some (value, Some expiry) ∧ expiry <= now) ->
     (execute_transaction_command now "INCR" [key] st).2 = encode_integer 1 ∧
     data_store (execute_transaction_command now "INCR" [key] st).1
       = <[key := ("1", None)]> (data_store st)) ∧
   (∀ value, live now st key ->
     (∃ expiry, data_store st !! key = Some (value, expiry)) ->
     (∀ n, int value = Some n -> str (n + 1) = None) ->
     execute_transaction_command now "INCR" [key] st =
       (st, encode_error "ERR value is not an integer or out of range")) ∧
   (∀ args e, (execute_transaction_command now "INCR" args st).2 = encode_error e ->
     (execute_transaction_command now "INCR" args st).1 = st)).
Proof.
  intros Hrole.
  assert (Hr : String.eqb (role (replication st)) "slave" = false)
    by (apply String.eqb_neq; exact Hrole).
  split; split.
  - intros Hgone. apply is_key_expired_true in Hgone.
    unfold handle_incr. rewrite Hr, Hgone. simpl.
    destruct (data_store st !! key) as [[v e] |]; split; reflexivity.
  - split.
    + intros value Hlive [expiry Hv] Hint. apply is_key_expired_false in Hlive.
      unfold handle_incr. rewrite Hr, Hv, Hlive. cbn [negb].
      destruct (int value) as [n |]; [| reflexivity].
      rewrite (Hint n eq_refl). reflexivity.
    + intros args e. unfold handle_incr.
      destruct args as [| k [| k2 args]]; try (intros _; reflexivity).
      rewrite Hr.
      destruct (data_store st !! k) as [[v ex] |]; cbn [fst snd negb].
      * destruct (is_key_expired (env_now env) st k); cbn [fst snd negb].
        -- intros H. refute_integer_error.
        -- destruct (int v) as [n |]; cbn [fst snd]; [| intros _; reflexivity].
           destruct (str (n + 1)); cbn [fst snd]; [| intros _; reflexivity].
           intros H. refute_integer_error.
      * intros H. refute_integer_error.
  - intros Hgone. apply is_key_expired_true in Hgone.
    unfold execute_transaction_command. simpl String.eqb. cbv iota. simpl andb. cbv iota.
    rewrite Hgone. simpl.
    destruct (data_store st !! key) as [[v e] |]; split; reflexivity.
  - split.
    + intros value Hlive [expiry Hv] Hint. apply is_key_expired_false in Hlive.
      unfold execute_transaction_command. simpl String.eqb. cbv iota. simpl andb. cbv iota.
      rewrite Hv, Hlive. cbn [negb].
      destruct (int value) as [n |]; [| reflexivity].
      rewrite (Hint n eq_refl). reflexivity.
    + intros args e. unfold execute_transaction_command.
      simpl String.eqb. cbv iota. simpl andb. cbv iota.
      destruct args as [| k [| k2 args]]; try (intros _; reflexivity).
      destruct (data_store st !! k) as [[v ex] |]; cbn [fst snd negb].
      * destruct (is_key_expired now st k); cbn [fst snd negb].
        -- intros H. refute_integer_error.
        -- destruct (int v) as [n |]; cbn [fst snd]; [| intros _; reflexivity].
           destruct (str (n + 1)); cbn [fst snd]; [| intros _; reflexivity].
           intros H. refute_integer_error.
      * intros H. refute_integer_error.
Qed.

(** [INCR] on a key holding "abc" is refused and the key keeps "abc". *)
Lemma C7_increment_witness :
  let st := with_key "k" "abc" None (empty_redis master_node) in
  let env := quiet_env 10 master_node (UpstreamFailed "refused") in
  role (replication st) ≠ "slave" ∧
  live (env_now env) st "k" ∧ int "abc" = None ∧
  handle_incr env ["k"] st =
    (st, [ClientWrite (encode_error "ERR value is not an integer or out of range")]) ∧
  data_store (handle_incr env ["k"] st).1 !! "k" = Some ("abc", None).
Proof.
  intros st env.
  assert (Hrole : role (replication st) ≠ "slave") by (vm_compute; discriminate).
  assert (Hlive : live (env_now env) st "k").
  { exists "abc", None. split; [vm_compute; reflexivity | exact I]. }
  assert (Hstored : ∃ expiry, data_store st !! "k" = Some ("abc", expiry)).
  { exists None. vm_compute. reflexivity. }
  pose proof (C7_increment env 10 "k" st Hrole) as [(_ & Hrefused & _) _].
  assert (Hvalue : ∀ n, int "abc" = Some n -> str (n + 1) = None)
    by (intros n Hn; discriminate Hn).
  specialize (Hrefused "abc" Hlive Hstored Hvalue).
  split; [exact Hrole |]. split; [exact Hlive |]. split; [reflexivity |].
  split; [exact Hrefused |].
  rewrite Hrefused. vm_compute. reflexivity.
Defined.

(** ** Propagation of INCR *)

(** C2 does not hold of the code: an [INCR] replayed by [EXEC] on the
    master is propagated as [INCR a], although the same command dispatched
    directly is propagated as [SET a 1]. *)
Theorem C2_incr_replayed_by_exec_propagates_incr :
  let env := quiet_env 0 master_node (UpstreamFailed "refused") in
  let st0 := empty_redis master_node in
  (st1 ← fst <$> execute_command 0 env "MULTI" [] 7%nat st0;
   st2 ← fst <$> execute_command 0 env "INCR" ["a"] 7%nat st1;
   st3 ← fst <$> execute_command 0 env "EXEC" [] 7%nat st2;
   Some (propagated (replication st3), data_store st3 !! "a"))
  = Some ([["INCR"; "a"]], Some ("1", None)) ∧
  (fun p => (propagated (replication p.1), data_store p.1 !! "a"))
    <$> execute_command 0 env "INCR" ["a"] 7%nat st0
  = Some ([["SET"; "a"; "1"]], Some ("1", None)).
Proof. split; vm_compute; reflexivity. Qed.

(** ** The generation marker *)

Lemma scan_generation_unmarked (n : nat) (args : list string) (highest : Z) :
  unmarked args -> scan_generation n args highest = (args, highest).
Proof.
  intros Hun. induction n as [| i IH]; [reflexivity |]. simpl.
  destruct (args !! i) as [a |] eqn:Ha; [| reflexivity].
  assert (Hfalse : startswith "_GEN_" a = false).
  { eapply (proj1 (Forall_forall _ args) Hun), list_elem_of_lookup_2, Ha. }
  rewrite Hfalse. exact IH.
Qed.

Lemma scan_generation_last_marker (pre post : list string) (m : string) (highest : Z) :
  startswith "_GEN_" m = true -> unmarked post ->
  scan_generation (List.length (pre ++ m :: post)) (pre ++ m :: post) highest =
    match int (drop_chars 5 m) with
    | Some g => (pre ++ post, Z.max highest g)
    | None => (pre ++ m :: post, highest)
    end.
Proof.
  intros Hm Hpost.
  assert (Hgen : ∀ k, (k <= List.length post)%nat ->
    scan_generation (S (List.length pre + k)) (pre ++ m :: post) highest =
      match int (drop_chars 5 m) with
      | Some g => (pre ++ post, Z.max highest g)
      | None => (pre ++ m :: post, highest)
      end).
  { induction k as [| k IH]; intros Hk.
    - rewrite Nat.add_0_r. cbn [scan_generation].
      rewrite list_lookup_middle by reflexivity.
      rewrite Hm. destruct (int (drop_chars 5 m)) as [g |]; [| reflexivity].
      rewrite delete_middle. f_equal.
      destruct (Z.ltb_spec highest g); lia.
    - cbn [scan_generation].
      rewrite lookup_app_r by lia.
      replace (List.length pre + S k - List.length pre)%nat with (S k) by lia.
      cbn [lookup list_lookup]. destruct (post !! k) as [a |] eqn:Ha.
      + assert (Hfalse : startswith "_GEN_" a = false).
        { eapply (proj1 (Forall_forall _ post) Hpost), list_elem_of_lookup_2, Ha. }
        rewrite Hfalse.
        replace (List.length pre + S k)%nat with (S (List.length pre + k)) by lia.
        apply IH. lia.
      + apply lookup_ge_None in Ha. lia. }
  rewrite length_app. simpl.
  replace (List.length pre + S (List.length post))%nat
    with (S (List.length pre + List.length post)) by lia.
  apply Hgen. lia.
Qed.

(** C10, as stated, fails: of the two markers of [SET k _GEN_7 _GEN_8]
    only the last is removed, so the master stores [_GEN_7] as the value
    of [k] (and notes generation 8). *)
Lemma C10_marker_counterexample :
  let env := quiet_env 0 master_node (UpstreamFailed "refused") in
  int (drop_chars 5 "_GEN_7") = Some 7 ∧
  (extract_generation ["k"; "_GEN_7"; "_GEN_8"] (empty_redis master_node)).1
    = ["k"; "_GEN_7"] ∧
  (fun p => (data_store p.1 !! "k", highest_seen_generation (replication p.1), p.2))
    <$> execute_command 0 env "SET" ["k"; "_GEN_7"; "_GEN_8"] 7%nat
          (empty_redis master_node)
  = Some (Some ("_GEN_7", None), 8, [ClientWrite (encode_simple_string "OK")]).
Proof. repeat split; vm_compute; reflexivity. Qed.

(** C10, amended: before a command is routed, only the last argument that
    starts with [_GEN_] is looked at, whatever its position. If what
    follows the prefix is an integer, that one argument is removed and
    [highest_seen_generation] is raised to the integer when it is larger;
    if not, nothing is removed. Arguments without the prefix, and earlier
    arguments with it, stay. So [SET k _GEN_7], where the marker is the
    only one, is routed as [SET k]: on a master, outside a transaction, it
    is answered as an unknown command and the keyspace is as it was. *)
Theorem C10_last_marker_only (st : Redis) :
  let seen (p : list string * Redis) := highest_seen_generation (replication p.2) in
  (∀ args, unmarked args ->
     (extract_generation args st).1 = args ∧
     seen (extract_generation args st) = highest_seen_generation (replication st)) ∧
  (∀ pre m post, startswith "_GEN_" m = true -> unmarked post ->
     (∀ g, int (drop_chars 5 m) = Some g ->
        (extract_generation (pre ++ m :: post) st).1 = pre ++ post ∧
        seen (extract_generation (pre ++ m :: post) st)
          = Z.max (highest_seen_generation (replication st)) g) ∧
     (int (drop_chars 5 m) = None ->
        (extract_generation (pre ++ m :: post) st).1 = pre ++ m :: post ∧
        seen (extract_generation (pre ++ m :: post) st)
          = highest_seen_generation (replication st))) ∧
  (∀ fuel env command k m g writer,
     upper command = "SET" -> role (replication st) ≠ "slave" ->
     transactions st !! writer = None ->
     startswith "_GEN_" m = true -> int (drop_chars 5 m) = Some g ->
     ∃ st', execute_command fuel env command [k; m] writer st =
              Some (st', [ClientWrite (encode_error "unknown command")]) ∧
            data_store st' = data_store st).
Proof.
  intros seen. split; [| split].
  - intros args Hun. unfold seen, extract_generation.
    rewrite (scan_generation_unmarked _ _ _ Hun). split; reflexivity.
  - intros pre m post Hm Hpost. unfold seen, extract_generation.
    rewrite (scan_generation_last_marker pre post m _ Hm Hpost).
    split.
    + intros g Hg. rewrite Hg. split; reflexivity.
    + intros Hg. rewrite Hg. split; reflexivity.
  - intros fuel env command k m g writer Hc Hrole Htx Hm Hg.
    assert (Hr : String.eqb (role (replication st)) "slave" = false)
      by (apply String.eqb_neq; exact Hrole).
    unfold execute_command, extract_generation. rewrite Hc.
    rewrite (scan_generation_last_marker [k] [] m _ Hm ltac:(constructor)), Hg.
    cbn [app set_replication set_highest_seen_generation replication role
         transactions data_store].
    rewrite Hr, Htx. eexists. split; reflexivity.
Qed.

Lemma C10_last_marker_only_witness :
  let st := empty_redis master_node in
  unmarked ["k"] ∧ startswith "_GEN_" "_GEN_7" = true ∧
  int (drop_chars 5 "_GEN_7") = Some 7 ∧
  (extract_generation (["_GEN_9"] ++ "_GEN_7" :: ["k"]) st).1 = ["_GEN_9"] ++ ["k"] ∧
  highest_seen_generation
    (replication (extract_generation (["_GEN_9"] ++ "_GEN_7" :: ["k"]) st).2) = 7.
Proof.
  intros st.
  assert (Hun : unmarked ["k"]) by (repeat constructor).
  split; [exact Hun |]. split; [reflexivity |]. split; [reflexivity |].
  destruct (C10_last_marker_only st) as (_ & Hlast & _).
  destruct (Hlast ["_GEN_9"] "_GEN_7" ["k"] eq_refl Hun) as [Hvalid _].
  exact (Hvalid 7 eq_refl).
Defined.

(** ** Writes on a slave *)

Lemma is_write_command_true (command : string) :
  is_write_command command = true ↔ command ∈ write_commands.
Proof.
  unfold is_write_command. rewrite existsb_exists. split.
  - intros (x & Hin & Heq). apply String.eqb_eq in Heq. subst x.
    apply list_elem_of_In. exact Hin.
  - intros Hin. exists command. split; [apply list_elem_of_In; exact Hin |].
    apply String.eqb_refl.
Qed.



(** ** EXEC *)

Lemma append_empty_r (s : string) : s +:+ "" = s.
Proof.
  induction s as [| c s IH]; [reflexivity |].
  change (String c (s +:+ "") = String c s). f_equal. exact IH.
Qed.

Lemma append_associative (s t u : string) : (s +:+ t) +:+ u = s +:+ (t +:+ u).
Proof.
  induction s as [| c s IH]; [reflexivity |].
  change (String c ((s +:+ t) +:+ u) = String c (s +:+ (t +:+ u))). f_equal. exact IH.
Qed.

Lemma concat_empty_cons (s : string) (l : list string) :
  String.concat "" (s :: l) = s +:+ String.concat "" l.
Proof.
  destruct l as [| t l]; cbn [String.concat].
  - cbn [String.append]. symmetry. apply append_empty_r.
  - reflexivity.
Qed.

Lemma fold_append (l : list string) (header : string) :
  fold_left String.append l header = header +:+ String.concat "" l.
Proof.
  revert header. induction l as [| s l IH]; intros header.
  - simpl. rewrite append_empty_r. reflexivity.
  - rewrite concat_empty_cons. cbn [fold_left]. rewrite IH.
    apply append_associative.
Qed.

Lemma build_array_frame (responses : list string) :
  build_array responses =
    "*" +:+ decimal (Z.of_nat (List.length responses)) +:+ CRLF
        +:+ String.concat "" responses.
Proof.
  unfold build_array. rewrite fold_append.
  rewrite !append_associative. reflexivity.
Qed.

(** C5 does not hold of the code: [EXEC] does not execute every buffered
    command. A [KEYS *] that the connection buffered, and that was answered
    QUEUED, is answered by [EXEC] with the error [unknown command 'KEYS'],
    although the same command dispatched outside a transaction lists the
    key of the keyspace. *)
Theorem C5_exec_does_not_run_buffered_keys :
  let env := quiet_env 0 master_node (UpstreamFailed "refused") in
  let st0 := with_key "a" "1" None (empty_redis master_node) in
  ('(st1, _) ← execute_command 0 env "MULTI" [] 7%nat st0;
   '(st2, queued) ← execute_command 0 env "KEYS" ["*"] 7%nat st1;
   '(_, out) ← execute_command 0 env "EXEC" [] 7%nat st2;
   Some (queued, out))
  = Some ([ClientWrite ("+QUEUED" +:+ CRLF)],
          [ClientWrite ("*1" +:+ CRLF +:+ "-unknown command 'KEYS'" +:+ CRLF)]) ∧
  snd <$> execute_command 0 env "KEYS" ["*"] 7%nat st0
  = Some [ClientWrite ("*1" +:+ CRLF +:+ "$1" +:+ CRLF +:+ "a" +:+ CRLF)].
Proof. split; vm_compute; reflexivity. Qed.

(** ** Expired entries *)

Lemma store_with_key_not_empty (st : Redis) (key : string) (entry : string * option Z) :
  data_store st !! key = Some entry -> is_empty_store st = false.
Proof.
  intros Hk. unfold is_empty_store.
  destruct (map_to_list (data_store st)) as [| p l] eqn:Hl; [| reflexivity].
  apply map_to_list_empty_iff in Hl. rewrite Hl, lookup_empty in Hk. discriminate.
Qed.

(** The keys listed by a scan are the live keys that pass the filter. *)
Lemma keys_where_elem (now : Z) (st : Redis) (p : string -> bool) (key : string) :
  key ∈ keys_where now st p ↔ p key = true ∧ live now st key.
Proof.
  unfold keys_where. rewrite list_elem_of_In, filter_In, <- list_elem_of_In.
  rewrite andb_true_iff, negb_true_iff, is_key_expired_false. split.
  - intros (_ & Hp & Hlive). split; assumption.
  - intros (Hp & Hlive). split; [| split; assumption].
    destruct Hlive as (value & expiry & Hk & _).
    apply list_elem_of_fmap. exists (key, (value, expiry)).
    split; [reflexivity |]. apply elem_of_map_to_list. exact Hk.
Qed.

Lemma keys_where_NoDup (now : Z) (st : Redis) (p : string -> bool) :
  NoDup (keys_where now st p).
Proof.
  unfold keys_where. apply NoDup_ListNoDup, List.NoDup_filter, NoDup_ListNoDup.
  apply NoDup_fst_map_to_list.
Qed.

(** C8, as stated, fails: at time 10 the entry of [k], which expired at 5,
    is not listed by [KEYS *], and it is still in the keyspace afterwards. *)
Lemma C8_scan_counterexample :
  let st := with_key "k" "v" (Some 5) (empty_redis master_node) in
  let env := quiet_env 10 master_node (UpstreamFailed "refused") in
  is_key_expired (env_now env) st "k" = true ∧
  (fun p => (p.2, data_store p.1 !! "k"))
    <$> execute_command 0 env "KEYS" ["*"] 7%nat st
  = Some ([ClientWrite (encode_array [])], Some ("v", Some 5)).
Proof. split; vm_compute; reflexivity. Qed.

(** C8, amended: an entry whose expiry has passed is logically absent. A
    [GET] of its key, direct or replayed by [EXEC], answers the null bulk
    string and deletes the entry. A scan never lists the key, whatever the
    pattern, and leaves the node, the expired entry included, as it is. *)
Theorem C8_expired_entry (env : Env) (key value : string) (expiry : Z) (st : Redis) :
  data_store st !! key = Some (value, Some expiry) ->
  expiry <= env_now env ->
  ¬ live (env_now env) st key ∧
  handle_get env [key] st =
    (set_data_store (delete key (data_store st)) st, [encode_bulk_string None]) ∧
  data_store (handle_get env [key] st).1 !! key = None ∧
  execute_transaction_command (env_now env) "GET" [key] st =
    (set_data_store (delete key (data_store st)) st, encode_bulk_string None) ∧
  (∀ pattern,
     (key ∉ (get_matching_keys env pattern st).2) ∧
     (get_matching_keys env pattern st).1 = st).
Proof.
  intros Hk Hpast.
  assert (Hexp : is_key_expired (env_now env) st key = true).
  { apply is_key_expired_true. right. eauto. }
  assert (Hdead : ¬ live (env_now env) st key).
  { intros Hlive. apply is_key_expired_false in Hlive. congruence. }
  assert (Hget : handle_get env [key] st =
    (set_data_store (delete key (data_store st)) st, [encode_bulk_string None])).
  { unfold handle_get. rewrite Hk, Hexp. reflexivity. }
  split; [exact Hdead |]. split; [exact Hget |].
  split; [rewrite Hget; apply lookup_delete_eq |].
  split.
  - unfold execute_transaction_command.
    simpl String.eqb. cbv iota. simpl andb. cbv iota.
    rewrite Hk, Hexp. reflexivity.
  - intros pattern. unfold get_matching_keys.
    rewrite (store_with_key_not_empty st key _ Hk).
    destruct (String.eqb pattern "*").
    { split; [| reflexivity]. cbn [snd].
      rewrite keys_where_elem. intros [_ Hlive]. exact (Hdead Hlive). }
    destruct (contains "?" pattern || contains "[" pattern).
    { split; [| reflexivity]. cbn [snd].
      rewrite keys_where_elem. intros [_ Hlive]. exact (Hdead Hlive). }
    destruct (data_store st !! pattern) as [entry |] eqn:Hp;
      [| split; [apply not_elem_of_nil | reflexivity]].
    destruct (is_key_expired (env_now env) st pattern) eqn:He; cbn [negb fst snd];
      [split; [apply not_elem_of_nil | reflexivity] |].
    split; [| reflexivity].
    intros Hin. apply list_elem_of_singleton in Hin. subst pattern. congruence.
Qed.

Lemma C8_expired_entry_witness :
  let st := with_key "k" "v" (Some 5) (empty_redis master_node) in
  let env := quiet_env 10 master_node (UpstreamFailed "refused") in
  data_store st !! "k" = Some ("v", Some 5) ∧ 5 <= env_now env ∧
  data_store (handle_get env ["k"] st).1 !! "k" = None ∧
  (get_matching_keys env "*" st).1 = st.
Proof.
  intros st env.
  assert (Hk : data_store st !! "k" = Some ("v", Some 5)) by (vm_compute; reflexivity).
  assert (Hpast : 5 <= env_now env) by (vm_compute; discriminate).
  destruct (C8_expired_entry env "k" "v" 5 st Hk Hpast)
    as (_ & _ & Hgone & _ & Hscan).
  split; [exact Hk |]. split; [exact Hpast |]. split; [exact Hgone |].
  exact (proj2 (Hscan "*")).
Defined.

(** ** KEYS *)

Lemma contains_append (c d : ascii) (pre rest : string) :
  contains c (pre +:+ String d rest) = contains c pre || Ascii.eqb c d || contains c rest.
Proof.
  induction pre as [| e pre IH].
  - reflexivity.
  - change (contains c (String e (pre +:+ String d rest))
            = contains c (String e pre) || Ascii.eqb c d || contains c rest).
    cbn [contains]. rewrite IH, !orb_assoc. reflexivity.
Qed.

(** What [pattern.split("?")[0].split("[")[0]] keeps: the text before the
    first [?] or [[]. *)
Lemma split_head_wildcard (pre rest : string) (c : ascii) :
  c = "?"%char ∨ c = "["%char ->
  contains "?" pre = false -> contains "[" pre = false ->
  split_head "[" (split_head "?" (pre +:+ String c rest)) = pre.
Proof.
  intros Hc. induction pre as [| d pre IH]; intros Hq Hb.
  - destruct Hc as [-> | ->]; reflexivity.
  - change (split_head "[" (split_head "?" (String d (pre +:+ String c rest)))
            = String d pre).
    cbn [contains] in Hq, Hb.
    apply orb_false_iff in Hq as [Hq1 Hq2]. apply orb_false_iff in Hb as [Hb1 Hb2].
    cbn [split_head]. rewrite Hq1. cbn [split_head]. rewrite Hb1.
    f_equal. apply IH; assumption.
Qed.

(** C9 does not hold of the code: a [*] inside a pattern is not a
    wildcard. With the live key [foo1] in the keyspace, [KEYS foo*] lists
    no key, although [foo1] shares the literal prefix [foo] that precedes
    the wildcard character, and although the patterns [foo?] and [foo[]
    list it. *)
Theorem C9_star_inside_a_pattern_is_no_wildcard :
  let st := with_key "foo1" "v" None (empty_redis master_node) in
  let env := quiet_env 0 master_node (UpstreamFailed "refused") in
  is_key_expired (env_now env) st "foo1" = false ∧ startswith "foo" "foo1" = true ∧
  (get_matching_keys env "foo*" st).2 = [] ∧
  (get_matching_keys env "foo?" st).2 = ["foo1"] ∧
  (get_matching_keys env "foo[" st).2 = ["foo1"] ∧
  snd <$> execute_command 0 env "KEYS" ["foo*"] 7%nat st
  = Some [ClientWrite ("*0" +:+ CRLF)].
Proof. repeat split; vm_compute; reflexivity. Qed.

(** ** WAIT *)

Lemma sleep_until_reaches (ticks : nat -> Tick) (deadline : Z) (fuel : nat) :
  ∀ i j, sleep_until fuel ticks deadline i = Some j -> reaches ticks deadline i j.
Proof.
  induction fuel as [| fuel IH]; intros i j; [discriminate |].
  cbn [sleep_until]. destruct (Z.ltb_spec (tick_now (ticks i)) deadline) as [Hlt | Hge].
  - intros Hj. destruct (IH _ _ Hj) as (Hle & Hpast & Hbefore).
    split; [lia |]. split; [exact Hpast |].
    intros k Hk. destruct (decide (k = i)) as [-> | Hne]; [exact Hlt |].
    apply Hbefore. lia.
  - intros [= <-]. split; [lia |]. split; [exact Hge |]. intros k Hk. lia.
Qed.

Lemma sleep_until_returns (ticks : nat -> Tick) (deadline : Z) (n : nat) :
  ∀ fuel i, (n < fuel)%nat -> deadline <= tick_now (ticks (i + n)%nat) ->
  ∃ j, sleep_until fuel ticks deadline i = Some j.
Proof.
  induction n as [| n IH]; intros fuel i Hfuel Hpast;
    (destruct fuel as [| fuel]; [lia |]); cbn [sleep_until].
  - rewrite Nat.add_0_r in Hpast.
    destruct (Z.ltb_spec (tick_now (ticks i)) deadline); [lia | eauto].
  - destruct (Z.ltb_spec (tick_now (ticks i)) deadline); [| eauto].
    apply IH; [lia |]. replace (S i + n)%nat with (i + S n)%nat by lia. exact Hpast.
Qed.

Lemma poll_acks_polled (ticks : nat -> Tick) (num_replicas deadline offset : Z)
    (fuel : nat) :
  ∀ i acked c j,
    poll_acks fuel ticks num_replicas deadline offset acked i = Some (c, j) ->
    (i <= j)%nat ∧
    (∀ k, (i <= k < j)%nat ->
       tick_now (ticks k) < deadline ∧ acked_at ticks offset k < num_replicas) ∧
    ((tick_now (ticks j) < deadline ∧ c = acked_at ticks offset j ∧ num_replicas <= c) ∨
     (deadline <= tick_now (ticks j) ∧ j = i ∧ c = acked) ∨
     (deadline <= tick_now (ticks j) ∧ (i < j)%nat ∧ c = acked_at ticks offset (j - 1))).
Proof.
  induction fuel as [| fuel IH]; intros i acked c j; [discriminate |].
  cbn [poll_acks]. fold (acked_at ticks offset i).
  destruct (Z.ltb_spec (tick_now (ticks i)) deadline) as [Hlt | Hge].
  - destruct (Z.leb_spec num_replicas (acked_at ticks offset i)) as [Henough | Hfew].
    + intros [= <- <-]. split; [lia |]. split; [intros k Hk; lia |]. left. auto.
    + intros Hj. destruct (IH _ _ _ _ Hj) as (Hle & Hbefore & Hend).
      split; [lia |]. split.
      * intros k Hk. destruct (decide (k = i)) as [-> | Hne]; [auto |].
        apply Hbefore. lia.
      * destruct Hend as [Hend | [(Hpast & -> & ->) | (Hpast & Hij & ->)]].
        -- left. exact Hend.
        -- right. right. split; [exact Hpast |]. split; [lia |].
           replace (S i - 1)%nat with i by lia. reflexivity.
        -- right. right. split; [exact Hpast |]. split; [lia | reflexivity].
  - intros [= <- <-]. split; [lia |]. split; [intros k Hk; lia |].
    right. left. auto.
Qed.

Lemma poll_acks_returns (ticks : nat -> Tick) (num_replicas deadline offset : Z)
    (n : nat) :
  ∀ fuel i acked, (n < fuel)%nat -> deadline <= tick_now (ticks (i + n)%nat) ->
  ∃ c j, poll_acks fuel ticks num_replicas deadline offset acked i = Some (c, j).
Proof.
  induction n as [| n IH]; intros fuel i acked Hfuel Hpast;
    (destruct fuel as [| fuel]; [lia |]); cbn [poll_acks].
  - rewrite Nat.add_0_r in Hpast.
    destruct (Z.ltb_spec (tick_now (ticks i)) deadline); [lia | eauto].
  - destruct (Z.ltb_spec (tick_now (ticks i)) deadline); [| eauto].
    destruct (num_replicas <=? _); [eauto |].
    apply IH; [lia |]. replace (S i + n)%nat with (i + S n)%nat by lia. exact Hpast.
Qed.

Lemma poll_acks_from_zero (ticks : nat -> Tick) (num_replicas deadline offset : Z)
    (fuel i : nat) (c : Z) (j : nat) :
  poll_acks fuel ticks num_replicas deadline offset 0 i = Some (c, j) ->
  polled ticks num_replicas deadline offset i c j.
Proof. apply poll_acks_polled. Qed.

Lemma sleep_until_more_fuel (ticks : nat -> Tick) (deadline : Z) (fuel : nat) :
  ∀ fuel' i j, (fuel <= fuel')%nat ->
    sleep_until fuel ticks deadline i = Some j ->
    sleep_until fuel' ticks deadline i = Some j.
Proof.
  induction fuel as [| fuel IH]; intros fuel' i j Hle; [discriminate |].
  destruct fuel' as [| fuel']; [lia |]. cbn [sleep_until].
  destruct (tick_now (ticks i) <? deadline); [| auto].
  apply IH. lia.
Qed.

(** C1, as stated, fails twice. With writes pending, one replica that has
    acknowledged the master's offset, and a timeout of 0, [WAIT 1 0]
    answers 0, not min(1, 1). With no write pending and one replica
    connected, [WAIT 2 100] does not answer at once: it asks the replica
    for an acknowledgement and sleeps until the 100 ms have passed. *)
Lemma C1_wait_counterexample :
  let busy := mkReplication "master" "8371b4fb" 10 3 3 "leader" None None true
                [mkReplica false 10] [] in
  let idle := mkReplication "master" "8371b4fb" 0 3 3 "leader" None None false
                [mkReplica false 0] [] in
  count_acked_replicas (master_repl_offset busy) busy = 1 ∧
  snd <$> execute_command 5 (ticking_env 50 busy) "WAIT" ["1"; "0"] 7%nat
            (empty_redis busy)
    = Some [ReplicaWrite (encode_array ["REPLCONF"; "GETACK"; "*"]);
            ClientWrite (encode_integer 0)] ∧
  snd <$> execute_command 5 (ticking_env 50 idle) "WAIT" ["2"; "100"] 7%nat
            (empty_redis idle)
    = Some [ReplicaWrite (encode_array ["REPLCONF"; "GETACK"; "*"]); Sleep;
            ClientWrite (encode_integer 1)].
Proof. repeat split; vm_compute; reflexivity. Qed.

(** C1, amended: for [WAIT numreplicas timeout] with integer arguments,
    once the closed replicas are pruned:
    - with no replica connected, or [numreplicas] 0, the answer is 0, at
      once;
    - with at least [numreplicas] replicas connected and no write pending,
      the answer is the number of connected replicas, at once;
    - with at least [numreplicas] replicas connected and writes pending, the
      replicas are asked for an acknowledgement and polled: the answer is
      min(c, numreplicas), where c is the count, at the poll that ended the
      polling, of the replicas that acknowledged the offset the master had
      when WAIT started; c is 0 when the timeout had passed before the first
      poll, as with a timeout of 0;
    - with fewer than [numreplicas] replicas connected, the replicas are
      asked for an acknowledgement and the command sleeps until the timeout
      has passed; then, on the replicas and the offset as they are by then,
      it answers 0 if none is connected, their number if no write is
      pending, and polls as above otherwise, with a new deadline;
    - if the clock goes past every deadline, the command answers. *)
Theorem C1_wait (fuel : nat) (env : Env) (a b : string) (num timeout : Z) (st : Redis) :
  int a = Some num -> int b = Some timeout ->
  let ticks := env_ticks env in
  let r0 := cleanup_replicas (replication st) in
  let connected (r : ReplicationManager) := Z.of_nat (List.length (replicas r)) in
  let answer (before : list Event) (v : Z) :=
    Some (set_replication r0 st, before ++ [ClientWrite (encode_integer v)]) in
  (connected r0 = 0 ∨ num = 0 -> handle_wait fuel env [a; b] st = answer [] 0) ∧
  (connected r0 ≠ 0 -> num ≠ 0 -> num <= connected r0 ->
     has_pending_writes r0 = false ->
     handle_wait fuel env [a; b] st = answer [] (connected r0)) ∧
  (connected r0 ≠ 0 -> num ≠ 0 -> num <= connected r0 ->
     has_pending_writes r0 = true ->
     ∀ result, handle_wait fuel env [a; b] st = Some result ->
       ∃ c j,
         polled ticks num (tick_now (ticks 0%nat) + timeout) (master_repl_offset r0)
           1 c j ∧
         Some result = answer (broadcast_getack r0 ++ sleeps 1 j) (Z.min c num)) ∧
  (connected r0 ≠ 0 -> connected r0 < num ->
     ∀ result, handle_wait fuel env [a; b] st = Some result ->
       ∃ j, reaches ticks (tick_now (ticks 0%nat) + timeout) 1 j ∧
         let r := tick_repl (ticks j) in
         let before := broadcast_getack r0 ++ sleeps 1 j in
         (connected r = 0 -> Some result = answer before 0) ∧
         (connected r ≠ 0 -> has_pending_writes r = false ->
            Some result = answer before (connected r)) ∧
         (connected r ≠ 0 -> has_pending_writes r = true ->
            ∃ c j',
              polled ticks num (tick_now (ticks (S j)) + timeout)
                (master_repl_offset r) (S (S j)) c j' ∧
              Some result =
                answer (before ++ broadcast_getack r ++ sleeps (S (S j)) j')
                  (Z.min c num))) ∧
  (time_passes ticks -> ∃ fuel' result, handle_wait fuel' env [a; b] st = Some result).
Proof.
  intros Ha Hb ticks r0 connected answer.
  assert (Hhandle : ∀ f, handle_wait f env [a; b] st =
    '(v, before) ← wait_reply f ticks num timeout r0;
    Some (set_replication r0 st, before ++ [ClientWrite (encode_integer v)])).
  { intros f. unfold handle_wait. cbn [lookup list_lookup]. rewrite Ha, Hb. reflexivity. }
  split; [| split; [| split; [| split]]].
  - intros Hzero. rewrite Hhandle. unfold wait_reply. fold (connected r0).
    assert (Hcond : (connected r0 =? 0) || (num =? 0) = true).
    { apply orb_true_iff. rewrite !Z.eqb_eq. exact Hzero. }
    rewrite Hcond. reflexivity.
  - intros Hc Hn Hle Hidle. rewrite Hhandle. unfold wait_reply. fold (connected r0).
    rewrite (proj2 (Z.eqb_neq _ _) Hc), (proj2 (Z.eqb_neq _ _) Hn).
    rewrite (proj2 (Z.ltb_ge _ _) Hle). cbn [orb mbind option_bind].
    fold (connected r0).
    rewrite ?(proj2 (Z.eqb_neq _ _) Hc), ?(proj2 (Z.eqb_neq _ _) Hn), Hidle.
    reflexivity.
  - intros Hc Hn Hle Hbusy result. rewrite Hhandle. unfold wait_reply.
    fold (connected r0).
    rewrite (proj2 (Z.eqb_neq _ _) Hc), (proj2 (Z.eqb_neq _ _) Hn).
    rewrite (proj2 (Z.ltb_ge _ _) Hle). cbn [orb mbind option_bind].
    fold (connected r0).
    rewrite ?(proj2 (Z.eqb_neq _ _) Hc), ?(proj2 (Z.eqb_neq _ _) Hn), Hbusy.
    cbn [orb negb].
    destruct (poll_acks fuel ticks num _ _ 0 1) as [[c j] |] eqn:Hpoll;
      [| discriminate].
    cbn [mbind option_bind]. intros [= <-]. exists c, j.
    split; [exact (poll_acks_from_zero _ _ _ _ _ _ _ _ Hpoll) | reflexivity].
  - intros Hc Hlt result. rewrite Hhandle. unfold wait_reply. fold (connected r0).
    assert (Hn : num ≠ 0) by (unfold connected in *; lia).
    rewrite (proj2 (Z.eqb_neq _ _) Hc), (proj2 (Z.eqb_neq _ _) Hn).
    rewrite (proj2 (Z.ltb_lt _ _) Hlt). cbn [orb].
    destruct (sleep_until fuel ticks _ 1) as [j |] eqn:Hsleep; [| discriminate].
    cbn [mbind option_bind]. fold (connected (tick_repl (ticks j))).
    rewrite ?(proj2 (Z.eqb_neq _ _) Hn), orb_false_r.
    intros Hres. exists j. split; [exact (sleep_until_reaches _ _ _ _ _ Hsleep) |].
    cbv zeta. split; [| split].
    + intros Hnone. rewrite Hnone in Hres. cbn [Z.eqb] in Hres.
      symmetry. exact Hres.
    + intros Hsome Hidle.
      rewrite (proj2 (Z.eqb_neq _ _) Hsome), Hidle in Hres. symmetry. exact Hres.
    + intros Hsome Hbusy.
      rewrite (proj2 (Z.eqb_neq _ _) Hsome), Hbusy in Hres. cbn [negb] in Hres.
      destruct (poll_acks fuel ticks num _ _ 0 (S (S j))) as [[c j'] |] eqn:Hpoll;
        [| discriminate].
      cbn [mbind option_bind] in Hres. injection Hres as <-. exists c, j'.
      split; [exact (poll_acks_from_zero _ _ _ _ _ _ _ _ Hpoll) |].
      unfold answer. rewrite <- !app_assoc. reflexivity.
  - intros Hpass.
    assert (Hpoll : ∀ deadline offset i, ∃ n, ∀ f, (n < f)%nat ->
      ∃ c j, poll_acks f ticks num deadline offset 0 i = Some (c, j)).
    { intros deadline offset i. destruct (Hpass deadline i) as (j & Hij & Hpast).
      exists (j - i)%nat. intros f Hf.
      apply (poll_acks_returns ticks num deadline offset (j - i)); [exact Hf |].
      replace (i + (j - i))%nat with j by lia. exact Hpast. }
    setoid_rewrite Hhandle. unfold wait_reply. fold (connected r0).
    destruct ((connected r0 =? 0) || (num =? 0)) eqn:Hcond;
      [exists 0%nat; eexists; reflexivity |].
    apply orb_false_iff in Hcond as [_ Hn].
    destruct (connected r0 <? num).
    + destruct (Hpass (tick_now (ticks 0%nat) + timeout) 1%nat) as (j1 & Hj1 & Hpast).
      destruct (sleep_until_returns ticks (tick_now (ticks 0%nat) + timeout)
                  (j1 - 1) (S (j1 - 1)) 1) as [j Hsleep]; [lia | |].
      { replace (1 + (j1 - 1))%nat with j1 by lia. exact Hpast. }
      destruct (Hpoll (tick_now (ticks (S j)) + timeout)
                  (master_repl_offset (tick_repl (ticks j))) (S (S j))) as [n Hn2].
      exists (S (j1 - 1) + S n)%nat.
      rewrite (sleep_until_more_fuel ticks _ (S (j1 - 1)) (S (j1 - 1) + S n)%nat
                 1%nat j ltac:(lia) Hsleep).
      cbn [mbind option_bind]. rewrite Hn, orb_false_r.
      destruct (Z.of_nat (List.length (replicas (tick_repl (ticks j)))) =? 0);
        [eexists; reflexivity |].
      destruct (has_pending_writes (tick_repl (ticks j)));
        [| eexists; reflexivity].
      cbn [negb]. destruct (Hn2 (S (j1 - 1) + S n)%nat ltac:(lia)) as (c & j' & ->).
      eexists. reflexivity.
    + cbn [mbind option_bind]. fold (connected r0).
      destruct ((connected r0 =? 0) || (num =? 0)); [exists 0%nat; eexists; reflexivity |].
      destruct (has_pending_writes r0); [| exists 0%nat; eexists; reflexivity].
      cbn [negb].
      destruct (Hpoll (tick_now (ticks 0%nat) + timeout) (master_repl_offset r0) 1%nat)
        as [n Hn2].
      exists (S n). destruct (Hn2 (S n) ltac:(lia)) as (c & j' & ->).
      eexists. reflexivity.
Qed.

(** A master with writes pending and one replica that has acknowledged its
    offset answers [WAIT 1 100] from the first poll. *)
Lemma C1_wait_witness :
  let busy := mkReplication "master" "8371b4fb" 10 3 3 "leader" None None true
                [mkReplica false 10] [] in
  let env := ticking_env 50 busy in
  let st := empty_redis busy in
  int "1" = Some 1 ∧ int "100" = Some 100 ∧
  ∃ result c j,
    handle_wait 5 env ["1"; "100"] st = Some result ∧
    polled (env_ticks env) 1 (tick_now (env_ticks env 0%nat) + 100) 10 1 c j ∧
    Some result =
      Some (set_replication (cleanup_replicas busy) st,
            (broadcast_getack (cleanup_replicas busy) ++ sleeps 1 j)
              ++ [ClientWrite (encode_integer (Z.min c 1))]).
Proof.
  intros busy env st. split; [reflexivity |]. split; [reflexivity |].
  destruct (handle_wait 5 env ["1"; "100"] st) as [result |] eqn:Hrun;
    [| vm_compute in Hrun; discriminate Hrun].
  destruct (C1_wait 5 env "1" "100" 1 100 st eq_refl eq_refl)
    as (_ & _ & Hpolling & _).
  destruct (Hpolling ltac:(vm_compute; discriminate) ltac:(discriminate)
              ltac:(vm_compute; discriminate) eq_refl result Hrun)
    as (c & j & Hpolled & Hresult).
  exists result, c, j. split; [reflexivity |]. split; [exact Hpolled | exact Hresult].
Defined.

(** * Further properties of the pipeline *)

Import Connection Observations.


(** ** SET and GET *)

Lemma set_expiry_plain (now : Z) (key value : string) (rest : list string) :
  (∀ opt ms more, rest = opt :: ms :: more -> upper opt ≠ "PX") ->
  set_expiry now (key :: value :: rest) = inl None.
Proof.
  intros Hrest. destruct rest as [| opt [| ms more]]; [reflexivity | reflexivity |].
  cbn [set_expiry].
  destruct (String.eqb_spec (upper opt) "PX") as [Heq | _]; [| reflexivity].
  destruct (Hrest opt ms more eq_refl Heq).
Qed.

Lemma set_expiry_px (now d : Z) (key value opt ms : string) (more : list string) :
  upper opt = "PX" -> int ms = Some d ->
  set_expiry now (key :: value :: opt :: ms :: more) = inl (Some (now + d)).
Proof. intros Ho Hd. cbn [set_expiry]. rewrite Ho, Hd. reflexivity. Qed.

Lemma get_stored (env : Env) (key value : string) (expiry : option Z) (st : Redis) :
  data_store st !! key = Some (value, expiry) ->
  (match expiry with Some e => env_now env < e | None => True end ->
     handle_get env [key] st = (st, [encode_bulk_string (Some value)])) ∧
  (match expiry with Some e => e <= env_now env | None => False end ->
     handle_get env [key] st =
       (set_data_store (delete key (data_store st)) st, [encode_bulk_string None])).
Proof.
  intros Hk. unfold handle_get, is_key_expired. rewrite Hk.
  destruct expiry as [e |]; split; intros He; try contradiction.
  - rewrite (proj2 (Z.leb_gt _ _) He). reflexivity.
  - rewrite (proj2 (Z.leb_le _ _) He). reflexivity.
  - reflexivity.
Qed.

(** X1: what SET stores, GET gives back. After [SET key value] with no PX
    option, GET answers the value at any later time, whatever expiry the key
    had before. After [SET key value PX ms], GET answers the value as long
    as the clock is below the time of the SET plus [ms], and from then on it
    answers the null bulk string and removes the key. *)
Theorem X1_set_then_get (env env' : Env) (key value : string) (st : Redis) :
  (∀ rest, (∀ opt ms more, rest = opt :: ms :: more -> upper opt ≠ "PX") ->
     let set := handle_set env (key :: value :: rest) st in
     set.2 = [encode_simple_string "OK"] ∧
     handle_get env' [key] set.1 = (set.1, [encode_bulk_string (Some value)])) ∧
  (∀ opt ms more d, upper opt = "PX" -> int ms = Some d ->
     let set := handle_set env (key :: value :: opt :: ms :: more) st in
     set.2 = [encode_simple_string "OK"] ∧
     (env_now env' < env_now env + d ->
        handle_get env' [key] set.1 = (set.1, [encode_bulk_string (Some value)])) ∧
     (env_now env + d <= env_now env' ->
        (handle_get env' [key] set.1).2 = [encode_bulk_string None] ∧
        data_store (handle_get env' [key] set.1).1 !! key = None)).
Proof.
  split.
  - intros rest Hrest set. subst set. unfold handle_set.
    rewrite (set_expiry_plain _ _ _ _ Hrest). cbn [fst snd]. split; [reflexivity |].
    apply (get_stored env' key value None); [| exact I].
    apply lookup_insert_eq.
  - intros opt ms more d Ho Hd set. subst set. unfold handle_set.
    rewrite (set_expiry_px _ d _ _ _ _ _ Ho Hd). cbn [fst snd].
    split; [reflexivity |].
    match goal with |- context [handle_get env' [key] ?s] =>
      assert (Hk : data_store s !! key = Some (value, Some (env_now env + d)))
        by apply lookup_insert_eq;
      destruct (get_stored env' key value _ s Hk) as [Hlive Hdead]
    end.
    split.
    + intros Hlt. apply Hlive. exact Hlt.
    + intros Hge. rewrite (Hdead Hge). cbn [fst snd].
      split; [reflexivity | apply lookup_delete_eq].
Qed.

Lemma X1_set_then_get_witness :
  let env := quiet_env 1000 master_node (UpstreamFailed "refused") in
  let late := quiet_env 1100 master_node (UpstreamFailed "refused") in
  let st := empty_redis master_node in
  upper "px" = "PX" ∧ int "100" = Some 100 ∧ env_now env + 100 <= env_now late ∧
  (handle_get late ["k"] (handle_set env ["k"; "v"; "px"; "100"] st).1).2
    = [encode_bulk_string None].
Proof.
  intros env late st. split; [reflexivity |]. split; [reflexivity |].
  assert (Hlate : env_now env + 100 <= env_now late) by (vm_compute; discriminate).
  split; [exact Hlate |].
  destruct (X1_set_then_get env late "k" "v" st) as [_ Hpx].
  destruct (Hpx "px" "100" [] 100 eq_refl eq_refl) as (_ & _ & Hgone).
  exact (proj1 (Hgone Hlate)).
Defined.

(** X2: SET with a PX argument that is not an integer answers an error and
    changes nothing: nothing is stored and nothing is propagated. *)
Theorem X2_set_rejects_bad_px (env : Env) (key value opt ms : string)
    (more : list string) (st : Redis) :
  upper opt = "PX" -> int ms = None ->
  handle_set env (key :: value :: opt :: ms :: more) st =
    (st, [encode_error "value is not an integer or out of range"]).
Proof.
  intros Ho Hms. unfold handle_set. cbn [set_expiry]. rewrite Ho, Hms. reflexivity.
Qed.

Lemma X2_set_rejects_bad_px_witness :
  let env := quiet_env 0 master_node (UpstreamFailed "refused") in
  let st := with_key "k" "old" None (empty_redis master_node) in
  upper "Px" = "PX" ∧ int "soon" = None ∧
  handle_set env ["k"; "new"; "Px"; "soon"] st =
    (st, [encode_error "value is not an integer or out of range"]).
Proof.
  intros env st. split; [reflexivity |]. split; [reflexivity |].
  exact (X2_set_rejects_bad_px env "k" "new" "Px" "soon" [] st eq_refl eq_refl).
Defined.

(** X3: GET changes nothing but the entry it reads, and that one only by
    removing it when it has expired; with any number of arguments other
    than one it answers an error and changes nothing. *)
Theorem X3_get_touches_one_key (env : Env) (args : list string) (st : Redis) :
  let get := handle_get env args st in
  replication get.1 = replication st ∧ transactions get.1 = transactions st ∧
  config get.1 = config st ∧
  (∀ key, data_store get.1 !! key = data_store st !! key ∨
     (args = [key] ∧ is_key_expired (env_now env) st key = true ∧
      data_store get.1 !! key = None)) ∧
  (List.length args ≠ 1%nat ->
     get = (st, [encode_error "wrong number of arguments for 'get' command"])).
Proof.
  intros get. subst get. unfold handle_get.
  destruct args as [| key [| key2 args]].
  - repeat split; auto.
  - destruct (data_store st !! key) as [[value expiry] |] eqn:Hk.
    + destruct (is_key_expired (env_now env) st key) eqn:He; cbn [fst snd].
      * repeat split; [| intros Hlen; cbn in Hlen; lia].
        intros k. destruct (decide (k = key)) as [-> | Hne].
        -- right. split; [reflexivity |]. split; [exact He | apply lookup_delete_eq].
        -- left. cbn [set_data_store data_store]. apply lookup_delete_ne. congruence.
      * repeat split; [auto | intros Hlen; cbn in Hlen; lia].
    + destruct (truthy _); cbn [fst snd];
        (repeat split; [auto | intros Hlen; cbn in Hlen; lia]).
  - repeat split; auto.
Qed.

Lemma X3_get_touches_one_key_witness :
  let env := quiet_env 0 master_node (UpstreamFailed "refused") in
  let st := with_key "k" "v" None (empty_redis master_node) in
  List.length ["k"; "extra"] ≠ 1%nat ∧
  handle_get env ["k"; "extra"] st =
    (st, [encode_error "wrong number of arguments for 'get' command"]).
Proof.
  intros env st. assert (Hlen : List.length ["k"; "extra"] ≠ 1%nat) by discriminate.
  split; [exact Hlen |].
  destruct (X3_get_touches_one_key env ["k"; "extra"] st) as (_ & _ & _ & _ & Harity).
  exact (Harity Hlen).
Defined.

(** X4: GET of a key that is not in memory reads the snapshot file when one
    is configured: it answers the snapshot's value when that is not empty
    and not expired, and the null bulk string otherwise, also for a
    snapshot value that is the empty string. The value is not loaded: the
    node is left as it is. *)
Theorem X4_get_falls_back_to_snapshot (env : Env) (key : string) (st : Redis) :
  data_store st !! key = None ->
  let get := handle_get env [key] st in
  get.1 = st ∧
  (∀ value expiry, rdb_configured st = true ->
     env_rdb env !! key = Some (value, expiry) -> value ≠ "" ->
     match expiry with Some e => env_now env < e | None => True end ->
     get.2 = [encode_bulk_string (Some value)]) ∧
  (rdb_configured st = false ∨ env_rdb env !! key = None ∨
   (∃ expiry, env_rdb env !! key = Some ("", expiry)) ∨
   (∃ value e, env_rdb env !! key = Some (value, Some e) ∧ e <= env_now env) ->
     get.2 = [encode_bulk_string None]).
Proof.
  intros Hk get. subst get. unfold handle_get. rewrite Hk.
  split; [destruct (truthy _); reflexivity |]. split.
  - intros value expiry Hconf Hsnap Hne Hlive. rewrite Hconf.
    unfold get_value_from_rdb. rewrite Hsnap.
    assert (Htrue : truthy (Some value) = true).
    { cbn [truthy]. apply negb_true_iff, String.eqb_neq. exact Hne. }
    destruct expiry as [e |].
    + rewrite (proj2 (Z.leb_gt _ _) Hlive), Htrue. reflexivity.
    + rewrite Htrue. reflexivity.
  - intros Hcases. destruct (truthy _) eqn:Ht; [| reflexivity]. exfalso.
    destruct (rdb_configured st); [| discriminate Ht].
    unfold get_value_from_rdb in Ht.
    destruct Hcases as [Hc | [Hnone | [[expiry Hempty] | (value & e & Hsnap & Hpast)]]].
    + discriminate Hc.
    + rewrite Hnone in Ht. discriminate Ht.
    + rewrite Hempty in Ht. destruct expiry as [e |];
        [destruct (e <=? env_now env) |]; discriminate Ht.
    + rewrite Hsnap, (proj2 (Z.leb_le _ _) Hpast) in Ht. discriminate Ht.
Qed.

Lemma X4_get_falls_back_to_snapshot_witness :
  let env := mkEnv (fun _ => 0) (<["k" := ("saved", None)]> ∅)
               (UpstreamFailed "refused") (fun _ => mkTick 0 master_node)
               no_handshake no_handshake in
  let st := mkRedis ∅ master_node (<["dir" := "."]> (<["dbfilename" := "dump.rdb"]> ∅)) ∅ in
  data_store st !! "k" = None ∧ rdb_configured st = true ∧
  (handle_get env ["k"] st).2 = [encode_bulk_string (Some "saved")] ∧
  (handle_get env ["k"] st).1 = st.
Proof.
  intros env st.
  assert (Hk : data_store st !! "k" = None) by reflexivity.
  assert (Hconf : rdb_configured st = true) by (vm_compute; reflexivity).
  destruct (X4_get_falls_back_to_snapshot env "k" st Hk) as (Hsame & Hvalue & _).
  split; [exact Hk |]. split; [exact Hconf |]. split; [| exact Hsame].
  apply (Hvalue "saved" None Hconf); [vm_compute; reflexivity | discriminate | exact I].
Defined.

(** ** Transactions *)

Lemma scan_generation_args (n : nat) (args : list string) (h h' : Z) :
  (scan_generation n args h).1 = (scan_generation n args h').1.
Proof.
  induction n as [| i IH]; [reflexivity |]. cbn [scan_generation].
  destruct (args !! i) as [a |]; [| reflexivity].
  destruct (startswith "_GEN_" a); [| exact IH].
  destruct (int (drop_chars 5 a)); reflexivity.
Qed.

Lemma scan_generation_highest (n : nat) (args : list string) (h : Z) :
  h <= (scan_generation n args h).2.
Proof.
  induction n as [| i IH]; [cbn; lia |]. cbn [scan_generation].
  destruct (args !! i) as [a |]; [| cbn; lia].
  destruct (startswith "_GEN_" a); [| exact IH].
  destruct (int (drop_chars 5 a)) as [g |]; cbn [snd]; [| lia].
  destruct (Z.ltb_spec h g); lia.
Qed.

Lemma extract_generation_routed (args : list string) (st : Redis) :
  (extract_generation args st).1 = routed_args args.
Proof.
  unfold extract_generation, routed_args.
  pose proof (scan_generation_args (List.length args) args
                (highest_seen_generation (replication st)) 0) as H.
  destruct (scan_generation _ _ (highest_seen_generation _)). exact H.
Qed.

Lemma extract_generation_highest (args : list string) (st : Redis) :
  highest_seen_generation (replication st)
    <= highest_seen_generation (replication (extract_generation args st).2).
Proof.
  unfold extract_generation.
  pose proof (scan_generation_highest (List.length args) args
                (highest_seen_generation (replication st))) as H.
  destruct (scan_generation _ _ _). exact H.
Qed.

(** Where EXEC and DISCARD lead, whatever the role. *)
Lemma execute_exec (fuel : nat) (env : Env) (command : string) (args : list string)
    (writer : Writer) (st : Redis) :
  upper command = "EXEC" ->
  execute_command fuel env command args writer st =
    Some (handle_exec env writer (extract_generation args st).2).
Proof.
  intros Hc. unfold execute_command. rewrite Hc.
  destruct (extract_generation args st) as [args' st1]. simpl.
  rewrite andb_false_r. reflexivity.
Qed.

Lemma execute_discard (fuel : nat) (env : Env) (command : string) (args : list string)
    (writer : Writer) (st : Redis) :
  upper command = "DISCARD" ->
  execute_command fuel env command args writer st =
    Some (handle_discard writer (extract_generation args st).2).
Proof.
  intros Hc. unfold execute_command. rewrite Hc.
  destruct (extract_generation args st) as [args' st1]. simpl.
  rewrite andb_false_r. reflexivity.
Qed.

(** A command that is buffered: what the dispatcher does with it. *)
Lemma execute_buffered (fuel : nat) (env : Env) (command : string) (args : list string)
    (writer : Writer) (st : Redis) (queued : list (string * list string)) :
  buffered st (command, args) -> transactions st !! writer = Some queued ->
  execute_command fuel env command args writer st =
    Some (set_transactions
            (<[writer := queued ++ [queued_as (command, args)]]> (transactions st))
            (extract_generation args st).2,
          [ClientWrite (encode_simple_string "QUEUED")]).
Proof.
  intros [Hctl Hslave] Hq. cbn [fst snd] in Hctl, Hslave.
  destruct (extract_generation_fields args st) as (_ & Ht & _ & Hr & _).
  pose proof (extract_generation_routed args st) as Hargs.
  unfold execute_command, queued_as. cbn [fst snd].
  destruct (extract_generation args st) as [args' st1]. cbn [fst snd] in *.
  subst args'.
  assert (Hfwd : String.eqb (role (replication st1)) "slave"
                 && is_write_command (upper command) = false).
  { rewrite Hr. destruct (String.eqb_spec (role (replication st)) "slave") as [Hs |];
      [rewrite (Hslave Hs) |]; reflexivity. }
  rewrite Hfwd. unfold is_control in Hctl.
  apply orb_false_iff in Hctl as [Hctl Hdiscard].
  apply orb_false_iff in Hctl as [Hmulti Hexec].
  rewrite Hmulti, Hexec, Hdiscard, Ht, Hq. reflexivity.
Qed.

(** X5: DISCARD closes the connection's transaction and answers OK; with no
    transaction open it answers an error. Either way the keyspace, the
    propagation log and the other connections' transactions are as before,
    and no buffered command has run. *)
Theorem X5_discard (fuel : nat) (env : Env) (command : string) (args : list string)
    (writer : Writer) (st : Redis) :
  upper command = "DISCARD" ->
  ∃ st' out,
    execute_command fuel env command args writer st = Some (st', out) ∧
    data_store st' = data_store st ∧
    propagated (replication st') = propagated (replication st) ∧
    transactions st' !! writer = None ∧
    (∀ other, other ≠ writer -> transactions st' !! other = transactions st !! other) ∧
    (is_Some (transactions st !! writer) ->
       out = [ClientWrite (encode_simple_string "OK")]) ∧
    (transactions st !! writer = None ->
       out = [ClientWrite (encode_error "ERR DISCARD without MULTI")] ∧
       transactions st' = transactions st).
Proof.
  intros Hc. rewrite (execute_discard _ _ _ _ _ _ Hc).
  destruct (extract_generation_fields args st)
    as (Hd & Ht & _ & _ & _ & _ & _ & Hp & _).
  unfold handle_discard. rewrite Ht.
  destruct (transactions st !! writer) as [queued |] eqn:Hq.
  - eexists _, _. split; [reflexivity |]. cbn [set_transactions data_store
      replication transactions].
    split; [exact Hd |]. split; [exact Hp |]. split; [apply lookup_delete_eq |].
    split; [intros other Hne; rewrite ?Ht; apply lookup_delete_ne; congruence |].
    split; [reflexivity | discriminate].
  - eexists _, _. split; [reflexivity |]. cbn [reply fst].
    split; [exact Hd |]. split; [exact Hp |]. split; [rewrite ?Ht; exact Hq |].
    split; [intros other _; rewrite ?Ht; reflexivity |].
    split; [intros [x Hx]; discriminate Hx | intros _; split; [reflexivity | exact Ht]].
Qed.

Lemma X5_discard_witness :
  let st := with_queue 7%nat [("SET", ["a"; "1"])] (empty_redis master_node) in
  let env := quiet_env 0 master_node (UpstreamFailed "refused") in
  upper "discard" = "DISCARD" ∧
  ∃ st' out,
    execute_command 0 env "discard" [] 7%nat st = Some (st', out) ∧
    data_store st' = data_store st ∧ transactions st' !! 7%nat = None.
Proof.
  intros st env. split; [reflexivity |].
  destruct (X5_discard 0 env "discard" [] 7%nat st eq_refl)
    as (st' & out & Hrun & Hd & _ & Hclosed & _).
  exists st', out. split; [exact Hrun |]. split; [exact Hd | exact Hclosed].
Defined.

(** X6: EXEC on a connection with no transaction open answers an error and
    leaves the connection without one; EXEC on a transaction with nothing
    buffered answers the empty array and closes it. In both cases the
    keyspace and the propagation log are as before. *)
Theorem X6_exec_without_commands (fuel : nat) (env : Env) (command : string)
    (args : list string) (writer : Writer) (st : Redis) :
  upper command = "EXEC" ->
  transactions st !! writer = None ∨ transactions st !! writer = Some [] ->
  ∃ st' out,
    execute_command fuel env command args writer st = Some (st', out) ∧
    data_store st' = data_store st ∧
    propagated (replication st') = propagated (replication st) ∧
    transactions st' !! writer = None ∧
    (transactions st !! writer = None ->
       out = [ClientWrite (encode_error "ERR EXEC without MULTI")]) ∧
    (transactions st !! writer = Some [] -> out = [ClientWrite ("*0" +:+ CRLF)]).
Proof.
  intros Hc Hq. rewrite (execute_exec _ _ _ _ _ _ Hc).
  destruct (extract_generation_fields args st)
    as (Hd & Ht & _ & _ & _ & _ & _ & Hp & _).
  unfold handle_exec. rewrite Ht.
  destruct Hq as [Hq | Hq]; rewrite Hq; eexists _, _; (split; [reflexivity |]).
  - cbn [reply fst]. split; [exact Hd |]. split; [exact Hp |].
    split; [rewrite Ht; exact Hq |]. split; [reflexivity | discriminate].
  - cbn [set_transactions data_store replication transactions].
    split; [exact Hd |]. split; [exact Hp |]. split; [apply lookup_delete_eq |].
    split; [discriminate | reflexivity].
Qed.

Lemma X6_exec_without_commands_witness :
  let st := empty_redis master_node in
  let env := quiet_env 0 master_node (UpstreamFailed "refused") in
  upper "exec" = "EXEC" ∧ transactions st !! 7%nat = None ∧
  ∃ st', execute_command 0 env "exec" [] 7%nat st =
           Some (st', [ClientWrite (encode_error "ERR EXEC without MULTI")]).
Proof.
  intros st env. split; [reflexivity |]. split; [reflexivity |].
  destruct (X6_exec_without_commands 0 env "exec" [] 7%nat st eq_refl (or_introl eq_refl))
    as (st' & out & Hrun & _ & _ & _ & Hnone & _).
  exists st'. rewrite Hrun, (Hnone eq_refl). reflexivity.
Defined.

Lemma dispatch_all_app (fuel : nat) (envs : nat -> Env) (writer : Writer)
    (first second : list (string * list string)) :
  ∀ k st,
    dispatch_all fuel envs k (first ++ second) writer st =
      '(st1, out1) ← dispatch_all fuel envs k first writer st;
      '(st2, out2) ← dispatch_all fuel envs (k + List.length first) second writer st1;
      Some (st2, out1 ++ out2).
Proof.
  induction first as [| [command args] first IH]; intros k st.
  - cbn [app dispatch_all mbind option_bind List.length]. rewrite Nat.add_0_r.
    destruct (dispatch_all fuel envs k second writer st) as [[st2 out2] |];
      reflexivity.
  - cbn [app dispatch_all List.length].
    destruct (execute_command fuel (envs k) command args writer st)
      as [[st1 out1] |]; [| reflexivity].
    cbn [mbind option_bind]. rewrite IH.
    replace (k + S (List.length first))%nat with (S k + List.length first)%nat by lia.
    destruct (dispatch_all fuel envs (S k) first writer st1) as [[st2 out2] |];
      [| reflexivity].
    cbn [mbind option_bind].
    destruct (dispatch_all fuel envs _ second writer st2) as [[st3 out3] |];
      [| reflexivity].
    cbn [mbind option_bind]. rewrite app_assoc. reflexivity.
Qed.

Lemma dispatch_all_cons (fuel : nat) (envs : nat -> Env) (k : nat) (command : string)
    (args : list string) (rest : list (string * list string)) (writer : Writer)
    (st : Redis) :
  dispatch_all fuel envs k ((command, args) :: rest) writer st =
    '(st1, out1) ← execute_command fuel (envs k) command args writer st;
    '(st', out) ← dispatch_all fuel envs (S k) rest writer st1;
    Some (st', out1 ++ out).
Proof. reflexivity. Qed.

(** Commands that reach a connection in a transaction are appended to its
    buffer, one QUEUED each, and nothing else moves. *)
Lemma buffered_in_order (fuel : nat) (envs : nat -> Env) (writer : Writer)
    (commands : list (string * list string)) :
  ∀ k st queued,
    transactions st !! writer = Some queued -> Forall (buffered st) commands ->
    ∃ st',
      dispatch_all fuel envs k commands writer st =
        Some (st', replicate (List.length commands)
                     (ClientWrite (encode_simple_string "QUEUED"))) ∧
      transactions st' !! writer = Some (queued ++ map queued_as commands) ∧
      (∀ other, other ≠ writer -> transactions st' !! other = transactions st !! other) ∧
      data_store st' = data_store st ∧
      propagated (replication st') = propagated (replication st) ∧
      role (replication st') = role (replication st).
Proof.
  induction commands as [| [command args] rest IH]; intros k st queued Hq Hall.
  - exists st. cbn [dispatch_all List.length replicate map].
    rewrite app_nil_r. repeat split; auto.
  - apply Forall_cons in Hall as [Hhead Hrest].
    destruct (extract_generation_fields args st)
      as (Hd & Ht & _ & Hr & _ & _ & _ & Hp & _).
    cbn [dispatch_all]. rewrite (execute_buffered _ _ _ _ _ _ _ Hhead Hq).
    cbn [mbind option_bind].
    set (st1 := set_transactions _ (extract_generation args st).2).
    assert (Hq1 : transactions st1 !! writer = Some (queued ++ [queued_as (command, args)]))
      by apply lookup_insert_eq.
    assert (Hrole : role (replication st1) = role (replication st)) by exact Hr.
    assert (Hrest1 : Forall (buffered st1) rest).
    { eapply Forall_impl; [exact Hrest |]. intros c [Hc Hs]. split; [exact Hc |].
      rewrite Hrole. exact Hs. }
    destruct (IH (S k) st1 _ Hq1 Hrest1) as (st' & Hrun & Hq' & Hother & Hd' & Hp' & Hr').
    exists st'. rewrite Hrun. cbn [mbind option_bind].
    split; [reflexivity |].
    split; [rewrite Hq', <- app_assoc; reflexivity |].
    split.
    { intros other Hne. rewrite (Hother other Hne). unfold st1.
      cbn [set_transactions transactions].
      rewrite lookup_insert_ne by congruence. reflexivity. }
    split; [rewrite Hd'; exact Hd |].
    split; [rewrite Hp'; exact Hp | rewrite Hr'; exact Hr].
Qed.

(** X7: while a connection is in a transaction, every command other than
    MULTI, EXEC and DISCARD (and other than a write reaching a slave) is
    answered QUEUED and appended to the buffer, with its name in upper case
    and its generation marker removed, in the order of arrival; none is
    executed: the keyspace and the propagation log do not move. *)
Theorem X7_buffered_in_order (fuel : nat) (envs : nat -> Env) (k : nat)
    (commands queued : list (string * list string)) (writer : Writer) (st : Redis) :
  transactions st !! writer = Some queued -> Forall (buffered st) commands ->
  ∃ st',
    dispatch_all fuel envs k commands writer st =
      Some (st', replicate (List.length commands)
                   (ClientWrite (encode_simple_string "QUEUED"))) ∧
    transactions st' !! writer = Some (queued ++ map queued_as commands) ∧
    data_store st' = data_store st ∧
    propagated (replication st') = propagated (replication st).
Proof.
  intros Hq Hall.
  destruct (buffered_in_order fuel envs writer commands k st queued Hq Hall)
    as (st' & Hrun & Hq' & _ & Hd & Hp & _).
  exists st'. auto.
Qed.

Lemma X7_buffered_in_order_witness :
  let st := with_queue 7%nat [] (empty_redis master_node) in
  let envs := fun _ : nat => quiet_env 0 master_node (UpstreamFailed "refused") in
  transactions st !! 7%nat = Some [] ∧
  Forall (buffered st) [("set", ["a"; "1"; "_GEN_4"]); ("keys", ["*"])] ∧
  ∃ st',
    dispatch_all 0 envs 0 [("set", ["a"; "1"; "_GEN_4"]); ("keys", ["*"])] 7%nat st =
      Some (st', replicate 2 (ClientWrite (encode_simple_string "QUEUED"))) ∧
    transactions st' !! 7%nat = Some [("SET", ["a"; "1"]); ("KEYS", ["*"])].
Proof.
  intros st envs.
  assert (Hq : transactions st !! 7%nat = Some []) by reflexivity.
  assert (Hall : Forall (buffered st) [("set", ["a"; "1"; "_GEN_4"]); ("keys", ["*"])]).
  { repeat constructor; intros Hslave; vm_compute in Hslave; discriminate Hslave. }
  split; [exact Hq |]. split; [exact Hall |].
  destruct (X7_buffered_in_order 0 envs 0 _ [] 7%nat st Hq Hall)
    as (st' & Hrun & Hq' & _).
  exists st'. split; [exact Hrun | exact Hq'].
Defined.

Lemma buffered_keeps_config (fuel : nat) (envs : nat -> Env) (writer : Writer)
    (commands : list (string * list string)) :
  ∀ k st queued st' out,
    transactions st !! writer = Some queued -> Forall (buffered st) commands ->
    dispatch_all fuel envs k commands writer st = Some (st', out) ->
    config st' = config st.
Proof.
  induction commands as [| [command args] rest IH]; intros k st queued st' out Hq Hall.
  - intros [= <- _]. reflexivity.
  - apply Forall_cons in Hall as [Hhead Hrest].
    destruct (extract_generation_fields args st) as (_ & _ & Hc & Hr & _).
    cbn [dispatch_all]. rewrite (execute_buffered _ _ _ _ _ _ _ Hhead Hq).
    cbn [mbind option_bind].
    set (st1 := set_transactions _ (extract_generation args st).2).
    assert (Hq1 : transactions st1 !! writer = Some (queued ++ [queued_as (command, args)]))
      by apply lookup_insert_eq.
    assert (Hrest1 : Forall (buffered st1) rest).
    { eapply Forall_impl; [exact Hrest |]. intros c [Hctl Hs]. split; [exact Hctl |].
      intros Hslave. apply Hs. rewrite <- Hr. exact Hslave. }
    destruct (dispatch_all fuel envs (S k) rest writer st1) as [[st2 out2] |] eqn:Hrun;
      [| discriminate].
    intros [= <- _]. rewrite (IH _ _ _ _ _ Hq1 Hrest1 Hrun). exact Hc.
Qed.

Lemma is_key_expired_akin (now : Z) (st st' : Redis) (key : string) :
  data_store st = data_store st' -> is_key_expired now st key = is_key_expired now st' key.
Proof. intros H. unfold is_key_expired. rewrite H. reflexivity. Qed.

(** A replayable command replayed by [EXEC] answers what the dispatcher
    answers to it outside a transaction, on a node that is not a slave and
    has no snapshot file, and both leave the same keyspace. *)
Lemma replay_like_direct (fuel : nat) (env : Env) (writer : Writer)
    (c : string * list string) (st_t st_d : Redis) :
  replayable (queued_as c) -> akin st_t st_d ->
  role (replication st_d) ≠ "slave" -> rdb_configured st_d = false ->
  transactions st_d !! writer = None ->
  ∃ st_t' st_d' reply,
    execute_transaction_command (env_now env) (queued_as c).1 (queued_as c).2 st_t
      = (st_t', reply) ∧
    execute_command fuel env c.1 c.2 writer st_d = Some (st_d', [ClientWrite reply]) ∧
    akin st_t' st_d' ∧ transactions st_d' !! writer = None ∧
    role (replication st_d') = role (replication st_d) ∧ config st_d' = config st_d.
Proof.
  destruct c as [name args]. unfold queued_as. cbn [fst snd].
  intros Hc (Hd & Hcfg & Hrole) Hmaster Hrdb Hq.
  unfold replayable in Hc. cbn [fst snd] in Hc.
  pose proof (extract_generation_routed args st_d) as Hargs.
  destruct (extract_generation_fields args st_d) as (Hd1 & Ht1 & Hc1 & Hr1 & _).
  unfold execute_command.
  destruct (extract_generation args st_d) as [a st1]. cbn [fst snd] in *. subst a.
  set (a := routed_args args) in *.
  assert (Hslave : String.eqb (role (replication st1)) "slave" = false).
  { apply String.eqb_neq. rewrite Hr1. exact Hmaster. }
  rewrite Hslave. cbn [andb]. rewrite Ht1, Hq.
  assert (Hakin1 : akin st_t st1).
  { split; [rewrite Hd1; exact Hd |]. split; [rewrite Hc1; exact Hcfg |].
    rewrite Hr1. exact Hrole. }
  assert (Hrdb1 : rdb_configured st1 = false).
  { unfold rdb_configured in *. rewrite Hc1. exact Hrdb. }
  assert (Hq1 : transactions st1 !! writer = None) by (rewrite Ht1; exact Hq).
  clear Hd Hcfg Hrole. destruct Hakin1 as (Hd & Hcfg & Hrole).
  destruct Hc as [Hn | [[Hn Ha] | [[Hn Ha] | [Hn | [Hn Ha]]]]]; rewrite Hn.
  - (* PING *)
    exists st_t, st1, ("+PONG" +:+ CRLF). cbn. repeat split; auto.
  - (* ECHO *)
    exists st_t, st1, (encode_bulk_string (head a)).
    unfold execute_transaction_command. cbn.
    rewrite (bool_decide_eq_false_2 _ Ha). cbn. repeat split; auto.
  - (* SET *)
    unfold execute_transaction_command, handle_set. cbn.
    replace (2 <=? Z.of_nat (List.length a)) with true by (symmetry; apply Z.leb_le; lia).
    destruct a as [| key [| value rest]]; try (cbn [List.length] in Ha; lia).
    destruct (set_expiry (env_now env) (key :: value :: rest)) as [expiry | []].
    + eexists _, _, _. split; [reflexivity |]. split; [reflexivity |].
      cbn. rewrite Hd. repeat split; auto.
    + eexists _, _, _. split; [reflexivity |]. split; [reflexivity |].
      cbn. repeat split; auto.
  - (* GET *)
    unfold execute_transaction_command, handle_get. cbn.
    destruct a as [| key [| key2 rest]].
    + eexists _, _, _. split; [reflexivity |]. split; [reflexivity |]. repeat split; auto.
    + rewrite (is_key_expired_akin _ st_t st1 key Hd), Hd, Hrdb1.
      destruct (data_store st1 !! key) as [[value expiry] |].
      * destruct (is_key_expired (env_now env) st1 key).
        -- eexists _, _, _. split; [reflexivity |]. split; [reflexivity |].
           cbn. repeat split; auto.
        -- eexists _, _, _. split; [reflexivity |]. split; [reflexivity |].
           repeat split; auto.
      * eexists _, _, _. split; [reflexivity |]. split; [reflexivity |].
        repeat split; auto.
    + eexists _, _, _. split; [reflexivity |]. split; [reflexivity |]. repeat split; auto.
  - (* INCR *)
    unfold execute_transaction_command, handle_incr. cbn.
    destruct a as [| key [| key2 rest]]; try (cbn [List.length] in Ha; lia).
    rewrite Hslave. rewrite (is_key_expired_akin _ st_t st1 key Hd), Hd.
    destruct (data_store st1 !! key) as [[value expiry] |].
    + destruct (is_key_expired (env_now env) st1 key); cbn [negb].
      * eexists _, _, _. split; [reflexivity |]. split; [reflexivity |].
        cbn. repeat split; auto.
      * destruct (int value) as [n |].
        -- destruct (str (n + 1)) as [text |].
           ++ eexists _, _, _. split; [reflexivity |]. split; [reflexivity |].
              cbn. repeat split; auto.
           ++ eexists _, _, _. split; [reflexivity |]. split; [reflexivity |].
              repeat split; auto.
        -- eexists _, _, _. split; [reflexivity |]. split; [reflexivity |].
           repeat split; auto.
    + eexists _, _, _. split; [reflexivity |]. split; [reflexivity |].
      cbn. repeat split; auto.
Qed.

(** Replayable commands replayed in a row answer what they are answered
    when dispatched in a row outside a transaction, and leave the same
    keyspace. *)
Lemma replays_like_direct (fuel : nat) (clock : nat -> Z) (direct : nat -> Env)
    (writer : Writer) (commands : list (string * list string)) :
  Forall (fun c => replayable (queued_as c)) commands ->
  (∀ i, env_now (direct i) = clock i) ->
  ∀ i responses st_t st_d,
    akin st_t st_d -> role (replication st_d) ≠ "slave" ->
    rdb_configured st_d = false -> transactions st_d !! writer = None ->
    ∃ st_t' st_d' replies,
      run_queued clock i (map queued_as commands) responses st_t
        = (st_t', responses ++ replies) ∧
      dispatch_all fuel direct i commands writer st_d
        = Some (st_d', ClientWrite <$> replies) ∧
      akin st_t' st_d' ∧ List.length replies = List.length commands.
Proof.
  intros Hall Hclock. induction Hall as [| c commands Hc _ IH];
    intros i responses st_t st_d Hakin Hmaster Hrdb Hq.
  - exists st_t, st_d, []. cbn [map run_queued dispatch_all fmap list_fmap].
    rewrite app_nil_r.
    split; [reflexivity |]. split; [reflexivity |]. split; [exact Hakin | reflexivity].
  - destruct (replay_like_direct fuel (direct i) writer c st_t st_d Hc Hakin Hmaster
                Hrdb Hq) as (st_t1 & st_d1 & reply & Hreplay & Hdirect & Hakin1 & Hq1
                             & Hrole1 & Hcfg1).
    rewrite Hclock in Hreplay.
    assert (Hmaster1 : role (replication st_d1) ≠ "slave") by (rewrite Hrole1; exact Hmaster).
    assert (Hrdb1 : rdb_configured st_d1 = false).
    { unfold rdb_configured in *. rewrite Hcfg1. exact Hrdb. }
    destruct (IH (S i) (responses ++ [reply]) st_t1 st_d1 Hakin1 Hmaster1 Hrdb1 Hq1)
      as (st_t' & st_d' & replies & Hrun & Hrest & Hakin' & Hlen).
    exists st_t', st_d', (reply :: replies).
    split; [| split; [| split; [exact Hakin' | cbn [List.length]; lia]]].
    + cbn [map run_queued].
      destruct (queued_as c) as [command args]. cbn [fst snd] in Hreplay.
      rewrite Hreplay, Hrun, <- app_assoc. reflexivity.
    + destruct c as [name args]. cbn [fst snd] in Hdirect.
      rewrite dispatch_all_cons, Hdirect. cbn [mbind option_bind].
      rewrite Hrest. reflexivity.
Qed.

(** X8: a whole transaction. MULTI, then commands that are buffered, then
    DISCARD: the client reads OK, one QUEUED per command and OK, and the
    keyspace and the propagation log are as they were before MULTI. With
    EXEC in place of DISCARD, on a node that is not a slave and has no
    snapshot file, and with commands among PING, ECHO with an argument, SET
    with a key and a value, GET, and INCR of one key: the last reply is the
    array of the replies that these commands are answered when the
    connection sends them, in the same order and at the same readings of
    the clock, without MULTI and EXEC, and the keyspace is left as they
    leave it. Either way the connection is out of the transaction. *)
Theorem X8_whole_transaction (fuel : nat) (envs direct : nat -> Env)
    (commands : list (string * list string)) (a0 a1 : list string)
    (writer : Writer) (st : Redis) :
  Forall (buffered st) commands ->
  let queued_replies :=
    replicate (List.length commands) (ClientWrite (encode_simple_string "QUEUED")) in
  (∃ st',
     dispatch_all fuel envs 0 (("MULTI", a0) :: commands ++ [("DISCARD", a1)]) writer st
       = Some (st', [ClientWrite (encode_simple_string "OK")] ++ queued_replies
                      ++ [ClientWrite (encode_simple_string "OK")]) ∧
     data_store st' = data_store st ∧
     propagated (replication st') = propagated (replication st) ∧
     transactions st' !! writer = None) ∧
  (commands ≠ [] -> Forall (fun c => replayable (queued_as c)) commands ->
   role (replication st) ≠ "slave" -> rdb_configured st = false ->
   transactions st !! writer = None ->
   (∀ i, env_now (direct i) = env_clock (envs (S (List.length commands))) i) ->
   ∃ st' st_d replies,
     dispatch_all fuel direct 0 commands writer st = Some (st_d, ClientWrite <$> replies) ∧
     dispatch_all fuel envs 0 (("MULTI", a0) :: commands ++ [("EXEC", a1)]) writer st
       = Some (st', [ClientWrite (encode_simple_string "OK")] ++ queued_replies
                      ++ [ClientWrite ("*" +:+ decimal (Z.of_nat (List.length commands))
                                         +:+ CRLF +:+ String.concat "" replies)]) ∧
     data_store st' = data_store st_d ∧
     transactions st' !! writer = None).
Proof.
  intros Hall queued_replies.
  destruct (extract_generation_fields a0 st)
    as (Hd0 & Ht0 & Hc0 & Hr0 & _ & _ & _ & Hp0 & _).
  set (st0 := (handle_multi writer (extract_generation a0 st).2).1).
  assert (Hq0 : transactions st0 !! writer = Some []) by apply lookup_insert_eq.
  assert (Hall0 : Forall (buffered st0) commands).
  { eapply Forall_impl; [exact Hall |]. intros c [Hc Hs]. split; [exact Hc |].
    intros Hslave. apply Hs. rewrite <- Hr0. exact Hslave. }
  destruct (buffered_in_order fuel envs writer commands 1 st0 [] Hq0 Hall0)
    as (stq & Hrun & Hq & _ & Hd & Hp & Hr).
  pose proof (buffered_keeps_config fuel envs writer commands 1 st0 [] stq _ Hq0 Hall0 Hrun)
    as Hc.
  cbn [app] in Hq.
  assert (Hstart : ∀ last,
    dispatch_all fuel envs 0 (("MULTI", a0) :: commands ++ [last]) writer st =
      '(st2, out2) ← dispatch_all fuel envs (S (List.length commands)) [last] writer stq;
      Some (st2, [ClientWrite (encode_simple_string "OK")] ++ queued_replies ++ out2)).
  { intros last. rewrite dispatch_all_cons.
    rewrite (execute_multi fuel (envs 0%nat) "MULTI" a0 writer st eq_refl).
    unfold handle_multi at 1. cbn [mbind option_bind].
    rewrite dispatch_all_app.
    change (set_transactions _ (extract_generation a0 st).2) with st0.
    rewrite Hrun. cbn [mbind option_bind].
    change (1 + List.length commands)%nat with (S (List.length commands)).
    destruct (dispatch_all fuel envs (S (List.length commands)) [last] writer stq)
      as [[st2 out2] |]; reflexivity. }
  destruct (extract_generation_fields a1 stq)
    as (Hd1 & Ht1 & Hc1 & Hr1 & _ & _ & _ & Hp1 & _).
  split.
  - rewrite Hstart, dispatch_all_cons.
    rewrite (execute_discard fuel _ "DISCARD" a1 writer stq eq_refl).
    unfold handle_discard. rewrite Ht1, Hq. cbn [dispatch_all mbind option_bind].
    eexists. split; [rewrite app_nil_r; reflexivity |].
    cbn [set_transactions data_store replication transactions].
    split; [rewrite Hd1, Hd; exact Hd0 |].
    split; [rewrite Hp1, Hp; exact Hp0 | apply lookup_delete_eq].
  - intros Hne Hreplay Hmaster Hrdb Hnone Hclock.
    set (sx := (extract_generation a1 stq).2) in *.
    assert (Hakin : akin sx st).
    { split; [rewrite Hd1, Hd; exact Hd0 |].
      split; [rewrite Hc1, Hc; exact Hc0 | rewrite Hr1, Hr; exact Hr0]. }
    destruct (replays_like_direct fuel (env_clock (envs (S (List.length commands))))
                direct writer commands Hreplay Hclock 0%nat [] sx st Hakin Hmaster Hrdb
                Hnone) as (st_t & st_d & replies & Hqueued & Hdirect & (Hdt & _) & Hlen).
    exists (set_transactions (delete writer (transactions st_t)) st_t), st_d, replies.
    split; [exact Hdirect |].
    rewrite Hstart, dispatch_all_cons.
    rewrite (execute_exec fuel _ "EXEC" a1 writer stq eq_refl). fold sx.
    unfold handle_exec. rewrite Ht1, Hq.
    destruct commands as [| c rest]; [congruence |].
    change (map queued_as (c :: rest)) with (queued_as c :: map queued_as rest) in *.
    rewrite Hqueued. cbn [app dispatch_all mbind option_bind].
    rewrite build_array_frame, Hlen.
    split; [reflexivity |].
    split; [exact Hdt | apply lookup_delete_eq].
Qed.

Lemma X8_whole_transaction_witness :
  let st := empty_redis master_node in
  let envs := fun _ : nat => quiet_env 0 master_node (UpstreamFailed "refused") in
  let commands := [("set", ["a"; "1"]); ("incr", ["a"]); ("get", ["a"])] in
  Forall (buffered st) commands ∧ commands ≠ [] ∧
  Forall (fun c => replayable (queued_as c)) commands ∧
  role (replication st) ≠ "slave" ∧ rdb_configured st = false ∧
  transactions st !! 7%nat = None ∧
  (∀ i, env_now (envs i) = env_clock (envs (S (List.length commands))) i) ∧
  ∃ st',
    dispatch_all 0 envs 0 (("MULTI", []) :: commands ++ [("EXEC", [])]) 7%nat st
    = Some (st', [ClientWrite (encode_simple_string "OK")]
                   ++ replicate 3 (ClientWrite (encode_simple_string "QUEUED"))
                   ++ [ClientWrite ("*3" +:+ CRLF +:+ "+OK" +:+ CRLF +:+ ":2" +:+ CRLF
                                      +:+ "$1" +:+ CRLF +:+ "2" +:+ CRLF)]) ∧
    data_store st' !! "a" = Some ("2", None).
Proof.
  intros st envs commands.
  assert (Hall : Forall (buffered st) commands).
  { repeat constructor; intros Hslave; vm_compute in Hslave; discriminate Hslave. }
  assert (Hne : commands ≠ []) by discriminate.
  assert (Hreplay : Forall (fun c => replayable (queued_as c)) commands).
  { constructor; [| constructor; [| constructor; [| constructor]]];
      unfold replayable; cbn.
    - right. right. left. split; [reflexivity | lia].
    - do 4 right. split; reflexivity.
    - do 3 right. left. reflexivity. }
  assert (Hmaster : role (replication st) ≠ "slave") by discriminate.
  assert (Hclock : ∀ i, env_now (envs i) = env_clock (envs (S (List.length commands))) i)
    by reflexivity.
  split; [exact Hall |]. split; [exact Hne |]. split; [exact Hreplay |].
  split; [exact Hmaster |]. split; [reflexivity |]. split; [reflexivity |].
  split; [exact Hclock |].
  destruct (X8_whole_transaction 0 envs envs commands [] [] 7%nat st Hall) as [_ Hexec].
  destruct (Hexec Hne Hreplay Hmaster eq_refl eq_refl Hclock)
    as (st' & st_d & replies & Hdirect & Hrun & Hd & _).
  assert (Hvalue : (fun p => (p.2, data_store p.1 !! "a"))
                     <$> dispatch_all 0 envs 0 commands 7%nat st
                   = Some (ClientWrite <$> ["+OK" +:+ CRLF; ":2" +:+ CRLF;
                                            "$1" +:+ CRLF +:+ "2" +:+ CRLF],
                           Some ("2", None))) by (vm_compute; reflexivity).
  rewrite Hdirect in Hvalue. cbn [fmap option_fmap option_map fst snd] in Hvalue.
  injection Hvalue as Hreplies Hstored.
  destruct replies as [| r1 [| r2 [| r3 [| r4 more]]]]; try discriminate Hreplies.
  injection Hreplies as -> -> ->.
  exists st'. split; [exact Hrun |]. rewrite Hd. exact Hstored.
Defined.

(** X9: a write command that reaches a slave while its connection is in a
    transaction is forwarded, not buffered: the node is left as it is (but
    for the generation it may have noted), the connection's buffer included,
    so a later EXEC does not run the command. *)
Theorem X9_slave_write_not_buffered (fuel : nat) (env : Env) (command : string)
    (args : list string) (writer : Writer) (st : Redis) :
  role (replication st) = "slave" -> upper command ∈ write_commands ->
  ∃ out,
    execute_command fuel env command args writer st
      = Some ((extract_generation args st).2, out) ∧
    transactions (extract_generation args st).2 = transactions st.
Proof.
  intros Hrole Hw. apply is_write_command_true in Hw.
  destruct (extract_generation_fields args st) as (_ & Ht & _ & Hr & _).
  unfold execute_command.
  destruct (extract_generation args st) as [args' st1]. cbn [fst snd] in *.
  rewrite Hr, Hrole, Hw. cbn [String.eqb andb].
  unfold forward_write_to_master, reply.
  destruct (negb (master_configured (replication st1)));
    [| destruct (env_upstream env) as [e | data]];
    (eexists; split; [reflexivity | exact Ht]).
Qed.

Lemma X9_slave_write_not_buffered_witness :
  let st := with_queue 7%nat [("GET", ["k"])] (empty_redis slave_node) in
  let env := quiet_env 0 slave_node (UpstreamReplied (encode_simple_string "OK")) in
  role (replication st) = "slave" ∧ upper "set" ∈ write_commands ∧
  (fun p => transactions p.1 !! 7%nat)
    <$> execute_command 0 env "set" ["k"; "v"] 7%nat st = Some (Some [("GET", ["k"])]).
Proof.
  intros st env.
  assert (Hrole : role (replication st) = "slave") by reflexivity.
  assert (Hw : upper "set" ∈ write_commands)
    by (apply is_write_command_true; reflexivity).
  split; [exact Hrole |]. split; [exact Hw |].
  destruct (X9_slave_write_not_buffered 0 env "set" ["k"; "v"] 7%nat st Hrole Hw)
    as (out & Hrun & Hsame).
  rewrite Hrun. cbn [fmap option_fmap option_map fst]. rewrite Hsame. reflexivity.
Defined.

(** ** What EXEC touches *)

(** A replayed command leaves every key but the one it names as it is. *)
Lemma exec_command_frame (now : Z) (command : string) (args : list string)
    (st : Redis) (key : string) :
  head args ≠ Some key ->
  data_store (execute_transaction_command now command args st).1 !! key
    = data_store st !! key.
Proof.
  intros Hhead. unfold execute_transaction_command.
  destruct (String.eqb command "PING"); [reflexivity |].
  destruct (String.eqb command "ECHO" && _); [reflexivity |].
  destruct (String.eqb command "SET" && _).
  { destruct args as [| k [| value rest]]; try reflexivity.
    destruct (set_expiry now _) as [expiry | []]; [| reflexivity].
    cbn [fst propagate save_rdb set_replication set_data_store data_store].
    apply lookup_insert_ne. cbn in Hhead. congruence. }
  destruct (String.eqb command "GET").
  { destruct args as [| k [| k2 rest]]; try reflexivity.
    destruct (data_store st !! k) as [[value expiry] |]; [| reflexivity].
    destruct (is_key_expired now st k); [| reflexivity].
    cbn [fst set_data_store data_store].
    apply lookup_delete_ne. cbn in Hhead. congruence. }
  destruct (String.eqb command "INCR"); [| reflexivity].
  destruct args as [| k [| k2 rest]]; try reflexivity.
  assert (Hne : k ≠ key) by (cbn in Hhead; congruence).
  destruct (data_store st !! k) as [[value expiry] |].
  - destruct (negb (is_key_expired now st k)).
    + destruct (int value) as [n |]; [| reflexivity].
      destruct (str (n + 1)); [| reflexivity].
      cbn [fst propagate save_rdb set_replication set_data_store data_store].
      apply lookup_insert_ne. exact Hne.
    + cbn [fst propagate save_rdb set_replication set_data_store data_store].
      apply lookup_insert_ne. exact Hne.
  - cbn [fst propagate save_rdb set_replication set_data_store data_store].
    apply lookup_insert_ne. exact Hne.
Qed.

(** A replayed command that is not SET, GET or INCR changes nothing. *)
Lemma exec_command_inert (now : Z) (command : string) (args : list string)
    (st : Redis) :
  command ≠ "SET" -> command ≠ "GET" -> command ≠ "INCR" ->
  (execute_transaction_command now command args st).1 = st.
Proof.
  intros Hs Hg Hi. unfold execute_transaction_command.
  apply String.eqb_neq in Hs, Hg, Hi. rewrite Hs, Hg, Hi. cbn [andb].
  destruct (String.eqb command "PING"); [reflexivity |].
  destruct (String.eqb command "ECHO" && _); reflexivity.
Qed.

Lemma exec_command_registry (now : Z) (command : string) (args : list string)
    (st : Redis) :
  transactions (execute_transaction_command now command args st).1 = transactions st ∧
  config (execute_transaction_command now command args st).1 = config st.
Proof.
  unfold execute_transaction_command.
  destruct (String.eqb command "PING"); [auto |].
  destruct (String.eqb command "ECHO" && _); [auto |].
  destruct (String.eqb command "SET" && _).
  { destruct args as [| k [| value rest]]; auto.
    destruct (set_expiry now _) as [expiry | []]; auto. }
  destruct (String.eqb command "GET").
  { destruct args as [| k [| k2 rest]]; auto.
    destruct (data_store st !! k) as [[value expiry] |]; auto.
    destruct (is_key_expired now st k); auto. }
  destruct (String.eqb command "INCR"); [| auto].
  destruct args as [| k [| k2 rest]]; auto.
  destruct (data_store st !! k) as [[value expiry] |]; auto.
  destruct (negb (is_key_expired now st k)); auto.
  destruct (int value) as [n |]; auto. destruct (str (n + 1)); auto.
Qed.

Lemma run_queued_frame (clock : nat -> Z) (key : string)
    (queued : list (string * list string)) :
  ∀ i responses st,
    Forall (fun c => head c.2 ≠ Some key) queued ->
    data_store (run_queued clock i queued responses st).1 !! key = data_store st !! key.
Proof.
  induction queued as [| [command args] rest IH]; intros i responses st Hall;
    [reflexivity |].
  apply Forall_cons in Hall as [Hhead Hrest]. cbn [run_queued].
  pose proof (exec_command_frame (clock i) command args st key Hhead) as Hstep.
  destruct (execute_transaction_command (clock i) command args st) as [st1 response].
  rewrite (IH _ _ _ Hrest). exact Hstep.
Qed.

Lemma run_queued_inert (clock : nat -> Z) (queued : list (string * list string)) :
  ∀ i responses st,
    Forall (fun c => c.1 ≠ "SET" ∧ c.1 ≠ "GET" ∧ c.1 ≠ "INCR") queued ->
    (run_queued clock i queued responses st).1 = st.
Proof.
  induction queued as [| [command args] rest IH]; intros i responses st Hall;
    [reflexivity |].
  apply Forall_cons in Hall as [(Hs & Hg & Hi) Hrest]. cbn [run_queued].
  pose proof (exec_command_inert (clock i) command args st Hs Hg Hi) as Hstep.
  destruct (execute_transaction_command (clock i) command args st) as [st1 response].
  cbn [fst] in Hstep. subst st1. apply IH. exact Hrest.
Qed.

Lemma run_queued_registry (clock : nat -> Z) (queued : list (string * list string)) :
  ∀ i responses st,
    transactions (run_queued clock i queued responses st).1 = transactions st ∧
    config (run_queued clock i queued responses st).1 = config st.
Proof.
  induction queued as [| [command args] rest IH]; intros i responses st; [auto |].
  cbn [run_queued].
  pose proof (exec_command_registry (clock i) command args st) as [Ht Hc].
  destruct (execute_transaction_command (clock i) command args st) as [st1 response].
  destruct (IH (S i) (responses ++ [response]) st1) as [Ht1 Hc1].
  cbn [fst] in Ht, Hc. split; congruence.
Qed.

(** X10: EXEC changes the keyspace only at the keys that the buffered
    commands name as their first argument; and when no buffered command is
    SET, GET or INCR, EXEC changes nothing in the keyspace nor in the
    replication state: commands such as KEYS, INFO or WAIT, though accepted
    with QUEUED, are not run by EXEC. *)
Theorem X10_exec_frame (env : Env) (writer : Writer) (st : Redis)
    (queued : list (string * list string)) :
  transactions st !! writer = Some queued ->
  (∀ key, Forall (fun c => head c.2 ≠ Some key) queued ->
     data_store (handle_exec env writer st).1 !! key = data_store st !! key) ∧
  (Forall (fun c => c.1 ≠ "SET" ∧ c.1 ≠ "GET" ∧ c.1 ≠ "INCR") queued ->
     data_store (handle_exec env writer st).1 = data_store st ∧
     replication (handle_exec env writer st).1 = replication st).
Proof.
  intros Hq. unfold handle_exec. rewrite Hq.
  destruct queued as [| c rest]; [split; [reflexivity | split; reflexivity] |].
  split.
  - intros key Hall.
    pose proof (run_queued_frame (env_clock env) key (c :: rest) 0%nat [] st Hall) as H.
    destruct (run_queued (env_clock env) 0 (c :: rest) [] st) as [st1 responses].
    exact H.
  - intros Hall.
    pose proof (run_queued_inert (env_clock env) (c :: rest) 0%nat [] st Hall) as H.
    destruct (run_queued (env_clock env) 0 (c :: rest) [] st) as [st1 responses].
    cbn [fst] in *. subst st1. split; reflexivity.
Qed.

Lemma X10_exec_frame_witness :
  let st := with_queue 7%nat [("KEYS", ["*"]); ("SET", ["a"; "1"])]
              (with_key "b" "2" None (empty_redis master_node)) in
  let env := quiet_env 0 master_node (UpstreamFailed "refused") in
  transactions st !! 7%nat = Some [("KEYS", ["*"]); ("SET", ["a"; "1"])] ∧
  Forall (fun c : string * list string => head c.2 ≠ Some "b")
    [("KEYS", ["*"]); ("SET", ["a"; "1"])] ∧
  data_store (handle_exec env 7%nat st).1 !! "b" = data_store st !! "b".
Proof.
  intros st env.
  assert (Hq : transactions st !! 7%nat = Some [("KEYS", ["*"]); ("SET", ["a"; "1"])])
    by (vm_compute; reflexivity).
  assert (Hall : Forall (fun c : string * list string => head c.2 ≠ Some "b")
                   [("KEYS", ["*"]); ("SET", ["a"; "1"])])
    by (repeat constructor; discriminate).
  split; [exact Hq |]. split; [exact Hall |].
  destruct (X10_exec_frame env 7%nat st _ Hq) as [Hframe _].
  exact (Hframe "b" Hall).
Defined.

(** X11: a command replayed by EXEC and the same command dispatched
    directly. SET with two arguments or more does the same either way: same
    node afterwards, same reply. GET of a key that is in memory does the
    same either way. INCR of one key, on a node that is not a slave, gives
    the same reply and the same keyspace either way. *)
Theorem X11_replayed_like_direct (env : Env) (args : list string) (st : Redis) :
  let now := env_now env in
  ((2 <= List.length args)%nat ->
     handle_set env args st =
       ((execute_transaction_command now "SET" args st).1,
        [(execute_transaction_command now "SET" args st).2])) ∧
  (∀ key, args = [key] -> is_Some (data_store st !! key) ->
     handle_get env args st =
       ((execute_transaction_command now "GET" args st).1,
        [(execute_transaction_command now "GET" args st).2])) ∧
  (∀ key, args = [key] -> role (replication st) ≠ "slave" ->
     (handle_incr env args st).2 =
       [ClientWrite (execute_transaction_command now "INCR" args st).2] ∧
     data_store (handle_incr env args st).1 =
       data_store (execute_transaction_command now "INCR" args st).1).
Proof.
  intros now. subst now. split; [| split].
  - intros Hlen. destruct args as [| key [| value rest]]; [cbn in Hlen; lia.. |].
    unfold handle_set, execute_transaction_command.
    cbn [String.eqb Ascii.eqb Bool.eqb andb List.length].
    replace (2 <=? Z.of_nat (S (S (List.length rest)))) with true
      by (symmetry; apply Z.leb_le; lia).
    destruct (set_expiry (env_now env) _) as [expiry | []]; reflexivity.
  - intros key -> [[value expiry] Hk].
    unfold handle_get, execute_transaction_command.
    cbn [String.eqb Ascii.eqb Bool.eqb andb]. rewrite Hk.
    destruct (is_key_expired (env_now env) st key); reflexivity.
  - intros key -> Hrole. apply String.eqb_neq in Hrole.
    unfold handle_incr, execute_transaction_command.
    cbn [String.eqb Ascii.eqb Bool.eqb andb]. rewrite Hrole.
    destruct (data_store st !! key) as [[value expiry] |]; [| split; reflexivity].
    destruct (negb (is_key_expired (env_now env) st key)); [| split; reflexivity].
    destruct (int value) as [n |]; [destruct (str (n + 1)) |]; split; reflexivity.
Qed.

Lemma X11_replayed_like_direct_witness :
  let env := quiet_env 0 master_node (UpstreamFailed "refused") in
  let st := empty_redis master_node in
  (2 <= List.length ["k"; "v"; "PX"; "10"])%nat ∧
  handle_set env ["k"; "v"; "PX"; "10"] st =
    ((execute_transaction_command 0 "SET" ["k"; "v"; "PX"; "10"] st).1,
     [(execute_transaction_command 0 "SET" ["k"; "v"; "PX"; "10"] st).2]).
Proof.
  intros env st.
  assert (Hlen : (2 <= List.length ["k"; "v"; "PX"; "10"])%nat) by (cbn; lia).
  split; [exact Hlen |].
  destruct (X11_replayed_like_direct env ["k"; "v"; "PX"; "10"] st) as [Hset _].
  exact (Hset Hlen).
Defined.

(** ** Integers as text *)

Lemma digit_char (y : N) :
  (y < 10)%N ->
  is_digit (pretty_N_char y) = true ∧ digit_val (pretty_N_char y) = Z.of_N y ∧
  is_space (pretty_N_char y) = false.
Proof.
  intros Hy.
  assert (y = 0 ∨ y = 1 ∨ y = 2 ∨ y = 3 ∨ y = 4 ∨ y = 5 ∨ y = 6 ∨ y = 7
          ∨ y = 8 ∨ y = 9)%N as Hcases by lia.
  repeat (destruct Hcases as [-> | Hcases]; [repeat split |]).
  subst y. repeat split.
Qed.

(** Reading back the digits that [pretty_N_go] writes in front of [s]. *)
Lemma parse_pretty_digits (x : N) :
  (0 < x)%N ->
  ∃ m, ∀ acc seen s,
    parse_digits acc seen (pretty_N_go x s) = parse_digits (acc * m + Z.of_N x) true s.
Proof.
  induction (N.lt_wf_0 x) as [x _ IH]. intros Hpos.
  destruct (digit_char (x `mod` 10)) as (Hdigit & Hval & _);
    [apply N.mod_lt; lia |].
  assert (Hx : Z.of_N x = 10 * Z.of_N (x `div` 10) + Z.of_N (x `mod` 10)).
  { pose proof (N.div_mod x 10 ltac:(lia)) as Hdm. lia. }
  destruct (N.eq_dec (x `div` 10) 0) as [Hzero | Hmore].
  - exists 10. intros acc seen s.
    rewrite pretty_N_go_step, Hzero, pretty_N_go_0 by exact Hpos.
    cbn [parse_digits]. rewrite Hdigit, Hval. f_equal. rewrite Hx, Hzero. lia.
  - destruct (IH (x `div` 10)%N) as [m Hm];
      [apply N.div_lt; lia | apply N.neq_0_lt_0; exact Hmore |].
    exists (10 * m). intros acc seen s.
    rewrite pretty_N_go_step, Hm by exact Hpos.
    cbn [parse_digits]. rewrite Hdigit, Hval. f_equal. rewrite Hx. lia.
Qed.

Lemma pretty_go_head (x : N) (s : string) :
  (0 < x)%N -> ∃ c r, pretty_N_go x s = String c r ∧ is_digit c = true.
Proof.
  revert s. induction (N.lt_wf_0 x) as [x _ IH]. intros s Hpos.
  rewrite pretty_N_go_step by exact Hpos.
  destruct (N.eq_dec (x `div` 10) 0) as [Hzero | Hmore].
  - rewrite Hzero, pretty_N_go_0. eexists _, _. split; [reflexivity |].
    apply digit_char, N.mod_lt. lia.
  - apply IH; [apply N.div_lt; lia | apply N.neq_0_lt_0; exact Hmore].
Qed.

Lemma chars_rev_app (s t : string) :
  list_ascii_of_string (String.rev_app s t)
    = rev (list_ascii_of_string s) ++ list_ascii_of_string t.
Proof.
  revert t. induction s as [| c s IH]; intros t; [reflexivity |].
  cbn [String.rev_app list_ascii_of_string rev]. rewrite IH.
  rewrite <- app_assoc. reflexivity.
Qed.

Lemma rev_app_rev_app (s t u : string) :
  String.rev_app (String.rev_app s t) u = String.rev_app t (s +:+ u).
Proof.
  revert t u. induction s as [| c s IH]; intros t u; [reflexivity |].
  cbn [String.rev_app]. rewrite IH. reflexivity.
Qed.

Lemma lstrip_spaceless (s : string) : spaceless s -> lstrip s = s.
Proof.
  destruct s as [| c s]; [reflexivity |]. intros Hs.
  apply Forall_cons in Hs as [Hc _]. cbn [lstrip]. rewrite Hc. reflexivity.
Qed.

(** Text without white space is left as it is by [strip]. *)
Lemma strip_spaceless (s : string) : spaceless s -> strip s = s.
Proof.
  intros Hs. unfold strip. rewrite (lstrip_spaceless s Hs).
  rewrite lstrip_spaceless.
  - unfold String.rev. rewrite rev_app_rev_app. cbn [String.rev_app].
    apply append_empty_r.
  - unfold spaceless, String.rev. rewrite chars_rev_app, app_nil_r.
    apply Forall_rev. exact Hs.
Qed.

Lemma pretty_go_spaceless (x : N) (s : string) :
  spaceless s -> spaceless (pretty_N_go x s).
Proof.
  revert s. induction (N.lt_wf_0 x) as [x _ IH]. intros s Hs.
  destruct (N.eq_dec x 0) as [-> | Hpos]; [rewrite pretty_N_go_0; exact Hs |].
  rewrite pretty_N_go_step by lia.
  apply IH; [apply N.div_lt; lia |].
  apply Forall_cons. split; [| exact Hs].
  apply digit_char, N.mod_lt. lia.
Qed.

Lemma int_space_is_space (c : ascii) : is_space c = false -> is_int_space c = false.
Proof. destruct c as [[] [] [] [] [] [] [] []]; intros H; try discriminate H; reflexivity. Qed.

(** Text without white space is left as it is by the stripping of [int]. *)
Lemma strip_int_spaceless (s : string) : spaceless s -> strip_int s = s.
Proof.
  assert (Hl : ∀ t, spaceless t -> lstrip_int t = t).
  { intros [| c t] Ht; [reflexivity |]. apply Forall_cons in Ht as [Hc _].
    cbn [lstrip_int]. rewrite (int_space_is_space c Hc). reflexivity. }
  intros Hs. unfold strip_int. rewrite (Hl s Hs), Hl.
  - unfold String.rev. rewrite rev_app_rev_app. cbn [String.rev_app].
    apply append_empty_r.
  - unfold spaceless, String.rev. rewrite chars_rev_app, app_nil_r.
    apply Forall_rev. exact Hs.
Qed.

Lemma decimal_spaceless (n : Z) : spaceless (decimal n).
Proof.
  assert (Hpos : ∀ p, spaceless (pretty (Npos p))).
  { intros p. unfold pretty, pretty_N.
    destruct (decide (N.pos p = 0%N)) as [Hp | _]; [discriminate Hp |].
    apply pretty_go_spaceless. constructor. }
  unfold decimal, pretty, pretty_Z. destruct n as [| p | p].
  - repeat constructor.
  - apply Hpos.
  - apply Forall_cons. split; [reflexivity | apply Hpos].
Qed.

(** The digits that [pretty_N_go] writes in front of a text add to its
    digits. *)
Lemma count_pretty_go (x : N) :
  ∀ s, count_digits (pretty_N_go x s)
       = (count_digits (pretty_N_go x "") + count_digits s)%nat.
Proof.
  induction (N.lt_wf_0 x) as [x _ IH]. intros s.
  destruct (N.eq_dec x 0) as [-> | Hpos]; [rewrite !pretty_N_go_0; reflexivity |].
  assert (Hlt : (x `div` 10 < x)%N) by (apply N.div_lt; lia).
  rewrite !(pretty_N_go_step x) by lia.
  rewrite (IH _ Hlt (String (pretty_N_char (x `mod` 10)) s)).
  rewrite (IH _ Hlt (String (pretty_N_char (x `mod` 10)) "")).
  cbn [count_digits]. lia.
Qed.

Lemma count_pretty_step (x : N) :
  (0 < x)%N ->
  count_digits (pretty_N_go x "") = S (count_digits (pretty_N_go (x `div` 10) "")).
Proof.
  intros Hpos. rewrite (pretty_N_go_step x) by exact Hpos. rewrite count_pretty_go.
  destruct (digit_char (x `mod` 10)) as (Hdigit & _); [apply N.mod_lt; lia |].
  cbn [count_digits]. rewrite Hdigit. lia.
Qed.

(** A smaller number has no more digits. *)
Lemma count_pretty_mono (y : N) :
  ∀ x, (x <= y)%N ->
    (count_digits (pretty_N_go x "") <= count_digits (pretty_N_go y ""))%nat.
Proof.
  induction (N.lt_wf_0 y) as [y _ IH]. intros x Hle.
  destruct (N.eq_dec x 0) as [-> | Hpos]; [rewrite pretty_N_go_0; cbn; lia |].
  rewrite (count_pretty_step x), (count_pretty_step y) by lia.
  apply le_n_S, IH; [apply N.div_lt; lia | apply N.Div0.div_le_mono; exact Hle].
Qed.

Lemma count_decimal (n : Z) :
  n ≠ 0 -> count_digits (decimal n) = count_digits (pretty_N_go (Z.abs_N n) "").
Proof.
  intros Hn. unfold decimal, pretty, pretty_Z, pretty, pretty_N.
  destruct n as [| p | p]; [congruence | |].
  - destruct (decide (N.pos p = 0%N)) as [Hp | _]; [discriminate Hp | reflexivity].
  - destruct (decide (N.pos p = 0%N)) as [Hp | _]; [discriminate Hp | reflexivity].
Qed.

(** Between zero and a number that [str] can write, [str] can write. *)
Lemma printable_le (a b : Z) :
  0 <= a <= b -> printable b = true -> printable a = true.
Proof.
  intros Hab Hb. destruct (Z.eq_dec a 0) as [-> | Ha]; [reflexivity |].
  unfold printable in *. apply Nat.leb_le. apply Nat.leb_le in Hb.
  rewrite count_decimal in Hb |- * by lia.
  etransitivity; [| exact Hb]. apply count_pretty_mono. lia.
Qed.

(** A number has at most [k] digits when it is below the [k]-th power of
    ten. *)
Lemma count_pretty_bound (k : nat) :
  ∀ x, (count_digits (pretty_N_go x "") <= k)%nat ↔ (x < 10 ^ N.of_nat k)%N.
Proof.
  induction k as [| k IH]; intros x.
  - change (10 ^ N.of_nat 0)%N with 1%N.
    destruct (N.eq_dec x 0) as [-> | Hpos]; [rewrite pretty_N_go_0; cbn; lia |].
    rewrite count_pretty_step by lia. lia.
  - rewrite Nat2N.inj_succ, N.pow_succ_r'.
    destruct (N.eq_dec x 0) as [-> | Hpos].
    + rewrite pretty_N_go_0. cbn [count_digits].
      pose proof (N.pow_nonzero 10 (N.of_nat k) ltac:(lia)) as Hp.
      remember (10 ^ N.of_nat k)%N as p. split; intros _; lia.
    + rewrite count_pretty_step by lia.
      rewrite <- Nat.succ_le_mono, IH.
      pose proof (N.div_mod x 10 ltac:(lia)) as Hdm.
      pose proof (N.mod_lt x 10 ltac:(lia)) as Hmod.
      remember (10 ^ N.of_nat k)%N as p. remember (x `div` 10)%N as q.
      remember (x `mod` 10)%N as r. lia.
Qed.

(** [str] writes the integers below the 4300th power of ten in absolute
    value. *)
Lemma printable_bound (n : Z) :
  printable n = true ↔ Z.abs n < 10 ^ Z.of_nat max_str_digits.
Proof.
  destruct (Z.eq_dec n 0) as [-> | Hn].
  - split; [intros _ | reflexivity]. apply Z.pow_pos_nonneg; lia.
  - unfold printable. rewrite Nat.leb_le, (count_decimal n Hn), count_pretty_bound.
    rewrite N2Z.inj_lt, N2Z.inj_pow, N2Z.inj_abs_N, nat_N_Z. reflexivity.
Qed.

Lemma str_beyond (n : Z) : 10 ^ Z.of_nat max_str_digits <= Z.abs n -> str n = None.
Proof.
  intros Hn. unfold str. destruct (printable n) eqn:Hp; [| reflexivity].
  apply printable_bound in Hp. lia.
Qed.

(** A numeral that [str] can write is read back by [int]. *)
Lemma int_decimal (n : Z) : printable n = true -> int (decimal n) = Some n.
Proof.
  intros Hn. unfold int. rewrite (strip_int_spaceless _ (decimal_spaceless n)).
  unfold printable in Hn. rewrite Hn. clear Hn.
  assert (Hpos : ∀ p, parse_digits 0 false (pretty (Npos p)) = Some (Zpos p) ∧
                      ∃ c r, pretty (Npos p) = String c r ∧ is_digit c = true).
  { intros p. unfold pretty, pretty_N.
    destruct (decide (N.pos p = 0%N)) as [Hp | _]; [discriminate Hp |].
    destruct (parse_pretty_digits (N.pos p)) as [m Hm]; [lia |].
    split; [| apply pretty_go_head; lia].
    rewrite Hm. cbn [parse_digits]. f_equal. }
  destruct n as [| p | p].
  - reflexivity.
  - destruct (Hpos p) as (Hparse & c & r & Heq & Hc).
    change (decimal (Z.pos p)) with (pretty (N.pos p)).
    rewrite Heq in Hparse |- *.
    destruct c as [[] [] [] [] [] [] [] []]; try discriminate Hc; exact Hparse.
  - destruct (Hpos p) as (Hparse & _).
    change (decimal (Z.neg p)) with (String "-" (pretty (N.pos p))).
    cbv iota beta. rewrite Hparse. reflexivity.
Qed.

Lemma str_decimal (n : Z) (text : string) :
  str n = Some text -> text = decimal n ∧ printable n = true.
Proof.
  unfold str. destruct (printable n); [| discriminate].
  intros H. injection H as <-. split; reflexivity.
Qed.

(** [int(str(n)) == n], for the [n] that [str] can write. *)
Lemma int_str (n : Z) (text : string) : str n = Some text -> int text = Some n.
Proof.
  intros H. apply str_decimal in H as [-> Hn]. apply int_decimal, Hn.
Qed.

(** ** INCR on integers *)

Lemma incr_keeps_role (env : Env) (args : list string) (st : Redis) :
  role (replication st) ≠ "slave" ->
  role (replication (handle_incr env args st).1) = role (replication st).
Proof.
  intros Hrole. apply String.eqb_neq in Hrole. unfold handle_incr.
  destruct args as [| key [| k2 rest]]; try reflexivity.
  rewrite Hrole.
  destruct (data_store st !! key) as [[value expiry] |]; [| reflexivity].
  destruct (negb (is_key_expired (env_now env) st key)); [| reflexivity].
  destruct (int value) as [n |]; [destruct (str (n + 1)) |]; reflexivity.
Qed.

Lemma incr_live_integer (env : Env) (key : string) (n : Z) (expiry : option Z)
    (st : Redis) :
  role (replication st) ≠ "slave" ->
  data_store st !! key = Some (decimal n, expiry) -> printable n = true ->
  match expiry with Some e => env_now env < e | None => True end ->
  handle_incr env [key] st =
    if printable (n + 1) then
      (propagate ["SET"; key; decimal (n + 1)]
         (set_data_store (<[key := (decimal (n + 1), expiry)]> (data_store st)) st),
       [ClientWrite (encode_integer (n + 1))])
    else (st, [ClientWrite (encode_error "ERR value is not an integer or out of range")]).
Proof.
  intros Hrole Hk Hn Hlive. apply String.eqb_neq in Hrole.
  assert (He : is_key_expired (env_now env) st key = false).
  { apply is_key_expired_false. exists (decimal n), expiry.
    split; [exact Hk | exact Hlive]. }
  unfold handle_incr. rewrite Hrole, Hk, He, (int_decimal n Hn). unfold str.
  destruct (printable (n + 1)); reflexivity.
Qed.

(** X12: INCR counts. On a node that is not a slave, INCR of a live key
    that holds the numeral of [n], of at most 4300 digits, stores the
    numeral of [n + 1], keeps the key's expiry, answers [n + 1] and
    propagates a SET of the new text, as long as [n + 1] has at most 4300
    digits too; when it has more, INCR answers the error and the node is
    as it was. And [n] INCRs in a row of a key that was absent leave it
    holding the numeral of [n], with no expiry, whatever the clock shows. *)
Theorem X12_incr_counts (envs : nat -> Env) (key : string) (st : Redis) :
  role (replication st) ≠ "slave" ->
  (∀ env n expiry, data_store st !! key = Some (decimal n, expiry) ->
     printable n = true ->
     match expiry with Some e => env_now env < e | None => True end ->
     (printable (n + 1) = true ->
        (handle_incr env [key] st).2 = [ClientWrite (encode_integer (n + 1))] ∧
        data_store (handle_incr env [key] st).1 !! key
          = Some (decimal (n + 1), expiry) ∧
        propagated (replication (handle_incr env [key] st).1)
          = propagated (replication st) ++ [["SET"; key; decimal (n + 1)]]) ∧
     (printable (n + 1) = false ->
        handle_incr env [key] st =
          (st, [ClientWrite
                  (encode_error "ERR value is not an integer or out of range")]))) ∧
  (data_store st !! key = None ->
     ∀ n, (0 < n)%nat -> printable (Z.of_nat n) = true ->
       data_store (incr_times envs n key st) !! key = Some (decimal (Z.of_nat n), None)).
Proof.
  intros Hrole. split.
  - intros env n expiry Hk Hn Hlive.
    rewrite (incr_live_integer env key n expiry st Hrole Hk Hn Hlive).
    split; intros Hnext; rewrite Hnext; [| reflexivity].
    cbn [fst snd propagate save_rdb set_replication set_data_store data_store
         replication propagate_to_replicas propagated].
    split; [reflexivity |]. split; [apply lookup_insert_eq | reflexivity].
  - intros Hnone n Hn Hprint.
    assert (Hinv : ∀ m, (S m <= n)%nat ->
      role (replication (incr_times envs m key st)) ≠ "slave" ∧
      data_store (incr_times envs (S m) key st) !! key
        = Some (decimal (Z.of_nat (S m)), None)).
    { induction m as [| m IH]; intros Hm.
      - split; [exact Hrole |]. cbn [incr_times].
        apply String.eqb_neq in Hrole. unfold handle_incr.
        rewrite Hrole, Hnone. apply lookup_insert_eq.
      - destruct (IH ltac:(lia)) as [IHrole IHval].
        assert (Hrole' : role (replication (incr_times envs (S m) key st)) ≠ "slave").
        { cbn [incr_times]. rewrite incr_keeps_role; exact IHrole. }
        split; [exact Hrole' |].
        change (incr_times envs (S (S m)) key st)
          with (handle_incr (envs (S m)) [key] (incr_times envs (S m) key st)).1.
        rewrite (incr_live_integer _ key _ None _ Hrole' IHval)
          by (exact I || (apply (printable_le _ (Z.of_nat n)); [lia | exact Hprint])).
        replace (Z.of_nat (S m) + 1) with (Z.of_nat (S (S m))) by lia.
        rewrite (printable_le (Z.of_nat (S (S m))) (Z.of_nat n)) by (lia || exact Hprint).
        cbn [fst propagate save_rdb set_replication set_data_store data_store].
        apply lookup_insert_eq. }
    destruct n as [| m]; [lia |]. apply Hinv. lia.
Qed.

Lemma X12_incr_counts_witness :
  let envs := fun i : nat => quiet_env (Z.of_nat i) master_node (UpstreamFailed "refused") in
  let st := empty_redis master_node in
  role (replication st) ≠ "slave" ∧ data_store st !! "hits" = None ∧ (0 < 12)%nat ∧
  printable 12 = true ∧
  data_store (incr_times envs 12 "hits" st) !! "hits" = Some ("12", None).
Proof.
  intros envs st.
  assert (Hrole : role (replication st) ≠ "slave") by discriminate.
  assert (Hn : (0 < 12)%nat) by lia.
  split; [exact Hrole |]. split; [reflexivity |]. split; [exact Hn |].
  split; [reflexivity |].
  destruct (X12_incr_counts envs "hits" st Hrole) as [_ Hcount].
  exact (Hcount eq_refl 12%nat Hn eq_refl).
Defined.

(** At the limit: [INCR] of a key that holds 4300 nines is refused, and a
    numeral of 4301 digits is no integer. *)
Example incr_at_the_limit :
  let nines := String.concat "" (replicate max_str_digits "9") in
  let st := with_key "k" nines None (empty_redis master_node) in
  let env := quiet_env 0 master_node (UpstreamFailed "refused") in
  int nines = Some (10 ^ Z.of_nat max_str_digits - 1) ∧
  int (String "1" nines) = None ∧ int (String (ascii_of_nat 28) "5") = None ∧
  handle_incr env ["k"] st =
    (st, [ClientWrite (encode_error "ERR value is not an integer or out of range")]).
Proof.
  intros nines st env.
  assert (Hint : int nines = Some (10 ^ Z.of_nat max_str_digits - 1)).
  { assert (H : (int nines ≫= fun n => Some (n =? 10 ^ Z.of_nat max_str_digits - 1))
                = Some true) by (vm_compute; reflexivity).
    destruct (int nines) as [n |]; [| discriminate H].
    change (Some (n =? 10 ^ Z.of_nat max_str_digits - 1) = Some true) in H.
    injection H as H. apply Z.eqb_eq in H. rewrite H. reflexivity. }
  split; [exact Hint |]. split; [vm_compute; reflexivity |].
  split; [vm_compute; reflexivity |].
  assert (Hk : data_store st !! "k" = Some (nines, None)) by apply lookup_insert_eq.
  unfold handle_incr, is_key_expired.
  change (String.eqb (role (replication st)) "slave") with false. cbv iota.
  rewrite Hk, Hint. cbn [negb]. rewrite str_beyond; [reflexivity | lia].
Qed.

(** ** What a dispatch can change *)

(** The routes of [_execute_command], read off a successful dispatch. *)
Lemma execute_command_routes (fuel : nat) (env : Env) (command : string)
    (args : list string) (writer : Writer) (st : Redis)
    (result : Redis * list Event) :
  execute_command fuel env command args writer st = Some result ->
  let c := upper command in
  let a := (extract_generation args st).1 in
  let s := (extract_generation args st).2 in
  (result = forward_write_to_master env c a s)
  ∨ (c = "MULTI" ∧ result = handle_multi writer s)
  ∨ (c = "EXEC" ∧ result = handle_exec env writer s)
  ∨ (c = "DISCARD" ∧ result = handle_discard writer s)
  ∨ (∃ queued, transactions s !! writer = Some queued ∧
       result = (set_transactions
                   (<[writer := queued ++ [(c, a)]]> (transactions s)) s,
                 [ClientWrite (encode_simple_string "QUEUED")]))
  ∨ (result.1 = s)
  ∨ (c = "REPLCONF" ∧ result = in_replication (env_replconf env a writer) s)
  ∨ (c = "PSYNC" ∧ result = in_replication (env_psync env a writer) s)
  ∨ (c = "SET" ∧ result = client_writes (handle_set env a s))
  ∨ (c = "GET" ∧ result = client_writes (handle_get env a s))
  ∨ (c = "INCR" ∧ result = handle_incr env a s)
  ∨ (c = "KEYS" ∧ result.1 = (get_matching_keys env (default "*" (head a)) s).1)
  ∨ (c = "WAIT" ∧ handle_wait fuel env a s = Some result)
  ∨ (c = "CLUSTER" ∧ result = handle_cluster_command a s).
Proof.
  unfold execute_command.
  destruct (extract_generation args st) as [a s]. cbn [fst snd].
  set (c := upper command).
  destruct (String.eqb (role (replication s)) "slave" && is_write_command c).
  { intros [= <-]. left. reflexivity. }
  destruct (String.eqb_spec c "MULTI") as [Hc |_].
  { intros [= <-]. right. left. auto. }
  destruct (String.eqb_spec c "EXEC") as [Hc |_].
  { intros [= <-]. do 2 right. left. auto. }
  destruct (String.eqb_spec c "DISCARD") as [Hc |_].
  { intros [= <-]. do 3 right. left. auto. }
  destruct (transactions s !! writer) as [queued |] eqn:Hq.
  { intros [= <-]. do 4 right. left. exists queued. auto. }
  destruct (String.eqb_spec c "PING") as [Hc |_].
  { intros [= <-]. do 5 right. left. reflexivity. }
  destruct (String.eqb c "ECHO" && _).
  { intros [= <-]. do 5 right. left. reflexivity. }
  destruct (String.eqb_spec c "REPLCONF") as [Hc |_].
  { intros [= <-]. do 6 right. left. auto. }
  destruct (String.eqb_spec c "PSYNC") as [Hc |_].
  { intros [= <-]. do 7 right. left. auto. }
  destruct (String.eqb_spec c "INFO") as [Hc |_].
  { intros [= <-]. do 5 right. left. reflexivity. }
  destruct (String.eqb_spec c "SET") as [Hc |_]; cbn [andb].
  { destruct (2 <=? Z.of_nat (List.length a)).
    - intros [= <-]. do 8 right. left. auto.
    - rewrite Hc. cbn [String.eqb Ascii.eqb Bool.eqb andb].
      intros [= <-]. do 5 right. left. reflexivity. }
  destruct (String.eqb_spec c "GET") as [Hc |_].
  { intros [= <-]. do 9 right. left. auto. }
  destruct (String.eqb_spec c "INCR") as [Hc |_].
  { intros [= <-]. do 10 right. left. auto. }
  destruct (String.eqb c "CONFIG" && _ && _).
  { destruct (a !! 1%nat); intros [= <-]; do 5 right; left; reflexivity. }
  destruct (String.eqb_spec c "KEYS") as [Hc |_].
  { destruct (get_matching_keys env _ s) as [s1 keys] eqn:Hkeys.
    intros [= <-]. do 11 right. left. split; [exact Hc |]. reflexivity. }
  destruct (String.eqb_spec c "WAIT") as [Hc |_].
  { intros Hw. do 12 right. left. auto. }
  destruct (String.eqb_spec c "CLUSTER") as [Hc |_].
  { intros [= <-]. do 13 right. auto. }
  intros [= <-]. do 5 right. left. reflexivity.
Qed.

Lemma keeps_identity_refl (r : ReplicationManager) : keeps_identity r r.
Proof. unfold keeps_identity. repeat split; auto. lia. Qed.

Lemma keeps_identity_trans (r1 r2 r3 : ReplicationManager) :
  keeps_identity r1 r2 -> keeps_identity r2 r3 -> keeps_identity r1 r3.
Proof.
  intros (Hg & Hi & Hh & Hp & Hs & Hr) (Hg' & Hi' & Hh' & Hp' & Hs' & Hr').
  unfold keeps_identity. repeat split; try congruence; [lia |].
  destruct Hr as [Hr | [Hm Hsl]]; destruct Hr' as [Hr' | [Hm' Hsl']].
  - left. congruence.
  - right. split; congruence.
  - right. split; [exact Hm | congruence].
  - right. split; [exact Hm | exact Hsl'].
Qed.

Lemma steady_refl (r : ReplicationManager) : steady r r.
Proof. split; [apply keeps_identity_refl | reflexivity]. Qed.

Lemma steady_trans (r1 r2 r3 : ReplicationManager) :
  steady r1 r2 -> steady r2 r3 -> steady r1 r3.
Proof.
  intros [Hid Hr] [Hid' Hr']. split; [| congruence].
  eapply keeps_identity_trans; eassumption.
Qed.

Lemma extract_steady (args : list string) (st : Redis) :
  steady (replication st) (replication (extract_generation args st).2).
Proof.
  pose proof (extract_generation_highest args st) as Hh.
  destruct (extract_generation_fields args st) as (_ & _ & _ & Hr & Hg & Hmh & Hmp & _).
  split; [| exact Hr]. unfold keeps_identity. repeat split; auto.
  unfold extract_generation. destruct (scan_generation _ _ _). reflexivity.
Qed.

Lemma propagate_steady (cmd : list string) (st : Redis) :
  steady (replication st) (replication (propagate cmd st)).
Proof. unfold steady, keeps_identity. cbn. repeat split; auto. lia. Qed.

Lemma set_steady (env : Env) (args : list string) (st : Redis) :
  steady (replication st) (replication (handle_set env args st).1).
Proof.
  unfold handle_set. destruct args as [| key [| value rest]];
    try apply steady_refl.
  destruct (set_expiry _ _) as [expiry | []]; [| apply steady_refl].
  apply (propagate_steady _ (set_data_store _ st)).
Qed.

Lemma forward_state (env : Env) (command : string) (args : list string) (st : Redis) :
  (forward_write_to_master env command args st).1 = st.
Proof.
  unfold forward_write_to_master.
  destruct (negb _); [reflexivity |]. destruct (env_upstream env); reflexivity.
Qed.

Lemma incr_steady (env : Env) (args : list string) (st : Redis) :
  steady (replication st) (replication (handle_incr env args st).1).
Proof.
  unfold handle_incr. destruct args as [| key [| k2 rest]];
    try apply steady_refl.
  destruct (String.eqb _ "slave");
    [rewrite forward_state; apply steady_refl |].
  destruct (data_store st !! key) as [[value expiry] |];
    [| apply (propagate_steady _ (set_data_store _ st))].
  destruct (negb _); [| apply (propagate_steady _ (set_data_store _ st))].
  destruct (int value) as [n |]; [| apply steady_refl].
  destruct (str (n + 1)); [| apply steady_refl].
  apply (propagate_steady _ (set_data_store _ st)).
Qed.

Lemma exec_command_steady (now : Z) (command : string) (args : list string)
    (st : Redis) :
  steady (replication st)
    (replication (execute_transaction_command now command args st).1).
Proof.
  unfold execute_transaction_command.
  destruct (String.eqb command "PING"); [apply steady_refl |].
  destruct (String.eqb command "ECHO" && _); [apply steady_refl |].
  destruct (String.eqb command "SET" && _).
  { destruct args as [| k [| value rest]]; try apply steady_refl.
    destruct (set_expiry now _) as [expiry | []]; [| apply steady_refl].
    apply (propagate_steady _ (set_data_store _ st)). }
  destruct (String.eqb command "GET").
  { destruct args as [| k [| k2 rest]]; try apply steady_refl.
    destruct (data_store st !! k) as [[value expiry] |]; [| apply steady_refl].
    destruct (is_key_expired now st k); apply steady_refl. }
  destruct (String.eqb command "INCR"); [| apply steady_refl].
  destruct args as [| k [| k2 rest]]; try apply steady_refl.
  destruct (data_store st !! k) as [[value expiry] |];
    [| apply (propagate_steady _ (set_data_store _ st))].
  destruct (negb _); [| apply (propagate_steady _ (set_data_store _ st))].
  destruct (int value) as [n |]; [| apply steady_refl].
  destruct (str (n + 1)); [| apply steady_refl].
  apply (propagate_steady _ (set_data_store _ st)).
Qed.

Lemma run_queued_steady (clock : nat -> Z)
    (queued : list (string * list string)) :
  ∀ i responses st,
    steady (replication st)
      (replication (run_queued clock i queued responses st).1).
Proof.
  induction queued as [| [command args] rest IH]; intros i responses st;
    [apply steady_refl |].
  cbn [run_queued].
  pose proof (exec_command_steady (clock i) command args st) as Hstep.
  destruct (execute_transaction_command (clock i) command args st) as [st1 response].
  eapply steady_trans; [exact Hstep | apply IH].
Qed.

Lemma exec_steady (env : Env) (writer : Writer) (st : Redis) :
  steady (replication st) (replication (handle_exec env writer st).1).
Proof.
  unfold handle_exec.
  destruct (transactions st !! writer) as [[| c rest] |];
    try apply steady_refl.
  pose proof (run_queued_steady (env_clock env) (c :: rest) 0%nat [] st) as H.
  destruct (run_queued _ _ _ _ _) as [st1 responses]. exact H.
Qed.

Lemma get_footprint (env : Env) (args : list string) (st : Redis) :
  replication (handle_get env args st).1 = replication st ∧
  transactions (handle_get env args st).1 = transactions st ∧
  config (handle_get env args st).1 = config st.
Proof.
  unfold handle_get. destruct args as [| key [| key2 args]]; auto.
  destruct (data_store st !! key) as [[value expiry] |].
  - destruct (is_key_expired (env_now env) st key); auto.
  - destruct (truthy _); auto.
Qed.

Lemma wait_state (fuel : nat) (env : Env) (args : list string) (st : Redis)
    (result : Redis * list Event) :
  handle_wait fuel env args st = Some result ->
  result.1 = st ∨ result.1 = set_replication (cleanup_replicas (replication st)) st.
Proof.
  unfold handle_wait.
  destruct (match args !! 0%nat with Some a => int a | None => Some 0 end);
    [| intros [= <-]; left; reflexivity].
  destruct (match args !! 1%nat with Some a => int a | None => Some 0 end);
    [| intros [= <-]; left; reflexivity].
  destruct (wait_reply _ _ _ _ _) as [[v before] |]; [| discriminate].
  intros [= <-]. right. reflexivity.
Qed.

Lemma cluster_footprint (args : list string) (st : Redis) :
  let r := handle_cluster_command args st in
  data_store r.1 = data_store st ∧ transactions r.1 = transactions st ∧
  config r.1 = config st ∧
  propagated (replication r.1) = propagated (replication st) ∧
  replicas (replication r.1) = replicas (replication st) ∧
  keeps_identity (replication st) (replication r.1).
Proof.
  cbv zeta. unfold handle_cluster_command.
  destruct args as [| sub rest];
    [repeat split; auto; apply keeps_identity_refl |].
  destruct (String.eqb (upper sub) "MASTER_ANNOUNCE");
    [| repeat split; auto; apply keeps_identity_refl].
  destruct (_ || _); [| repeat split; auto; apply keeps_identity_refl].
  destruct (String.eqb_spec (role (replication st)) "master") as [Hm | Hm];
    cbn [fst set_replication data_store transactions config replication
         set_highest_seen_generation step_down propagated replicas];
    (split; [reflexivity |]); (split; [reflexivity |]); (split; [reflexivity |]);
    (split; [reflexivity |]); (split; [reflexivity |]);
    unfold keeps_identity; cbn; repeat split; auto; lia.
Qed.

(** X13: CLUSTER never changes the keyspace, the transactions, the node's
    own generation or its upstream; the highest generation seen never goes
    down and is at least the announced one once an announcement is
    accepted; the role changes only from master to slave. Without a
    subcommand, or with one that is not MASTER_ANNOUNCE, the answer is an
    error and the node is as it was. *)
Theorem X13_cluster_footprint (args : list string) (st : Redis) :
  let r := handle_cluster_command args st in
  (data_store r.1 = data_store st ∧ transactions r.1 = transactions st ∧
   keeps_identity (replication st) (replication r.1)) ∧
  (r.2 = [ClientWrite (encode_simple_string "OK")] ->
     announced_generation 0 (tail args)
       <= highest_seen_generation (replication r.1)) ∧
  (args = [] ->
     r = (st, [ClientWrite
                 (encode_error "ERR wrong number of arguments for 'cluster' command")])) ∧
  (∀ sub rest, args = sub :: rest -> upper sub ≠ "MASTER_ANNOUNCE" ->
     r = (st, [ClientWrite
                 (encode_error ("ERR unknown subcommand '" +:+ upper sub +:+ "'"))])).
Proof.
  intros r. subst r.
  destruct (cluster_footprint args st) as (Hd & Ht & _ & _ & _ & Hid).
  split; [auto |]. split; [| split].
  - unfold handle_cluster_command. destruct args as [| sub rest].
    { cbn. intros [= H]. }
    destruct (String.eqb (upper sub) "MASTER_ANNOUNCE").
    + destruct (_ || _).
      * intros _. cbn [fst tail set_replication replication
                       set_highest_seen_generation highest_seen_generation]. lia.
      * cbn. intros [= H].
    + cbn. intros [= H].
  - intros ->. reflexivity.
  - intros sub rest -> Hsub. apply String.eqb_neq in Hsub.
    unfold handle_cluster_command. rewrite Hsub. reflexivity.
Qed.

Lemma X13_cluster_footprint_witness :
  let st := empty_redis master_node in
  upper "nodes" ≠ "MASTER_ANNOUNCE" ∧
  handle_cluster_command ["nodes"] st =
    (st, [ClientWrite (encode_error "ERR unknown subcommand 'NODES'")]).
Proof.
  intros st. assert (Hsub : upper "nodes" ≠ "MASTER_ANNOUNCE") by discriminate.
  split; [exact Hsub |].
  destruct (X13_cluster_footprint ["nodes"] st) as (_ & _ & _ & Hunknown).
  exact (Hunknown "nodes" [] eq_refl Hsub).
Defined.

Lemma in_replication_footprint
    (f : ReplicationManager -> ReplicationManager * list string) (st : Redis) :
  data_store (in_replication f st).1 = data_store st ∧
  transactions (in_replication f st).1 = transactions st ∧
  config (in_replication f st).1 = config st.
Proof. unfold in_replication. destruct (f (replication st)). auto. Qed.

Lemma keys_footprint (env : Env) (pattern : string) (st : Redis) :
  replication (get_matching_keys env pattern st).1 = replication st ∧
  transactions (get_matching_keys env pattern st).1 = transactions st ∧
  config (get_matching_keys env pattern st).1 = config st.
Proof.
  unfold get_matching_keys.
  destruct (String.eqb pattern "*").
  { destruct (is_empty_store st && rdb_configured st); [| auto].
    unfold load_from_rdb. destruct (rdb_configured st); auto. }
  destruct (contains "?" pattern || contains "[" pattern); [auto |].
  destruct (data_store st !! pattern); [| auto].
  destruct (negb _); auto.
Qed.

Lemma set_footprint (env : Env) (args : list string) (st : Redis) :
  transactions (handle_set env args st).1 = transactions st ∧
  config (handle_set env args st).1 = config st.
Proof.
  unfold handle_set. destruct args as [| key [| value rest]]; auto.
  destruct (set_expiry _ _) as [expiry | []]; auto.
Qed.

Lemma incr_footprint (env : Env) (args : list string) (st : Redis) :
  transactions (handle_incr env args st).1 = transactions st ∧
  config (handle_incr env args st).1 = config st.
Proof.
  unfold handle_incr. destruct args as [| key [| k2 rest]]; auto.
  destruct (String.eqb _ "slave"); [rewrite forward_state; auto |].
  destruct (data_store st !! key) as [[value expiry] |]; auto.
  destruct (negb _); auto. destruct (int value) as [n |]; auto. destruct (str (n + 1)); auto.
Qed.

Lemma exec_footprint (env : Env) (writer : Writer) (st : Redis) :
  config (handle_exec env writer st).1 = config st ∧
  ∀ other, other ≠ writer ->
    transactions (handle_exec env writer st).1 !! other = transactions st !! other.
Proof.
  unfold handle_exec.
  destruct (transactions st !! writer) as [[| c rest] |]; [| | auto].
  - split; [reflexivity |]. intros other Hne. cbn. apply lookup_delete_ne. congruence.
  - pose proof (run_queued_registry (env_clock env) (c :: rest) 0%nat [] st) as [Ht Hc].
    destruct (run_queued _ _ _ _ _) as [st1 responses]. cbn [fst] in *.
    split; [exact Hc |]. intros other Hne.
    cbn [set_transactions transactions]. rewrite lookup_delete_ne by congruence.
    rewrite Ht. reflexivity.
Qed.

(** X14: every command but the handshake commands REPLCONF and PSYNC, which
    the replication manager serves, leaves the node's own generation, its
    replication id, its upstream and its configuration as they are; the
    highest generation seen never goes down; and the role never changes,
    except that CLUSTER may turn a master into a slave: no command makes a
    node a master. *)
Theorem X14_dispatch_keeps_identity (fuel : nat) (env : Env) (command : string)
    (args : list string) (writer : Writer) (st st' : Redis) (out : list Event) :
  upper command ≠ "REPLCONF" -> upper command ≠ "PSYNC" ->
  execute_command fuel env command args writer st = Some (st', out) ->
  keeps_identity (replication st) (replication st') ∧
  config st' = config st ∧
  (upper command ≠ "CLUSTER" -> role (replication st') = role (replication st)).
Proof.
  intros Hreplconf Hpsync Hrun.
  pose proof (extract_steady args st) as Hid0.
  destruct (extract_generation_fields args st) as (_ & _ & Hc0 & _).
  set (s := (extract_generation args st).2) in *.
  set (a := (extract_generation args st).1) in *.
  assert (Hsteady : ∀ s', steady (replication s) (replication s') -> config s' = config s ->
    keeps_identity (replication st) (replication s') ∧ config s' = config st ∧
    (upper command ≠ "CLUSTER" -> role (replication s') = role (replication st))).
  { intros s' Hs Hc. destruct (steady_trans _ _ _ Hid0 Hs) as [Hid Hr].
    split; [exact Hid |]. split; [congruence | intros _; exact Hr]. }
  assert (Hsame : ∀ s', replication s' = replication s -> config s' = config s ->
    keeps_identity (replication st) (replication s') ∧ config s' = config st ∧
    (upper command ≠ "CLUSTER" -> role (replication s') = role (replication st))).
  { intros s' Hs Hc. apply Hsteady; [rewrite Hs; apply steady_refl | exact Hc]. }
  apply execute_command_routes in Hrun. cbv zeta in Hrun. cbn [fst snd] in Hrun.
  fold s a in Hrun.
  destruct Hrun as [H | [[_ H] | [[_ H] | [[_ H] | [(q & _ & H) | [H | [[Hc _] |
    [[Hc _] | [[_ H] | [[_ H] | [[_ H] | [[_ H] | [[_ H] | [Hc H]]]]]]]]]]]]]].
  - apply (f_equal fst) in H. cbn [fst] in H. rewrite forward_state in H. subst st'.
    apply Hsame; reflexivity.
  - apply (f_equal fst) in H. cbn [fst handle_multi] in H. subst st'.
    apply Hsame; reflexivity.
  - apply (f_equal fst) in H. cbn [fst] in H. subst st'.
    apply Hsteady; [apply exec_steady | apply exec_footprint].
  - apply (f_equal fst) in H. cbn [fst] in H. subst st'. unfold handle_discard.
    destruct (transactions s !! writer); apply Hsame; reflexivity.
  - apply (f_equal fst) in H. cbn [fst] in H. subst st'. apply Hsame; reflexivity.
  - cbn [fst] in H. subst st'. apply Hsame; reflexivity.
  - contradiction.
  - contradiction.
  - apply (f_equal fst) in H. cbn [fst client_writes] in H. subst st'.
    apply Hsteady; [apply set_steady | apply set_footprint].
  - apply (f_equal fst) in H. cbn [fst client_writes] in H. subst st'.
    apply Hsame; apply get_footprint.
  - apply (f_equal fst) in H. cbn [fst] in H. subst st'.
    apply Hsteady; [apply incr_steady | apply incr_footprint].
  - cbn [fst] in H. subst st'. apply Hsame; apply keys_footprint.
  - apply wait_state in H. cbn [fst] in H. destruct H as [-> | ->].
    + apply Hsame; reflexivity.
    + apply Hsteady; [| reflexivity].
      unfold steady, keeps_identity. cbn. repeat split; auto. lia.
  - apply (f_equal fst) in H. cbn [fst] in H. subst st'.
    destruct (cluster_footprint a s) as (_ & _ & Hcf & _ & _ & Hid).
    destruct Hid0 as [Hid0 _].
    split; [eapply keeps_identity_trans; eassumption |].
    split; [congruence | intros Hne; contradiction].
Qed.

Lemma X14_dispatch_keeps_identity_witness :
  let st := empty_redis slave_node in
  let env := quiet_env 0 slave_node (UpstreamFailed "refused") in
  upper "cluster" ≠ "REPLCONF" ∧ upper "cluster" ≠ "PSYNC" ∧
  ∃ st' out,
    execute_command 0 env "cluster" ["master_announce"; "generation=9"] 7%nat st
      = Some (st', out) ∧
    role (replication st') = "slave" ∧ generation (replication st') = 3.
Proof.
  intros st env.
  assert (H1 : upper "cluster" ≠ "REPLCONF") by discriminate.
  assert (H2 : upper "cluster" ≠ "PSYNC") by discriminate.
  split; [exact H1 |]. split; [exact H2 |].
  destruct (execute_command 0 env "cluster" ["master_announce"; "generation=9"] 7%nat st)
    as [[st' out] |] eqn:Hrun; [| vm_compute in Hrun; discriminate Hrun].
  exists st', out. split; [reflexivity |].
  destruct (X14_dispatch_keeps_identity 0 env "cluster" _ 7%nat st st' out H1 H2 Hrun)
    as ((Hg & _ & _ & _ & _ & Hr) & _).
  split; [| exact Hg].
  destruct Hr as [Hr | [Hm _]]; [exact Hr | discriminate Hm].
Defined.

(** X15: connections do not see each other's transactions: whatever a
    connection sends, the transaction state of every other connection is
    as it was. *)
Theorem X15_transactions_isolated (fuel : nat) (env : Env) (command : string)
    (args : list string) (writer other : Writer) (st st' : Redis) (out : list Event) :
  other ≠ writer ->
  execute_command fuel env command args writer st = Some (st', out) ->
  transactions st' !! other = transactions st !! other.
Proof.
  intros Hne Hrun.
  destruct (extract_generation_fields args st) as (_ & Ht0 & _).
  set (s := (extract_generation args st).2) in *.
  set (a := (extract_generation args st).1) in *.
  assert (Hsame : ∀ s', transactions s' = transactions s ->
                        transactions s' !! other = transactions st !! other)
    by (intros s' ->; rewrite Ht0; reflexivity).
  apply execute_command_routes in Hrun. cbv zeta in Hrun. cbn [fst snd] in Hrun.
  fold s a in Hrun.
  destruct Hrun as [H | [[_ H] | [[_ H] | [[_ H] | [(q & _ & H) | [H | [[_ H] |
    [[_ H] | [[_ H] | [[_ H] | [[_ H] | [[_ H] | [[_ H] | [_ H]]]]]]]]]]]]]].
  - apply (f_equal fst) in H. cbn [fst] in H. rewrite forward_state in H. subst st'.
    apply Hsame. reflexivity.
  - apply (f_equal fst) in H. cbn [fst handle_multi] in H. subst st'.
    cbn [set_transactions transactions]. rewrite lookup_insert_ne by congruence.
    rewrite Ht0. reflexivity.
  - apply (f_equal fst) in H. cbn [fst] in H. subst st'.
    destruct (exec_footprint env writer s) as [_ Hother].
    rewrite (Hother other Hne), Ht0. reflexivity.
  - apply (f_equal fst) in H. cbn [fst] in H. subst st'. unfold handle_discard.
    destruct (transactions s !! writer); [| apply Hsame; reflexivity].
    cbn [fst set_transactions transactions]. rewrite lookup_delete_ne by congruence.
    rewrite Ht0. reflexivity.
  - apply (f_equal fst) in H. cbn [fst] in H. subst st'.
    cbn [set_transactions transactions]. rewrite lookup_insert_ne by congruence.
    rewrite Ht0. reflexivity.
  - cbn [fst] in H. subst st'. apply Hsame. reflexivity.
  - apply (f_equal fst) in H. cbn [fst] in H. subst st'.
    apply Hsame, in_replication_footprint.
  - apply (f_equal fst) in H. cbn [fst] in H. subst st'.
    apply Hsame, in_replication_footprint.
  - apply (f_equal fst) in H. cbn [fst client_writes] in H. subst st'.
    apply Hsame, set_footprint.
  - apply (f_equal fst) in H. cbn [fst client_writes] in H. subst st'.
    apply Hsame, get_footprint.
  - apply (f_equal fst) in H. cbn [fst] in H. subst st'.
    apply Hsame, incr_footprint.
  - cbn [fst] in H. subst st'. apply Hsame, keys_footprint.
  - apply wait_state in H. cbn [fst] in H.
    destruct H as [-> | ->]; apply Hsame; reflexivity.
  - apply (f_equal fst) in H. cbn [fst] in H. subst st'.
    apply Hsame, cluster_footprint.
Qed.

Lemma X15_transactions_isolated_witness :
  let st := with_queue 8%nat [("SET", ["a"; "1"])] (empty_redis master_node) in
  let env := quiet_env 0 master_node (UpstreamFailed "refused") in
  8%nat ≠ 7%nat ∧
  ∃ st' out, execute_command 0 env "DISCARD" [] 7%nat st = Some (st', out) ∧
             transactions st' !! 8%nat = Some [("SET", ["a"; "1"])].
Proof.
  intros st env. assert (Hne : 8%nat ≠ 7%nat) by discriminate.
  split; [exact Hne |].
  destruct (execute_command 0 env "DISCARD" [] 7%nat st)
    as [[st' out] |] eqn:Hrun; [| vm_compute in Hrun; discriminate Hrun].
  exists st', out. split; [reflexivity |].
  rewrite (X15_transactions_isolated 0 env "DISCARD" [] 7%nat 8%nat st st' out Hne Hrun).
  reflexivity.
Defined.

(** X16: only SET, GET, INCR, KEYS and EXEC can change the keyspace: every
    other command, known or not, on a master or on a slave, in a
    transaction or not, leaves every entry as it is; and apart from the
    handshake commands it propagates nothing to the replicas. *)
Theorem X16_keyspace_frame (fuel : nat) (env : Env) (command : string)
    (args : list string) (writer : Writer) (st st' : Redis) (out : list Event) :
  upper command ∉ ["SET"; "GET"; "INCR"; "KEYS"; "EXEC"] ->
  execute_command fuel env command args writer st = Some (st', out) ->
  data_store st' = data_store st ∧
  (upper command ∉ ["REPLCONF"; "PSYNC"] ->
     propagated (replication st') = propagated (replication st)).
Proof.
  intros Hc Hrun.
  assert (Hset : upper command ≠ "SET") by (intros E; apply Hc; rewrite E; repeat constructor).
  assert (Hget : upper command ≠ "GET") by (intros E; apply Hc; rewrite E; repeat constructor).
  assert (Hincr : upper command ≠ "INCR") by (intros E; apply Hc; rewrite E; repeat constructor).
  assert (Hkeys : upper command ≠ "KEYS") by (intros E; apply Hc; rewrite E; repeat constructor).
  assert (Hexec : upper command ≠ "EXEC") by (intros E; apply Hc; rewrite E; repeat constructor).
  destruct (extract_generation_fields args st)
    as (Hd0 & _ & _ & _ & _ & _ & _ & Hp0 & _).
  set (s := (extract_generation args st).2) in *.
  set (a := (extract_generation args st).1) in *.
  assert (Hsame : ∀ s', data_store s' = data_store s ->
                        replication s' = replication s ->
    data_store s' = data_store st ∧
    (upper command ∉ ["REPLCONF"; "PSYNC"] ->
       propagated (replication s') = propagated (replication st))).
  { intros s' Hd Hr. split; [congruence |]. intros _. rewrite Hr. exact Hp0. }
  apply execute_command_routes in Hrun. cbv zeta in Hrun. cbn [fst snd] in Hrun.
  fold s a in Hrun.
  destruct Hrun as [H | [[_ H] | [[E _] | [[_ H] | [(q & _ & H) | [H | [[E H] |
    [[E H] | [[E _] | [[E _] | [[E _] | [[E _] | [[_ H] | [_ H]]]]]]]]]]]]]];
    try contradiction.
  - apply (f_equal fst) in H. cbn [fst] in H. rewrite forward_state in H. subst st'.
    apply Hsame; reflexivity.
  - apply (f_equal fst) in H. cbn [fst handle_multi] in H. subst st'.
    apply Hsame; reflexivity.
  - apply (f_equal fst) in H. cbn [fst] in H. subst st'. unfold handle_discard.
    destruct (transactions s !! writer); apply Hsame; reflexivity.
  - apply (f_equal fst) in H. cbn [fst] in H. subst st'. apply Hsame; reflexivity.
  - cbn [fst] in H. subst st'. apply Hsame; reflexivity.
  - apply (f_equal fst) in H. cbn [fst] in H. subst st'.
    split; [rewrite (proj1 (in_replication_footprint _ s)); exact Hd0 |].
    intros Hno. exfalso. apply Hno. rewrite E. repeat constructor.
  - apply (f_equal fst) in H. cbn [fst] in H. subst st'.
    split; [rewrite (proj1 (in_replication_footprint _ s)); exact Hd0 |].
    intros Hno. exfalso. apply Hno. rewrite E. repeat constructor.
  - apply wait_state in H. cbn [fst] in H.
    destruct H as [-> | ->]; [apply Hsame; reflexivity |].
    split; [exact Hd0 | intros _; exact Hp0].
  - apply (f_equal fst) in H. cbn [fst] in H. subst st'.
    destruct (cluster_footprint a s) as (Hd & _ & _ & Hp & _).
    split; [congruence | intros _; congruence].
Qed.

Lemma X16_keyspace_frame_witness :
  let st := with_key "k" "v" (Some 5) (empty_redis master_node) in
  let env := quiet_env 10 master_node (UpstreamFailed "refused") in
  (upper "del" ∉ ["SET"; "GET"; "INCR"; "KEYS"; "EXEC"]) ∧
  ∃ st' out, execute_command 0 env "del" ["k"] 7%nat st = Some (st', out) ∧
             data_store st' = data_store st.
Proof.
  intros st env.
  assert (Hc : upper "del" ∉ ["SET"; "GET"; "INCR"; "KEYS"; "EXEC"]).
  { intros Hin. repeat (apply elem_of_cons in Hin as [Hin | Hin]; [discriminate Hin |]).
    inversion Hin. }
  split; [exact Hc |].
  destruct (execute_command 0 env "del" ["k"] 7%nat st)
    as [[st' out] |] eqn:Hrun; [| vm_compute in Hrun; discriminate Hrun].
  exists st', out. split; [reflexivity |].
  exact (proj1 (X16_keyspace_frame 0 env "del" ["k"] 7%nat st st' out Hc Hrun)).
Defined.

(** ** WAIT: arguments and footprint *)

Lemma wait_reply_quiet (fuel : nat) (ticks : nat -> Tick) (num timeout v : Z)
    (r0 : ReplicationManager) (before : list Event) :
  wait_reply fuel ticks num timeout r0 = Some (v, before) ->
  Forall (fun e => e = Sleep ∨ ∃ data, e = ReplicaWrite data) before.
Proof.
  assert (Hb : ∀ r, Forall (fun e => e = Sleep ∨ ∃ data, e = ReplicaWrite data)
                      (broadcast_getack r)).
  { intros r. unfold broadcast_getack. apply Forall_fmap, Forall_true.
    intros x. right. eexists. reflexivity. }
  assert (Hs : ∀ i j, Forall (fun e => e = Sleep ∨ ∃ data, e = ReplicaWrite data)
                        (sleeps i j)).
  { intros i j. unfold sleeps. apply Forall_replicate. left. reflexivity. }
  unfold wait_reply.
  destruct (_ || _); [intros [= <- <-]; constructor |].
  destruct (_ <? num).
  - destruct (sleep_until _ _ _ _) as [j |]; [| discriminate].
    cbn [mbind option_bind].
    destruct (_ || _); [intros [= <- <-]; apply Forall_app; auto |].
    destruct (negb _); [intros [= <- <-]; apply Forall_app; auto |].
    destruct (poll_acks _ _ _ _ _ _ _) as [[c j'] |]; [| discriminate].
    cbn [mbind option_bind]. intros [= <- <-].
    repeat (apply Forall_app; split); auto.
  - cbn [mbind option_bind].
    destruct (_ || _); [intros [= <- <-]; constructor |].
    destruct (negb _); [intros [= <- <-]; constructor |].
    destruct (poll_acks _ _ _ _ _ _ _) as [[c j'] |]; [| discriminate].
    cbn [mbind option_bind]. intros [= <- <-].
    repeat (apply Forall_app; split); auto.
Qed.

(** X17: WAIT checks its arguments before anything else: a count or a
    timeout that is not an integer is answered with an error and the node
    is untouched. A WAIT that returns never changes the keyspace or the
    transactions; whatever it does before answering is asking replicas for
    acknowledgements and sleeping; and it writes to the client exactly
    once, last. Without arguments it answers 0 at once. *)
Theorem X17_wait_footprint (fuel : nat) (env : Env) (args : list string) (st : Redis) :
  (∀ a rest, args = a :: rest -> int a = None ->
     handle_wait fuel env args st =
       Some (st, [ClientWrite (encode_error "value is not an integer")])) ∧
  (∀ a b rest n, args = a :: b :: rest -> int a = Some n -> int b = None ->
     handle_wait fuel env args st =
       Some (st, [ClientWrite (encode_error "timeout is not an integer")])) ∧
  (args = [] ->
     handle_wait fuel env args st =
       Some (set_replication (cleanup_replicas (replication st)) st,
             [ClientWrite (encode_integer 0)])) ∧
  (∀ st' out, handle_wait fuel env args st = Some (st', out) ->
     data_store st' = data_store st ∧ transactions st' = transactions st ∧
     ∃ before data,
       out = before ++ [ClientWrite data] ∧
       Forall (fun e => e = Sleep ∨ ∃ d, e = ReplicaWrite d) before).
Proof.
  split; [| split; [| split]].
  - intros a rest -> Ha. unfold handle_wait. cbn [lookup list_lookup].
    rewrite Ha. reflexivity.
  - intros a b rest n -> Ha Hb. unfold handle_wait. cbn [lookup list_lookup].
    rewrite Ha, Hb. reflexivity.
  - intros ->. unfold handle_wait, wait_reply. cbn [lookup list_lookup].
    rewrite Z.eqb_refl, orb_true_r. reflexivity.
  - intros st' out. unfold handle_wait.
    destruct (match args !! 0%nat with Some a => int a | None => Some 0 end) as [num |].
    2: { intros [= <- <-]. split; [reflexivity |]. split; [reflexivity |].
         exists [], (encode_error "value is not an integer"). split; [reflexivity | constructor]. }
    destruct (match args !! 1%nat with Some a => int a | None => Some 0 end) as [timeout |].
    2: { intros [= <- <-]. split; [reflexivity |]. split; [reflexivity |].
         exists [], (encode_error "timeout is not an integer").
         split; [reflexivity | constructor]. }
    destruct (wait_reply _ _ _ _ _) as [[v before] |] eqn:Hw; [| discriminate].
    cbn [mbind option_bind]. intros [= <- <-].
    split; [reflexivity |]. split; [reflexivity |].
    exists before, (encode_integer v). split; [reflexivity |].
    exact (wait_reply_quiet _ _ _ _ _ _ _ Hw).
Qed.

Lemma X17_wait_footprint_witness :
  let st := empty_redis master_node in
  let env := quiet_env 0 master_node (UpstreamFailed "refused") in
  int "many" = None ∧
  handle_wait 0 env ["many"; "100"] st =
    Some (st, [ClientWrite (encode_error "value is not an integer")]).
Proof.
  intros st env. split; [reflexivity |].
  destruct (X17_wait_footprint 0 env ["many"; "100"] st) as [Hcount _].
  exact (Hcount "many" ["100"] eq_refl eq_refl).
Defined.


(** ** The connection loop: frames *)

Lemma length_append (s t : string) :
  String.length (s +:+ t) = (String.length s + String.length t)%nat.
Proof.
  induction s as [| c s IH]; [reflexivity |].
  change (S (String.length (s +:+ t)) = S (String.length s + String.length t)).
  f_equal. exact IH.
Qed.

Lemma append_cons (c : ascii) (s t : string) : String c s +:+ t = String c (s +:+ t).
Proof. reflexivity. Qed.

Lemma drop_append (s t : string) : drop_chars (String.length s) (s +:+ t) = t.
Proof. induction s as [| c s IH]; [reflexivity | exact IH]. Qed.

Lemma take_append (s t : string) : take_chars (String.length s) (s +:+ t) = s.
Proof.
  induction s as [| c s IH]; [destruct t; reflexivity |].
  rewrite append_cons. cbn [String.length take_chars]. f_equal. exact IH.
Qed.

Lemma find_crlf_tail (c d : ascii) (r : string) :
  find_crlf (String c (String d r)) = None ->
  is_crlf c d = false ∧ find_crlf (String d r) = None.
Proof.
  cbn [find_crlf]. destruct (is_crlf c d); [discriminate |].
  destruct r as [| e r]; [auto |].
  destruct (is_crlf d e); [discriminate |].
  destruct (find_crlf (String e r)); [discriminate | auto].
Qed.

(** The first line end of a text that ends its first line after [s]. *)
Lemma find_crlf_append (s t : string) :
  find_crlf s = None -> find_crlf (s +:+ CRLF +:+ t) = Some (String.length s).
Proof.
  induction s as [| c s IH]; intros Hs; [reflexivity |].
  rewrite append_cons. destruct s as [| d s].
  - change (find_crlf (String c (String CR (String LF t))) = Some 1%nat).
    cbn [find_crlf]. unfold is_crlf at 1.
    replace (Ascii.eqb CR LF) with false by reflexivity. rewrite andb_false_r.
    reflexivity.
  - apply find_crlf_tail in Hs as [Hcd Hs]. specialize (IH Hs).
    rewrite append_cons in IH |- *. cbn [find_crlf].
    rewrite Hcd. cbn [find_crlf] in IH. rewrite IH. reflexivity.
Qed.

Lemma split_crlf_single (s : string) : find_crlf s = None -> split_crlf s = [s].
Proof.
  induction s as [| c s IH]; intros Hs; [reflexivity |].
  destruct s as [| d s]; [reflexivity |].
  apply find_crlf_tail in Hs as [Hcd Hs]. specialize (IH Hs).
  cbn [split_crlf]. rewrite Hcd. cbn [split_crlf] in IH. rewrite IH. reflexivity.
Qed.

Lemma split_crlf_append (s t : string) :
  find_crlf s = None -> split_crlf (s +:+ CRLF +:+ t) = s :: split_crlf t.
Proof.
  induction s as [| c s IH]; intros Hs; [reflexivity |].
  rewrite append_cons. destruct s as [| d s].
  - change (split_crlf (String c (String CR (String LF t))) = String c "" :: split_crlf t).
    cbn [split_crlf]. unfold is_crlf at 1.
    replace (Ascii.eqb CR LF) with false by reflexivity. rewrite andb_false_r.
    unfold is_crlf. rewrite !Ascii.eqb_refl. reflexivity.
  - apply find_crlf_tail in Hs as [Hcd Hs]. specialize (IH Hs).
    rewrite append_cons in IH |- *. cbn [split_crlf].
    rewrite Hcd. cbn [split_crlf] in IH. rewrite IH. reflexivity.
Qed.

Lemma spaceless_no_crlf (s : string) : spaceless s -> find_crlf s = None.
Proof.
  induction s as [| c s IH]; intros Hs; [reflexivity |].
  apply Forall_cons in Hs as [Hc Hs]. specialize (IH Hs).
  destruct s as [| d s]; [reflexivity |].
  cbn [find_crlf]. cbn [find_crlf] in IH. rewrite IH.
  assert (Hcr : Ascii.eqb c CR = false).
  { destruct (Ascii.eqb_spec c CR) as [-> |]; [discriminate Hc | reflexivity]. }
  unfold is_crlf. rewrite Hcr. reflexivity.
Qed.

Lemma int_bytes_decimal (n : Z) : printable n = true -> int_bytes (decimal n) = Some n.
Proof. apply int_decimal. Qed.

Lemma body_cons (l : string) (lines : list string) :
  String.concat "" (map (fun l => l +:+ CRLF) (l :: lines)) =
    l +:+ CRLF +:+ String.concat "" (map (fun l => l +:+ CRLF) lines).
Proof. cbn [map]. rewrite concat_empty_cons, append_associative. reflexivity. Qed.

Lemma find_crlf_from_append (pre t : string) :
  find_crlf_from (String.length pre) (pre +:+ t)
    = (fun i => (String.length pre + i)%nat) <$> find_crlf t.
Proof. unfold find_crlf_from. rewrite drop_append. reflexivity. Qed.

(** The loop that looks for the end of a command walks over the lines that
    are there, and stops early when the text that follows has no line end. *)
Lemma scan_lines (lines : list string) :
  ∀ extra pre tail count,
    Forall (fun l => find_crlf l = None) lines ->
    extra = 0%nat ∨ find_crlf tail = None ->
    scan_items (List.length lines + extra)
      (pre +:+ String.concat "" (map (fun l => l +:+ CRLF) lines) +:+ tail)
      (String.length pre) count
    = ((String.length pre
        + String.length (String.concat "" (map (fun l => l +:+ CRLF) lines)))%nat,
       (count + List.length lines)%nat).
Proof.
  induction lines as [| l lines IH]; intros extra pre tail count Hall Htail.
  - cbn [map String.concat List.length String.length Nat.add].
    rewrite !Nat.add_0_r. change ("" +:+ tail) with tail.
    destruct extra as [| extra]; [reflexivity |].
    destruct Htail as [Hz | Htail]; [discriminate Hz |].
    cbn [scan_items]. rewrite find_crlf_from_append, Htail. reflexivity.
  - apply Forall_cons in Hall as [Hl Hall].
    rewrite body_cons, !append_associative.
    cbn [List.length Nat.add scan_items].
    rewrite find_crlf_from_append, (find_crlf_append l _ Hl).
    cbn [fmap option_fmap option_map].
    specialize (IH extra (pre +:+ l +:+ CRLF) tail (S count) Hall Htail).
    rewrite !append_associative in IH.
    rewrite !length_append in IH. rewrite !length_append.
    change (String.length CRLF) with 2%nat in *.
    replace (String.length pre + String.length l + 2)%nat
      with (String.length pre + (String.length l + 2))%nat by lia.
    rewrite IH. f_equal; lia.
Qed.

Lemma split_body (lines : list string) :
  Forall (fun l => find_crlf l = None) lines ->
  split_crlf (String.concat "" (map (fun l => l +:+ CRLF) lines)) = lines ++ [""].
Proof.
  induction lines as [| l lines IH]; intros Hall; [reflexivity |].
  apply Forall_cons in Hall as [Hl Hall].
  rewrite body_cons, (split_crlf_append l _ Hl), (IH Hall). reflexivity.
Qed.

Lemma startswith_dollar (h : string) : startswith "$" ("$" +:+ h) = true.
Proof. destruct h; reflexivity. Qed.

(** Reading the commands off the lines of the items. *)
Lemma parse_item_lines (items : list (string * string)) :
  ∀ fuel done command args n,
    (List.length items < fuel)%nat ->
    Z.of_nat (List.length done) + 2 * Z.of_nat (List.length items) = 2 * n + 1 ->
    parse_lines fuel (done ++ item_lines items ++ [""]) n (List.length done)
      command args
    = Some (match command with
            | Some c => (Some c, args ++ map snd items)
            | None =>
                match items with
                | [] => (None, args)
                | hv :: rest => (Some (upper hv.2), args ++ map snd rest)
                end
            end).
Proof.
  induction items as [| [h v] items IH]; intros fuel done command args n Hfuel Hn;
    (destruct fuel as [| fuel]; [cbn in Hfuel; lia |]); cbn [parse_lines].
  - cbn [List.length] in Hn.
    replace (Z.of_nat (List.length done) <? n * 2) with false
      by (symmetry; apply Z.ltb_ge; lia).
    rewrite andb_false_r. destruct command; [rewrite app_nil_r |]; reflexivity.
  - cbn [List.length] in Hn, Hfuel.
    replace (Z.of_nat (List.length done) <? n * 2) with true
      by (symmetry; apply Z.ltb_lt; lia).
    replace (Nat.ltb (List.length done)
               (List.length (done ++ item_lines ((h, v) :: items) ++ [""])))
      with true by (symmetry; apply Nat.ltb_lt; rewrite length_app; cbn; lia).
    cbn [andb item_lines flat_map fst snd app].
    rewrite list_lookup_middle by reflexivity. cbn [default from_option id].
    rewrite startswith_dollar.
    replace (done ++ ("$" +:+ h) :: v :: flat_map _ items ++ [""])
      with ((done ++ ["$" +:+ h]) ++ v :: item_lines items ++ [""])
      by (rewrite <- app_assoc; reflexivity).
    rewrite list_lookup_middle by (rewrite length_app; cbn; lia).
    replace ((done ++ ["$" +:+ h]) ++ v :: item_lines items ++ [""])
      with ((done ++ ["$" +:+ h; v]) ++ item_lines items ++ [""])
      by (rewrite <- !app_assoc; reflexivity).
    replace (S (S (List.length done))) with (List.length (done ++ ["$" +:+ h; v]))
      by (rewrite length_app; cbn; lia).
    destruct command as [c |].
    + rewrite IH; [| lia | rewrite length_app; cbn [List.length]; lia].
      rewrite <- app_assoc. reflexivity.
    + rewrite IH; [| lia | rewrite length_app; cbn [List.length]; lia].
      reflexivity.
Qed.

Lemma frame_lines_unfold (n : Z) (lines : list string) (tail : string) :
  frame_lines n lines +:+ tail =
    String "*" (decimal n) +:+ CRLF
      +:+ String.concat "" (map (fun l => l +:+ CRLF) lines) +:+ tail.
Proof. unfold frame_lines. rewrite !append_associative. reflexivity. Qed.

Lemma count_line_no_crlf (n : Z) : find_crlf (String "*" (decimal n)) = None.
Proof.
  apply spaceless_no_crlf, Forall_cons. split; [reflexivity | apply decimal_spaceless].
Qed.

(** What [next_frame] does with a frame given by its lines, when the lines
    present are at most those that the count asks for. *)
Lemma next_frame_lines (fuel : nat) (n : Z) (lines : list string) (tail : string) :
  printable n = true -> Forall (fun l => find_crlf l = None) lines ->
  (Z.of_nat (List.length lines) = 2 * n ∨
   (Z.of_nat (List.length lines) < 2 * n ∧ find_crlf tail = None)) ->
  next_frame fuel (frame_lines n lines +:+ tail) =
    if Z.of_nat (List.length lines) <? n * 2 then Some FrameIncomplete
    else
      '(command, args) ←
        parse_lines fuel (String "*" (decimal n) :: lines ++ [""]) n 1 None [];
      Some (FrameCommand command args tail).
Proof.
  intros Hn Hlines Hcount. rewrite frame_lines_unfold.
  set (body := String.concat "" (map (fun l => l +:+ CRLF) lines)).
  set (first := String "*" (decimal n)).
  assert (Hfind : find_crlf (first +:+ CRLF +:+ body +:+ tail)
                  = Some (String.length first))
    by apply find_crlf_append, count_line_no_crlf.
  unfold next_frame.
  change (startswith "PING" (first +:+ CRLF +:+ body +:+ tail)) with false.
  replace (startswith "*" (first +:+ CRLF +:+ body +:+ tail)) with true
    by (unfold first; rewrite append_cons; cbn;
        destruct (decimal n +:+ CRLF +:+ body +:+ tail); reflexivity).
  cbv iota. rewrite Hfind.
  replace (take_chars (String.length first - 1)
             (drop_chars 1 (first +:+ CRLF +:+ body +:+ tail))) with (decimal n).
  2: { unfold first. rewrite append_cons. cbn [drop_chars String.length Nat.sub].
       rewrite ?Nat.sub_0_r. symmetry. apply take_append. }
  rewrite (int_bytes_decimal n Hn).
  assert (Hscan : scan_items (Z.to_nat (n * 2)) (first +:+ CRLF +:+ body +:+ tail)
                    (String.length first + 2) 0
                  = ((String.length (first +:+ CRLF) + String.length body)%nat,
                     List.length lines)).
  { pose proof (scan_lines lines (Z.to_nat (n * 2) - List.length lines)
                  (first +:+ CRLF) tail 0 Hlines) as Hs.
    rewrite !append_associative in Hs.
    replace (List.length lines + (Z.to_nat (n * 2) - List.length lines))%nat
      with (Z.to_nat (n * 2)) in Hs by lia.
    rewrite length_append in Hs. change (String.length CRLF) with 2%nat in Hs.
    rewrite length_append. change (String.length CRLF) with 2%nat.
    cbn [Nat.add] in Hs. apply Hs.
    destruct Hcount as [Heq | [_ Htail]]; [left; lia | right; exact Htail]. }
  rewrite Hscan.
  destruct (Z.ltb_spec (Z.of_nat (List.length lines)) (n * 2)) as [Hlt | Hge];
    [reflexivity |].
  replace (first +:+ CRLF +:+ body +:+ tail)
    with ((first +:+ CRLF +:+ body) +:+ tail)
    by (rewrite !append_associative; reflexivity).
  replace (String.length (first +:+ CRLF) + String.length body)%nat
    with (String.length (first +:+ CRLF +:+ body))
    by (rewrite <- length_append, !append_associative; reflexivity).
  rewrite take_append, drop_append.
  rewrite (split_crlf_append first body (count_line_no_crlf n)).
  unfold body. rewrite (split_body lines Hlines). reflexivity.
Qed.

Lemma frame_of_lines (items : list (string * string)) :
  frame_of items = frame_lines (Z.of_nat (List.length items)) (item_lines items).
Proof.
  unfold frame_of, frame_lines. do 3 f_equal.
  induction items as [| [h v] items IH]; [reflexivity |].
  cbn [map item_lines flat_map app fst snd]. fold (item_lines items).
  rewrite !concat_empty_cons, IH, !append_associative. reflexivity.
Qed.

Lemma item_lines_length (items : list (string * string)) :
  List.length (item_lines items) = (2 * List.length items)%nat.
Proof.
  induction items as [| hv items IH]; [reflexivity |].
  cbn [item_lines flat_map app List.length]. fold (item_lines items). lia.
Qed.

Lemma find_crlf_dollar (h : string) : find_crlf h = None -> find_crlf ("$" +:+ h) = None.
Proof.
  intros Hh. change ("$" +:+ h) with (String "$" h).
  destruct h as [| d h]; [reflexivity |]. cbn [find_crlf].
  cbn [find_crlf] in Hh. rewrite Hh. reflexivity.
Qed.

Lemma item_lines_no_crlf (items : list (string * string)) :
  Forall (fun hv => find_crlf hv.1 = None ∧ find_crlf hv.2 = None) items ->
  Forall (fun l => find_crlf l = None) (item_lines items).
Proof.
  induction 1 as [| [h v] items [Hh Hv] _ IH]; [constructor |].
  cbn [item_lines flat_map app]. repeat constructor; auto using find_crlf_dollar.
Qed.

(** A frame of items that all have arrived parses into its payloads. *)
Lemma next_frame_items (fuel : nat) (items : list (string * string)) (rest : string) :
  printable (Z.of_nat (List.length items)) = true ->
  Forall (fun hv => find_crlf hv.1 = None ∧ find_crlf hv.2 = None) items ->
  (List.length items < fuel)%nat ->
  next_frame fuel (frame_of items +:+ rest) =
    Some (FrameCommand (upper <$> head (map snd items)) (tail (map snd items)) rest).
Proof.
  intros Hcount Hitems Hfuel. rewrite frame_of_lines.
  rewrite (next_frame_lines fuel _ _ rest Hcount (item_lines_no_crlf _ Hitems))
    by (left; rewrite item_lines_length; lia).
  rewrite item_lines_length.
  replace (Z.of_nat (2 * List.length items) <? Z.of_nat (List.length items) * 2)
    with false by (symmetry; apply Z.ltb_ge; lia).
  pose proof (parse_item_lines items fuel [String "*" (decimal (Z.of_nat (List.length items)))]
                None [] (Z.of_nat (List.length items)) Hfuel) as Hparse.
  cbn [List.length app] in Hparse. rewrite Hparse by lia.
  destruct items as [| [h v] items]; reflexivity.
Qed.

Lemma encode_array_frame (l : list string) :
  encode_array l =
    frame_of (map (fun s => (decimal (Z.of_nat (String.length s)), s)) l).
Proof.
  unfold encode_array, frame_of. rewrite length_map, map_map. reflexivity.
Qed.

(** An encoded request parses back into the command and its arguments. *)
Lemma next_frame_encoded (fuel : nat) (command : string) (args : list string)
    (rest : string) :
  printable (Z.of_nat (S (List.length args))) = true ->
  Forall (fun s => find_crlf s = None) (command :: args) ->
  (S (List.length args) < fuel)%nat ->
  next_frame fuel (encode_array (command :: args) +:+ rest) =
    Some (FrameCommand (Some (upper command)) args rest).
Proof.
  intros Hcount Hplain Hfuel. rewrite encode_array_frame, next_frame_items.
  - rewrite map_map. cbn [map snd head tail fmap option_fmap option_map].
    rewrite map_id. reflexivity.
  - rewrite length_map. exact Hcount.
  - apply Forall_fmap. eapply Forall_impl; [exact Hplain |].
    intros s Hs. cbn [fst snd]. split; [| exact Hs].
    apply spaceless_no_crlf, decimal_spaceless.
  - rewrite length_map. cbn [List.length]. exact Hfuel.
Qed.

(** X18: an array frame is read by its line ends alone. A frame that
    declares [n] items, the count being a numeral that [int] reads (of at
    most 4300 digits), and brings them, each as a header that starts with
    [$] and a payload, none holding a line end, parses into the first
    payload, upper-cased, as the command and the other payloads, in order,
    as its arguments; the bytes that follow stay in the buffer. What the
    headers declare is not looked at: any text may follow the [$]. In
    particular the encoding of a command and its arguments as an array of
    bulk strings parses back into them. *)
Theorem X18_frame_parses (fuel : nat) (rest : string) :
  (∀ items,
     printable (Z.of_nat (List.length items)) = true ->
     Forall (fun hv => find_crlf hv.1 = None ∧ plain hv.2) items ->
     (List.length items < fuel)%nat ->
     next_frame fuel (frame_of items +:+ rest) =
       Some (FrameCommand (upper <$> head (map snd items)) (tail (map snd items))
               rest)) ∧
  (∀ command args,
     printable (Z.of_nat (S (List.length args))) = true ->
     Forall plain (command :: args) -> (S (List.length args) < fuel)%nat ->
     next_frame fuel (encode_array (command :: args) +:+ rest) =
       Some (FrameCommand (Some (upper command)) args rest)).
Proof.
  split.
  - intros items Hcount Hitems Hfuel.
    apply next_frame_items; [exact Hcount | | exact Hfuel].
    eapply Forall_impl; [exact Hitems |]. intros hv [Hh [_ Hv]]. auto.
  - intros command args Hcount Hplain Hfuel.
    apply next_frame_encoded; [exact Hcount | | exact Hfuel].
    eapply Forall_impl; [exact Hplain |]. intros s [_ Hs]. exact Hs.
Qed.

Lemma X18_frame_parses_witness :
  printable (Z.of_nat (List.length [("999", "get"); ("", "k")])) = true ∧
  Forall (fun hv : string * string => find_crlf hv.1 = None ∧ plain hv.2)
    [("999", "get"); ("", "k")] ∧
  (List.length [("999", "get"); ("", "k")] < 3)%nat ∧
  next_frame 3 (frame_of [("999", "get"); ("", "k")] +:+ "*1") =
    Some (FrameCommand (Some "GET") ["k"] "*1").
Proof.
  assert (Hitems : Forall (fun hv : string * string => find_crlf hv.1 = None ∧ plain hv.2)
                     [("999", "get"); ("", "k")]).
  { repeat constructor; cbn; lia. }
  assert (Hfuel : (List.length [("999", "get"); ("", "k")] < 3)%nat) by (cbn; lia).
  split; [reflexivity |]. split; [exact Hitems |]. split; [exact Hfuel |].
  destruct (X18_frame_parses 3 "*1") as [Hgeneral _].
  exact (Hgeneral [("999", "get"); ("", "k")] eq_refl Hitems Hfuel).
Defined.

(** X19: a frame that has not arrived in full is left alone. When the
    count line, a numeral that [int] reads (of at most 4300 digits), asks
    for more lines than the buffer holds, and what follows the last whole
    line has no line end yet, nothing is consumed, nothing is answered and
    nothing is dispatched; the same holds of a buffer without any line
    end. *)
Theorem X19_incomplete_frame_waits (steps fuel : nat) (envs : nat -> Env) (k : nat)
    (writer : Writer) (st : Redis) :
  (∀ n lines tail,
     printable n = true -> Forall (fun l => find_crlf l = None) lines ->
     Z.of_nat (List.length lines) < 2 * n -> find_crlf tail = None ->
     process_buffer (S steps) fuel envs k (frame_lines n lines +:+ tail) writer st
       = Some (frame_lines n lines +:+ tail, st, [], k)) ∧
  (∀ buffer, find_crlf buffer = None ->
     process_buffer (S steps) fuel envs k buffer writer st = Some (buffer, st, [], k)).
Proof.
  split.
  - intros n lines tail Hn Hlines Hfew Htail. cbn [process_buffer].
    rewrite (next_frame_lines fuel n lines tail Hn Hlines) by (right; auto).
    replace (Z.of_nat (List.length lines) <? n * 2) with true
      by (symmetry; apply Z.ltb_lt; lia).
    cbn [mbind option_bind].
    destruct (find_crlf (frame_lines n lines +:+ tail)); reflexivity.
  - intros buffer Hnone. cbn [process_buffer]. rewrite Hnone. reflexivity.
Qed.

Lemma X19_incomplete_frame_waits_witness :
  let envs := fun _ : nat => quiet_env 0 master_node (UpstreamFailed "refused") in
  printable 3 = true ∧ Forall (fun l => find_crlf l = None) ["$3"; "SET"; "$1"] ∧
  Z.of_nat (List.length ["$3"; "SET"; "$1"]) < 2 * 3 ∧ find_crlf "k" = None ∧
  process_buffer 1 5 envs 0 (frame_lines 3 ["$3"; "SET"; "$1"] +:+ "k") 7%nat
    (empty_redis master_node)
  = Some (frame_lines 3 ["$3"; "SET"; "$1"] +:+ "k", empty_redis master_node, [], 0%nat).
Proof.
  intros envs.
  assert (Hlines : Forall (fun l => find_crlf l = None) ["$3"; "SET"; "$1"])
    by (repeat constructor).
  assert (Hfew : Z.of_nat (List.length ["$3"; "SET"; "$1"]) < 2 * 3) by (cbn; lia).
  split; [reflexivity |].
  split; [exact Hlines |]. split; [exact Hfew |]. split; [reflexivity |].
  destruct (X19_incomplete_frame_waits 0 5 envs 0 7%nat (empty_redis master_node))
    as [Hwait _].
  exact (Hwait 3 ["$3"; "SET"; "$1"] "k" eq_refl Hlines Hfew eq_refl).
Defined.

Lemma find_crlf_star (x : string) : find_crlf x = None -> find_crlf (String "*" x) = None.
Proof.
  intros Hx. destruct x as [| d x]; [reflexivity |]. cbn [find_crlf].
  cbn [find_crlf] in Hx. rewrite Hx. reflexivity.
Qed.

(** X20: a frame whose count is not an integer that [int] reads (as is
    one of more than 4300 digits) is a protocol error: the client is told
    so, and only the count line is skipped; what follows it, the rest of
    the frame included, is read as new input. *)
Theorem X20_protocol_error_skips_a_line (steps fuel : nat) (envs : nat -> Env)
    (k : nat) (count rest : string) (writer : Writer) (st : Redis) :
  find_crlf count = None -> int_bytes count = None ->
  next_frame fuel ("*" +:+ count +:+ CRLF +:+ rest) = Some (FrameProtocolError rest) ∧
  process_buffer (S steps) fuel envs k ("*" +:+ count +:+ CRLF +:+ rest) writer st =
    '(b, st', out, k') ← process_buffer steps fuel envs k rest writer st;
    Some (b, st', ClientWrite ("-ERR protocol error" +:+ CRLF) :: out, k').
Proof.
  intros Hcount Hint.
  assert (Hfind : find_crlf ("*" +:+ count +:+ CRLF +:+ rest)
                  = Some (S (String.length count))).
  { change ("*" +:+ count +:+ CRLF +:+ rest) with (String "*" count +:+ CRLF +:+ rest).
    apply (find_crlf_append (String "*" count)), find_crlf_star, Hcount. }
  assert (Hframe : next_frame fuel ("*" +:+ count +:+ CRLF +:+ rest)
                   = Some (FrameProtocolError rest)).
  { unfold next_frame, skip_line. rewrite Hfind.
    change ("*" +:+ count +:+ CRLF +:+ rest) with (String "*" (count +:+ CRLF +:+ rest)).
    change (startswith "PING" (String "*" (count +:+ CRLF +:+ rest))) with false.
    replace (startswith "*" (String "*" (count +:+ CRLF +:+ rest))) with true
      by (cbn; destruct (count +:+ CRLF +:+ rest); reflexivity).
    cbn [drop_chars String.length Nat.sub]. rewrite ?Nat.sub_0_r.
    rewrite take_append, Hint.
    change (drop_chars (S (String.length count) + 2) (String "*" (count +:+ CRLF +:+ rest)))
      with (drop_chars (String.length count + 2) (count +:+ CRLF +:+ rest)).
    replace (String.length count + 2)%nat with (String.length (count +:+ CRLF))
      by (rewrite length_append; reflexivity).
    rewrite <- append_associative, drop_append. reflexivity. }
  split; [exact Hframe |].
  cbn [process_buffer]. rewrite Hfind, Hframe. reflexivity.
Qed.

Lemma X20_protocol_error_skips_a_line_witness :
  find_crlf "two" = None ∧ int_bytes "two" = None ∧
  next_frame 5 ("*" +:+ "two" +:+ CRLF +:+ "$3" +:+ CRLF)
    = Some (FrameProtocolError ("$3" +:+ CRLF)).
Proof.
  split; [reflexivity |]. split; [reflexivity |].
  exact (proj1 (X20_protocol_error_skips_a_line 0 5
                  (fun _ => quiet_env 0 master_node (UpstreamFailed "refused")) 0
                  "two" ("$3" +:+ CRLF) 7%nat (empty_redis master_node) eq_refl eq_refl)).
Defined.

Lemma parse_lines_spins (lines : list string) (n : Z) (i : nat) (l : string) :
  lines !! i = Some l -> startswith "$" l = false -> Z.of_nat i < n * 2 ->
  ∀ fuel command args, parse_lines fuel lines n i command args = None.
Proof.
  intros Hl Hno Hi. induction fuel as [| fuel IH]; intros command args; [reflexivity |].
  cbn [parse_lines].
  replace (Nat.ltb i (List.length lines)) with true
    by (symmetry; apply Nat.ltb_lt; eapply lookup_lt_Some; exact Hl).
  replace (Z.of_nat i <? n * 2) with true by (symmetry; apply Z.ltb_lt; exact Hi).
  rewrite Hl. cbn [andb default from_option id]. rewrite Hno. apply IH.
Qed.

(** X21: a frame whose first item does not start with [$] is never
    answered. Once all the lines that the count, a numeral that [int]
    reads, asks for have arrived, the loop that reads the lines finds the
    first one without its [$], takes no step past it and never ends:
    whatever the fuel, no frame comes out, and the connection loop does
    not return. *)
Theorem X21_header_without_dollar_hangs (n : Z) (first : string) (lines : list string)
    (tail : string) :
  printable n = true -> Forall (fun l => find_crlf l = None) (first :: lines) ->
  Z.of_nat (List.length (first :: lines)) = 2 * n ->
  startswith "$" first = false ->
  ∀ fuel,
    next_frame fuel (frame_lines n (first :: lines) +:+ tail) = None ∧
    ∀ steps envs k writer st,
      process_buffer steps fuel envs k (frame_lines n (first :: lines) +:+ tail)
        writer st = None.
Proof.
  intros Hn Hlines Hcount Hno fuel.
  assert (Hframe : next_frame fuel (frame_lines n (first :: lines) +:+ tail) = None).
  { rewrite (next_frame_lines fuel n _ tail Hn Hlines) by (left; exact Hcount).
    replace (Z.of_nat (List.length (first :: lines)) <? n * 2) with false
      by (symmetry; apply Z.ltb_ge; lia).
    rewrite (parse_lines_spins _ n 1 first); [reflexivity | reflexivity | exact Hno |].
    cbn [List.length] in Hcount. lia. }
  split; [exact Hframe |].
  intros steps envs k writer st. destruct steps as [| steps]; [reflexivity |].
  cbn [process_buffer]. rewrite Hframe.
  destruct (find_crlf _) eqn:Hfind; [reflexivity |].
  rewrite frame_lines_unfold in Hfind.
  rewrite (find_crlf_append _ _ (count_line_no_crlf n)) in Hfind. discriminate Hfind.
Qed.

Lemma X21_header_without_dollar_hangs_witness :
  printable 1 = true ∧ Forall (fun l => find_crlf l = None) ["PING"; "x"] ∧
  Z.of_nat (List.length ["PING"; "x"]) = 2 * 1 ∧ startswith "$" "PING" = false ∧
  next_frame 1000 (frame_lines 1 ["PING"; "x"] +:+ "") = None.
Proof.
  assert (Hlines : Forall (fun l => find_crlf l = None) ["PING"; "x"])
    by (repeat constructor).
  split; [reflexivity |].
  split; [exact Hlines |]. split; [reflexivity |]. split; [reflexivity |].
  exact (proj1 (X21_header_without_dollar_hangs 1 "PING" ["x"] "" eq_refl Hlines eq_refl
                  eq_refl 1000%nat)).
Defined.

(** ** The connection loop: requests in a row *)

Lemma upper_char_idempotent (c : ascii) : upper_char (upper_char c) = upper_char c.
Proof. destruct c as [[] [] [] [] [] [] [] []]; reflexivity. Qed.

Lemma upper_idempotent (s : string) : upper (upper s) = upper s.
Proof.
  induction s as [| c s IH]; [reflexivity |].
  change (String (upper_char (upper_char c)) (upper (upper s))
          = String (upper_char c) (upper s)).
  rewrite upper_char_idempotent, IH. reflexivity.
Qed.

(** The dispatcher upper-cases the name of the command itself. *)
Lemma execute_upper (fuel : nat) (env : Env) (command : string) (args : list string)
    (writer : Writer) (st : Redis) :
  execute_command fuel env (upper command) args writer st =
    execute_command fuel env command args writer st.
Proof. unfold execute_command. rewrite upper_idempotent. reflexivity. Qed.

Lemma encoded_has_line (l : list string) (rest : string) :
  ∃ i, find_crlf (encode_array l +:+ rest) = Some i.
Proof.
  eexists. unfold encode_array. rewrite !append_associative.
  change ("*" +:+ decimal (Z.of_nat (List.length l)) +:+ CRLF +:+ ?t)
    with (String "*" (decimal (Z.of_nat (List.length l))) +:+ CRLF +:+ t).
  apply find_crlf_append, count_line_no_crlf.
Qed.

Lemma pipeline_cons (c : Command) (commands : list Command) :
  pipeline (c :: commands) = encode_array (c.1 :: c.2) +:+ pipeline commands.
Proof. unfold pipeline. cbn [map]. apply concat_empty_cons. Qed.

(** Requests in a row in the buffer are dispatched one by one, in order. *)
Lemma process_pipeline (fuel : nat) (envs : nat -> Env) (writer : Writer)
    (tail : string) (commands : list Command) :
  Forall (readable fuel) commands -> find_crlf tail = None ->
  ∀ steps k st, (List.length commands < steps)%nat ->
    process_buffer steps fuel envs k (pipeline commands +:+ tail) writer st =
      '(st', out) ← dispatch_all fuel envs k commands writer st;
      Some (tail, st', out, (k + List.length commands)%nat).
Proof.
  intros Hall Htail.
  induction Hall as [| [command args] commands (Hplain & Hfuel & Hcount) _ IH];
    intros steps k st Hsteps.
  - destruct steps as [| steps]; [cbn [List.length] in Hsteps; lia |].
    change (pipeline [] +:+ tail) with tail.
    cbn [process_buffer dispatch_all mbind option_bind List.length].
    rewrite Htail, Nat.add_0_r. reflexivity.
  - destruct steps as [| steps]; [cbn [List.length] in Hsteps; lia |].
    cbn [List.length] in Hsteps. cbn [fst snd] in Hplain, Hfuel, Hcount.
    rewrite pipeline_cons, append_associative. cbn [fst snd process_buffer].
    destruct (encoded_has_line (command :: args) (pipeline commands +:+ tail))
      as [i ->].
    rewrite next_frame_encoded;
      [| exact Hcount
       | eapply Forall_impl; [exact Hplain | intros s [_ Hs]; exact Hs] | exact Hfuel].
    cbn [mbind option_bind execute_parsed]. rewrite execute_upper, dispatch_all_cons.
    destruct (execute_command fuel (envs k) command args writer st)
      as [[st1 out1] |]; [| reflexivity].
    cbn [mbind option_bind]. rewrite IH by lia.
    destruct (dispatch_all fuel envs (S k) commands writer st1)
      as [[st2 out2] |]; [| reflexivity].
    cbn [mbind option_bind List.length]. do 2 f_equal. lia.
Qed.

Lemma pipeline_not_empty (c : Command) (commands : list Command) :
  String.eqb (pipeline (c :: commands)) "" = false.
Proof. rewrite pipeline_cons. reflexivity. Qed.

(** Batches of requests, a chunk each, are dispatched as one sequence. *)
Lemma read_pipelines (steps fuel : nat) (envs : nat -> Env) (writer : Writer)
    (batches : list (list Command)) :
  Forall (fun b => b ≠ [] ∧ (List.length b < steps)%nat ∧ Forall (readable fuel) b)
    batches ->
  ∀ k st,
    read_loop steps fuel envs k (map pipeline batches) "" writer st =
      dispatch_all fuel envs k (List.concat batches) writer st.
Proof.
  induction 1 as [| b batches (Hne & Hsteps & Hall) _ IH]; intros k st; [reflexivity |].
  cbn [map read_loop List.concat]. destruct b as [| c b]; [congruence |].
  rewrite pipeline_not_empty.
  change ("" +:+ pipeline (c :: b)) with (pipeline (c :: b)).
  rewrite <- (append_empty_r (pipeline (c :: b))).
  rewrite (process_pipeline fuel envs writer "" (c :: b) Hall eq_refl steps k st Hsteps).
  rewrite dispatch_all_app.
  destruct (dispatch_all fuel envs k (c :: b) writer st) as [[st1 out1] |];
    [| reflexivity].
  cbn [mbind option_bind]. rewrite IH. reflexivity.
Qed.



(** X23: a transaction does not outlive its connection. A client that
    opens a transaction, sends commands that are buffered and closes
    without EXEC is answered OK and one QUEUED per command, and none of the
    commands is executed: the keyspace and the stream to the replicas are as
    before, the transaction is gone, and the transactions of the other
    connections are untouched. *)
Theorem X23_hangup_drops_transaction (steps fuel : nat) (envs : nat -> Env)
    (writer : Writer) (st : Redis) (commands : list Command) :
  Forall (buffered st) commands -> Forall (readable fuel) commands ->
  (1 < fuel)%nat -> (S (List.length commands) < steps)%nat ->
  ∃ st',
    handle_client steps fuel envs [pipeline (("MULTI", []) :: commands)] writer st =
      Some (st', ClientWrite (encode_simple_string "OK")
                   :: replicate (List.length commands)
                        (ClientWrite (encode_simple_string "QUEUED"))) ∧
    data_store st' = data_store st ∧
    propagated (replication st') = propagated (replication st) ∧
    transactions st' !! writer = None ∧
    (∀ other, other ≠ writer -> transactions st' !! other = transactions st !! other).
Proof.
  intros Hbuf Hread Hfuel Hsteps.
  destruct (extract_generation_fields [] st) as (Hd & Ht & _ & Hr & _ & _ & _ & Hp & _).
  set (st0 := (extract_generation [] st).2) in *.
  set (st1 := set_transactions (<[writer := []]> (transactions st0)) st0).
  assert (Hq : transactions st1 !! writer = Some []) by apply lookup_insert_eq.
  assert (Hbuf1 : Forall (buffered st1) commands).
  { eapply Forall_impl; [exact Hbuf |]. intros c [Hc Hs]. split; [exact Hc |].
    intros Hrole. apply Hs. rewrite <- Hr. exact Hrole. }
  destruct (buffered_in_order fuel envs writer commands 1 st1 [] Hq Hbuf1)
    as (st2 & Hrun & Hq2 & Hothers & Hd2 & Hp2 & _).
  exists (disconnect writer st2).
  assert (Hall : Forall (fun b => b ≠ [] ∧ (List.length b < steps)%nat
                                  ∧ Forall (readable fuel) b)
                   [("MULTI", []) :: commands]).
  { constructor; [| constructor]. split; [discriminate |]. split; [exact Hsteps |].
    constructor; [| exact Hread]. split; [| split; [exact Hfuel | reflexivity]].
    repeat constructor; cbn; lia. }
  split; [| split; [| split; [| split]]].
  - unfold handle_client.
    change [pipeline (("MULTI", []) :: commands)]
      with (map pipeline [("MULTI", []) :: commands]).
    rewrite (read_pipelines steps fuel envs writer _ Hall).
    cbn [List.concat]. rewrite app_nil_r, dispatch_all_cons.
    rewrite (execute_multi fuel (envs 0%nat) "MULTI" [] writer st eq_refl).
    unfold handle_multi. fold st0. fold st1. cbn [mbind option_bind].
    rewrite Hrun. reflexivity.
  - cbn [disconnect set_replication set_transactions data_store]. rewrite Hd2.
    exact Hd.
  - cbn [disconnect set_replication set_transactions replication cleanup_replicas
         set_replicas propagated]. rewrite Hp2. exact Hp.
  - cbn [disconnect set_replication set_transactions transactions].
    apply lookup_delete_eq.
  - intros other Hother.
    cbn [disconnect set_replication set_transactions transactions].
    rewrite lookup_delete_ne by congruence. rewrite (Hothers other Hother).
    cbn [st1 set_transactions transactions]. rewrite lookup_insert_ne by congruence.
    rewrite Ht. reflexivity.
Qed.

Lemma X23_hangup_drops_transaction_witness :
  let envs := fun _ : nat => quiet_env 0 master_node (UpstreamFailed "refused") in
  let st := with_key "k" "1" None (empty_redis master_node) in
  let commands := [("SET", ["k"; "2"]); ("INCR", ["k"])] in
  Forall (buffered st) commands ∧ Forall (readable 5) commands ∧
  (1 < 5)%nat ∧ (S (List.length commands) < 4)%nat ∧
  ∃ st',
    handle_client 4 5 envs [pipeline (("MULTI", []) :: commands)] 7%nat st =
      Some (st', ClientWrite (encode_simple_string "OK")
                   :: replicate (List.length commands)
                        (ClientWrite (encode_simple_string "QUEUED"))) ∧
    data_store st' = data_store st ∧
    propagated (replication st') = propagated (replication st) ∧
    transactions st' !! 7%nat = None ∧
    (∀ other, other ≠ 7%nat -> transactions st' !! other = transactions st !! other).
Proof.
  intros envs st commands.
  assert (Hbuf : Forall (buffered st) commands).
  { repeat constructor; cbn; try discriminate; reflexivity. }
  assert (Hread : Forall (readable 5) commands).
  { repeat constructor; cbn; lia. }
  assert (Hfuel : (1 < 5)%nat) by lia.
  assert (Hsteps : (S (List.length commands) < 4)%nat) by (cbn; lia).
  split; [exact Hbuf |]. split; [exact Hread |]. split; [exact Hfuel |].
  split; [exact Hsteps |].
  exact (X23_hangup_drops_transaction 4 5 envs 7%nat st commands Hbuf Hread Hfuel Hsteps).
Defined.

(** ** The connection loop: inline commands *)

Lemma startswith_before (p : string) (c : ascii) :
  contains c p = false ->
  ∀ line rest, startswith p (line +:+ String c rest) = startswith p line.
Proof.
  unfold startswith. induction p as [| a p IH]; intros Hp line rest.
  - destruct line; reflexivity.
  - cbn [contains] in Hp. apply orb_false_elim in Hp as [Ha Hp].
    destruct line as [| b line].
    + change ("" +:+ String c rest) with (String c rest). cbn [String.prefix].
      destruct (Ascii.ascii_dec a c) as [-> | _]; [| reflexivity].
      rewrite Ascii.eqb_refl in Ha. discriminate Ha.
    + rewrite append_cons. cbn [String.prefix].
      destruct (Ascii.ascii_dec a b); [apply IH, Hp | reflexivity].
Qed.

(** A line that is neither a PING nor a frame is split into words. *)
Lemma next_frame_inline (fuel : nat) (line rest : string) :
  find_crlf line = None -> startswith "PING" line = false ->
  startswith "*" line = false ->
  next_frame fuel (line +:+ CRLF +:+ rest) =
    Some (match words (strip line) with
          | [] => FrameBlank rest
          | command :: args => FrameCommand (Some (upper command)) args rest
          end).
Proof.
  intros Hline Hping Hstar. unfold next_frame.
  change (line +:+ CRLF +:+ rest) with (line +:+ String CR (String LF rest)).
  rewrite !startswith_before by reflexivity. rewrite Hping, Hstar.
  change (line +:+ String CR (String LF rest)) with (line +:+ CRLF +:+ rest).
  rewrite (find_crlf_append line rest Hline), take_append.
  replace (String.length line + 2)%nat with (String.length (line +:+ CRLF))
    by (rewrite length_append; reflexivity).
  rewrite <- append_associative, drop_append.
  destruct (words (strip line)); reflexivity.
Qed.

Lemma words_word (w t : string) :
  w ≠ "" -> spaceless w ->
  (t = "" ∨ ∃ c r, t = String c r ∧ is_space c = true) ->
  words (w +:+ t) = w :: words t.
Proof.
  intros Hne Hw Ht. induction w as [| c w IH]; [congruence |].
  apply Forall_cons in Hw as [Hc Hw]. rewrite append_cons. cbn [words]. rewrite Hc.
  destruct w as [| d w].
  - change ("" +:+ t) with t. destruct Ht as [-> | (s & r & -> & Hs)]; [reflexivity |].
    rewrite Hs. reflexivity.
  - rewrite append_cons. pose proof Hw as Hw'. apply Forall_cons in Hw' as [Hd _].
    rewrite Hd, <- append_cons, IH by (congruence || exact Hw). reflexivity.
Qed.

(** Words joined by single blanks split back into the words. *)
Lemma words_join (l : list string) :
  Forall word l -> words (String.concat " " l) = l.
Proof.
  induction 1 as [| x l (Hne & Hx & _) Hl IH]; [reflexivity |].
  destruct l as [| y l].
  - cbn [String.concat]. rewrite <- (append_empty_r x) at 1.
    rewrite words_word by auto. reflexivity.
  - change (String.concat " " (x :: y :: l))
      with (x +:+ String " " (String.concat " " (y :: l))).
    rewrite words_word by (auto || (right; eexists _, _; split; reflexivity)).
    cbn [words]. change (is_space " ") with true. cbv iota. rewrite IH. reflexivity.
Qed.

Lemma chars_append (s t : string) :
  list_ascii_of_string (s +:+ t) = list_ascii_of_string s ++ list_ascii_of_string t.
Proof.
  induction s as [| c s IH]; [reflexivity |].
  rewrite append_cons. cbn [list_ascii_of_string app]. rewrite IH. reflexivity.
Qed.

(** Text that neither starts nor ends with white space is left as it is by
    [strip]. *)
Lemma strip_trimmed (s : string) :
  (∀ c r, s = String c r -> is_space c = false) ->
  (∀ m c, list_ascii_of_string s = m ++ [c] -> is_space c = false) ->
  strip s = s.
Proof.
  intros Hhead Hlast. unfold strip.
  assert (Hl : lstrip s = s).
  { destruct s as [| c r]; [reflexivity |]. cbn [lstrip].
    rewrite (Hhead c r eq_refl). reflexivity. }
  rewrite Hl.
  assert (Hr : lstrip (String.rev s) = String.rev s).
  { destruct (String.rev s) as [| c t] eqn:Hrev; [reflexivity |]. cbn [lstrip].
    rewrite (Hlast (rev (list_ascii_of_string t)) c); [reflexivity |].
    apply (f_equal list_ascii_of_string) in Hrev. unfold String.rev in Hrev.
    rewrite chars_rev_app, app_nil_r in Hrev. cbn [list_ascii_of_string] in Hrev.
    apply (f_equal (@rev ascii)) in Hrev. rewrite rev_involutive in Hrev.
    exact Hrev. }
  rewrite Hr. unfold String.rev. rewrite rev_app_rev_app. cbn [String.rev_app].
  apply append_empty_r.
Qed.

Lemma join_cons (x : string) (l : list string) :
  ∃ t, String.concat " " (x :: l) = x +:+ t ∧
       (t = "" ∨ ∃ r, t = String " " r).
Proof.
  destruct l as [| y l].
  - exists "". split; [symmetry; apply append_empty_r | left; reflexivity].
  - exists (String " " (String.concat " " (y :: l))).
    split; [reflexivity | right; eexists; reflexivity].
Qed.

Lemma join_last (l : list string) :
  Forall word l ->
  ∀ m c, list_ascii_of_string (String.concat " " l) = m ++ [c] -> is_space c = false.
Proof.
  induction 1 as [| x l (Hne & Hx & _) Hl IH]; intros m c Heq.
  - destruct m; discriminate Heq.
  - destruct l as [| y l].
    + cbn [String.concat] in Heq. unfold spaceless in Hx. rewrite Heq in Hx.
      apply Forall_app in Hx as [_ Hc]. apply Forall_cons in Hc as [Hc _]. exact Hc.
    + change (String.concat " " (x :: y :: l))
        with (x +:+ String " " (String.concat " " (y :: l))) in Heq.
      rewrite chars_append in Heq. cbn [list_ascii_of_string] in Heq.
      destruct (exists_last (l := list_ascii_of_string (String.concat " " (y :: l))))
        as (m' & c' & Hm').
      { apply Forall_cons in Hl as [(Hy & _ & _) _].
        destruct (join_cons y l) as (t & -> & _).
        destruct y as [| d y]; [congruence |]. discriminate. }
      rewrite Hm' in Heq.
      change (list_ascii_of_string x ++ " "%char :: m' ++ [c'])
        with (list_ascii_of_string x ++ (" "%char :: m') ++ [c']) in Heq.
      rewrite app_assoc in Heq. apply app_inj_tail in Heq as [_ ->].
      apply (IH m'), Hm'.
Qed.

Lemma strip_join (l : list string) :
  Forall word l -> strip (String.concat " " l) = String.concat " " l.
Proof.
  intros Hl. apply strip_trimmed; [| apply join_last, Hl].
  intros c r Heq. destruct Hl as [| x l (Hne & Hx & _) _]; [discriminate Heq |].
  destruct (join_cons x l) as (t & Ht & _). rewrite Ht in Heq.
  destruct x as [| d x]; [congruence |]. rewrite append_cons in Heq.
  injection Heq as -> _. apply Forall_cons in Hx as [Hd _]. exact Hd.
Qed.

Lemma join_no_cr (l : list string) :
  Forall word l -> contains CR (String.concat " " l) = false.
Proof.
  assert (Hword : ∀ w, spaceless w -> contains CR w = false).
  { induction w as [| c w IH]; intros Hw; [reflexivity |].
    apply Forall_cons in Hw as [Hc Hw]. cbn [contains]. rewrite (IH Hw), orb_false_r.
    destruct c as [[] [] [] [] [] [] [] []]; try discriminate Hc; reflexivity. }
  induction 1 as [| x l (_ & Hx & _) Hl IH]; [reflexivity |].
  destruct l as [| y l]; [exact (Hword x Hx) |].
  change (String.concat " " (x :: y :: l))
    with (x +:+ String " " (String.concat " " (y :: l))).
  rewrite contains_append, (Hword x Hx), IH. reflexivity.
Qed.

Lemma no_cr_no_crlf (s : string) : contains CR s = false -> find_crlf s = None.
Proof.
  induction s as [| c s IH]; intros Hs; [reflexivity |].
  cbn [contains] in Hs. apply orb_false_elim in Hs as [Hc Hs]. specialize (IH Hs).
  destruct s as [| d s]; [reflexivity |].
  cbn [find_crlf]. cbn [find_crlf] in IH. rewrite IH.
  unfold is_crlf. rewrite Ascii.eqb_sym, Hc. reflexivity.
Qed.

(** X24: a line that is neither a PING nor a frame is an inline command.
    The line, ASCII and ended by CR LF, is stripped and split on white
    space: its first word, upper-cased, is the command and the others are
    its arguments; a line without a word is consumed and nothing is
    dispatched for it. In particular a command and its arguments joined by
    single blanks are read back as they are. The first characters are
    those of the buffer: a line whose first word starts with [PING] or [*]
    is not read this way. *)
Theorem X24_inline_command (fuel : nat) (rest : string) :
  (∀ line,
     is_ascii line -> find_crlf line = None ->
     startswith "PING" line = false -> startswith "*" line = false ->
     next_frame fuel (line +:+ CRLF +:+ rest) =
       Some (match words (strip line) with
             | [] => FrameBlank rest
             | command :: args => FrameCommand (Some (upper command)) args rest
             end)) ∧
  (∀ command args,
     Forall word (command :: args) ->
     startswith "PING" command = false -> startswith "*" command = false ->
     next_frame fuel (String.concat " " (command :: args) +:+ CRLF +:+ rest) =
       Some (FrameCommand (Some (upper command)) args rest)).
Proof.
  split.
  - intros line _ Hline Hping Hstar. apply next_frame_inline; assumption.
  - intros command args Hwords Hping Hstar.
    assert (Hprefix : ∀ p, contains " " p = false ->
              startswith p (String.concat " " (command :: args)) = startswith p command).
    { intros p Hp. destruct (join_cons command args) as (t & -> & [-> | [r ->]]).
      - rewrite append_empty_r. reflexivity.
      - apply startswith_before, Hp. }
    rewrite next_frame_inline.
    + rewrite (strip_join _ Hwords), (words_join _ Hwords). reflexivity.
    + apply no_cr_no_crlf, join_no_cr, Hwords.
    + rewrite Hprefix by reflexivity. exact Hping.
    + rewrite Hprefix by reflexivity. exact Hstar.
Qed.

Lemma X24_inline_command_witness :
  Forall word ["set"; "k"; "v"] ∧ startswith "PING" "set" = false ∧
  startswith "*" "set" = false ∧
  next_frame 1 (String.concat " " ["set"; "k"; "v"] +:+ CRLF +:+ "GET")
    = Some (FrameCommand (Some "SET") ["k"; "v"] "GET").
Proof.
  assert (Hwords : Forall word ["set"; "k"; "v"]).
  { repeat constructor; cbn; try lia; discriminate. }
  split; [exact Hwords |]. split; [reflexivity |]. split; [reflexivity |].
  exact (proj2 (X24_inline_command 1 "GET") "set" ["k"; "v"] Hwords eq_refl eq_refl).
Defined.

(** ** The connection loop: how the bytes are cut into chunks *)

Lemma find_crlf_cons (c d : ascii) (s : string) :
  find_crlf (String c (String d s)) =
    if is_crlf c d then Some 0%nat else S <$> find_crlf (String d s).
Proof. reflexivity. Qed.

Lemma find_crlf_bound (s : string) (i : nat) :
  find_crlf s = Some i -> (i + 2 <= String.length s)%nat.
Proof.
  revert i. induction s as [| c s IH]; intros i Hi; [discriminate Hi |].
  destruct s as [| d s]; [discriminate Hi |]. rewrite find_crlf_cons in Hi.
  destruct (is_crlf c d).
  - injection Hi as <-. cbn [String.length]. lia.
  - destruct (find_crlf (String d s)) as [j |] eqn:Hj; [| discriminate Hi].
    injection Hi as <-. specialize (IH j eq_refl). cbn [String.length] in IH |- *. lia.
Qed.

(** The line up to the first line end, and what follows it. *)
Lemma first_line (s : string) (i : nat) :
  find_crlf s = Some i ->
  ∃ line rest, s = line +:+ CRLF +:+ rest ∧ find_crlf line = None
               ∧ String.length line = i.
Proof.
  revert i. induction s as [| c s IH]; intros i Hi; [discriminate Hi |].
  destruct s as [| d s]; [discriminate Hi |]. rewrite find_crlf_cons in Hi.
  destruct (is_crlf c d) eqn:Hcd.
  - injection Hi as <-. exists "", s. split; [| split; reflexivity].
    unfold is_crlf in Hcd. apply andb_true_iff in Hcd as [Hc Hd].
    apply Ascii.eqb_eq in Hc, Hd. subst. reflexivity.
  - destruct (find_crlf (String d s)) as [j |] eqn:Hj; [| discriminate Hi].
    injection Hi as <-. destruct (IH j eq_refl) as (line & rest & Heq & Hline & Hlen).
    exists (String c line), rest. rewrite append_cons, <- Heq.
    split; [reflexivity |]. split; [| cbn [String.length]; lia].
    destruct line as [| e line].
    + reflexivity.
    + rewrite find_crlf_cons, Hline. rewrite append_cons in Heq.
      injection Heq as -> _. rewrite Hcd. reflexivity.
Qed.

Lemma take_within (s t : string) (n : nat) :
  (n <= String.length s)%nat -> take_chars n (s +:+ t) = take_chars n s.
Proof.
  revert s. induction n as [| n IH]; intros s Hn.
  - destruct s, t; reflexivity.
  - destruct s as [| c s]; [cbn [String.length] in Hn; lia |].
    rewrite append_cons. cbn [take_chars]. rewrite IH; [reflexivity |].
    cbn [String.length] in Hn. lia.
Qed.

Lemma drop_within (s t : string) (n : nat) :
  (n <= String.length s)%nat -> drop_chars n (s +:+ t) = drop_chars n s +:+ t.
Proof.
  revert s. induction n as [| n IH]; intros s Hn; [reflexivity |].
  destruct s as [| c s]; [cbn [String.length] in Hn; lia |].
  rewrite append_cons. cbn [drop_chars]. apply IH. cbn [String.length] in Hn. lia.
Qed.

Lemma length_drop (s : string) (n : nat) :
  String.length (drop_chars n s) = (String.length s - n)%nat.
Proof.
  revert s. induction n as [| n IH]; intros s; [cbn [drop_chars]; lia |].
  destruct s as [| c s]; [reflexivity |]. cbn [drop_chars String.length]. apply IH.
Qed.

Lemma find_crlf_stable (s t : string) (i : nat) :
  find_crlf s = Some i -> find_crlf (s +:+ t) = Some i.
Proof.
  intros Hi. destruct (first_line s i Hi) as (line & rest & -> & Hline & <-).
  rewrite !append_associative. apply find_crlf_append, Hline.
Qed.

Lemma find_crlf_from_stable (s t : string) (start j : nat) :
  find_crlf_from start s = Some j ->
  find_crlf_from start (s +:+ t) = Some j ∧ (j + 2 <= String.length s)%nat.
Proof.
  unfold find_crlf_from. intros Hj.
  destruct (find_crlf (drop_chars start s)) as [i |] eqn:Hi; [| discriminate Hj].
  injection Hj as <-. pose proof (find_crlf_bound _ _ Hi) as Hbound.
  rewrite length_drop in Hbound.
  rewrite drop_within by lia. rewrite (find_crlf_stable _ t i Hi).
  split; [reflexivity | lia].
Qed.

Lemma scan_items_count (n : nat) (s : string) :
  ∀ command_end count, ((scan_items n s command_end count).2 <= count + n)%nat.
Proof.
  induction n as [| n IH]; intros command_end count; [cbn; lia |].
  cbn [scan_items]. destruct (find_crlf_from command_end s) as [j |]; [| cbn; lia].
  specialize (IH (j + 2)%nat (S count)). lia.
Qed.

(** Once all the lines are there, bytes that follow do not move the end of
    the command. *)
Lemma scan_items_stable (s t : string) (n : nat) :
  ∀ command_end count,
    (command_end <= String.length s)%nat ->
    (scan_items n s command_end count).2 = (count + n)%nat ->
    scan_items n (s +:+ t) command_end count = scan_items n s command_end count ∧
    ((scan_items n s command_end count).1 <= String.length s)%nat.
Proof.
  induction n as [| n IH]; intros command_end count Hce Hfull; [split; [reflexivity | exact Hce] |].
  cbn [scan_items] in Hfull |- *.
  destruct (find_crlf_from command_end s) as [j |] eqn:Hj.
  - destruct (find_crlf_from_stable s t command_end j Hj) as [-> Hbound].
    apply IH; [exact Hbound | rewrite Hfull; lia].
  - cbn [snd] in Hfull. lia.
Qed.

Lemma startswith_stable (p s t : string) :
  startswith p s = true -> startswith p (s +:+ t) = true.
Proof.
  unfold startswith. revert s. induction p as [| a p IH]; intros s Hs.
  - destruct (s +:+ t); reflexivity.
  - destruct s as [| b s]; [discriminate Hs |]. rewrite append_cons.
    cbn [String.prefix] in Hs |- *. destruct (Ascii.ascii_dec a b); [| discriminate Hs].
    apply IH, Hs.
Qed.

Lemma startswith_long (p s t : string) :
  (String.length p <= String.length s)%nat ->
  startswith p (s +:+ t) = startswith p s.
Proof.
  unfold startswith. revert s. induction p as [| a p IH]; intros s Hs.
  - destruct s, t; reflexivity.
  - destruct s as [| b s]; [cbn [String.length] in Hs; lia |]. rewrite append_cons.
    cbn [String.prefix]. destruct (Ascii.ascii_dec a b); [| reflexivity].
    apply IH. cbn [String.length] in Hs. lia.
Qed.

(** Whether a buffer that holds a line end starts with a given text free of
    CR is settled by its first line. *)
Lemma startswith_settled (p s t : string) (i : nat) :
  contains CR p = false -> find_crlf s = Some i ->
  startswith p (s +:+ t) = startswith p s.
Proof.
  intros Hp Hi. destruct (first_line s i Hi) as (line & rest & -> & _ & _).
  rewrite !append_associative.
  change (line +:+ CRLF +:+ rest +:+ t) with (line +:+ String CR (String LF (rest +:+ t))).
  change (line +:+ CRLF +:+ rest) with (line +:+ String CR (String LF rest)).
  rewrite !(startswith_before p CR Hp). reflexivity.
Qed.

Lemma find_crlf_skip (c : ascii) (s : string) (i : nat) :
  find_crlf (String c s) = Some i -> Ascii.eqb c CR = false ->
  ∃ j, find_crlf s = Some j ∧ i = S j.
Proof.
  intros Hi Hc. destruct s as [| d s]; [discriminate Hi |].
  rewrite find_crlf_cons in Hi. unfold is_crlf in Hi. rewrite Hc in Hi.
  cbn [andb] in Hi. destruct (find_crlf (String d s)) as [j |]; [| discriminate Hi].
  injection Hi as <-. exists j. split; reflexivity.
Qed.

Lemma startswith_split (p s : string) :
  startswith p s = true -> s = p +:+ drop_chars (String.length p) s.
Proof.
  unfold startswith. revert s. induction p as [| a p IH]; intros s Hs; [reflexivity |].
  destruct s as [| b s]; [discriminate Hs |]. cbn [String.prefix] in Hs.
  destruct (Ascii.ascii_dec a b) as [<- |]; [| discriminate Hs].
  rewrite append_cons. cbn [String.length drop_chars]. f_equal. apply IH, Hs.
Qed.

(** A round of the loop that does not wait for more bytes goes the same way
    when more bytes follow in the buffer, which are left after the frame. *)
Lemma next_frame_append (fuel : nat) (buffer data : string) (i : nat) :
  find_crlf buffer = Some i -> next_frame fuel buffer ≠ Some FrameIncomplete ->
  next_frame fuel (buffer +:+ data) = extend data <$> next_frame fuel buffer.
Proof.
  intros Hi Hnot. pose proof (find_crlf_bound _ _ Hi) as Hlen.
  unfold next_frame in *.
  rewrite (startswith_settled "PING" buffer data i eq_refl Hi).
  rewrite (startswith_settled "*" buffer data i eq_refl Hi).
  rewrite (find_crlf_stable buffer data i Hi). rewrite Hi in *.
  destruct (startswith "PING" buffer) eqn:Hping.
  - apply startswith_split in Hping. cbn [String.length] in Hping.
    remember (drop_chars 4 buffer) as y eqn:Hy. clear Hy. subst buffer.
    change ("PING" +:+ y) with (String "P" (String "I" (String "N" (String "G" y)))) in *.
    apply find_crlf_skip in Hi as (i1 & Hi & _); [| reflexivity].
    apply find_crlf_skip in Hi as (i2 & Hi & _); [| reflexivity].
    apply find_crlf_skip in Hi as (i3 & Hi & _); [| reflexivity].
    apply find_crlf_skip in Hi as (i4 & Hi & _); [| reflexivity].
    apply find_crlf_bound in Hi.
    rewrite !append_cons.
    change (drop_chars 4 (String "P" (String "I" (String "N" (String "G" (y +:+ data))))))
      with (y +:+ data).
    change (drop_chars 4 (String "P" (String "I" (String "N" (String "G" y))))) with y.
    rewrite (startswith_long CRLF y data) by (cbn [String.length CRLF]; lia).
    rewrite drop_within by lia.
    destruct (startswith CRLF y); reflexivity.
  - destruct (startswith "*" buffer) eqn:Hstar.
    + rewrite (drop_within buffer data 1) by lia.
      rewrite take_within by (rewrite length_drop; lia).
      destruct (int_bytes _) as [n |].
      * destruct (scan_items (Z.to_nat (n * 2)) buffer (i + 2) 0)
          as [command_end count] eqn:Hscan.
        destruct (Z.of_nat count <? n * 2) eqn:Hcount; [congruence |].
        apply Z.ltb_ge in Hcount.
        pose proof (scan_items_count (Z.to_nat (n * 2)) buffer (i + 2) 0) as Hmost.
        rewrite Hscan in Hmost. cbn [snd] in Hmost.
        destruct (scan_items_stable buffer data (Z.to_nat (n * 2)) (i + 2) 0 Hlen)
          as [Hsame Hend]; [rewrite Hscan; cbn [snd]; lia |].
        rewrite Hsame, Hscan. rewrite Hscan in Hend. cbn [fst] in Hend.
        replace (Z.of_nat count <? n * 2) with false by (symmetry; apply Z.ltb_ge; lia).
        rewrite take_within, drop_within by exact Hend.
        destruct (parse_lines _ _ _ _ _ _) as [[command args] |]; reflexivity.
      * unfold skip_line. rewrite (find_crlf_stable buffer data i Hi), Hi.
        rewrite drop_within by exact Hlen. reflexivity.
    + rewrite take_within, drop_within by lia.
      destruct (words _); reflexivity.
Qed.

Section Chunks.
Variables (fuel : nat) (envs : nat -> Env) (writer : Writer).

Lemma process_buffer_step (steps k : nat) (buffer : string) (st : Redis) :
  process_buffer (S steps) fuel envs k buffer writer st =
    match find_crlf buffer with
    | None => Some (buffer, st, [], k)
    | Some _ =>
        frame ← next_frame fuel buffer;
        match frame with
        | FrameIncomplete => Some (buffer, st, [], k)
        | FramePong rest =>
            '(b, st', out, k') ← process_buffer steps fuel envs k rest writer st;
            Some (b, st', ClientWrite ("+PONG" +:+ CRLF) :: out, k')
        | FrameCommand command args rest =>
            '(st1, out1) ← execute_parsed fuel (envs k) command args writer st;
            '(b, st', out, k') ← process_buffer steps fuel envs (S k) rest writer st1;
            Some (b, st', out1 ++ out, k')
        | FrameProtocolError rest =>
            '(b, st', out, k') ← process_buffer steps fuel envs k rest writer st;
            Some (b, st', ClientWrite ("-ERR protocol error" +:+ CRLF) :: out, k')
        | FrameBlank rest => process_buffer steps fuel envs k rest writer st
        end
    end.
Proof. reflexivity. Qed.

Lemma process_more_steps (steps : nat) :
  ∀ more k buffer st r,
    process_buffer steps fuel envs k buffer writer st = Some r ->
    (steps <= more)%nat ->
    process_buffer more fuel envs k buffer writer st = Some r.
Proof.
  induction steps as [| steps IH]; intros more k buffer st r Hrun Hmore;
    [discriminate Hrun |].
  destruct more as [| more]; [lia |]. cbn [process_buffer] in Hrun |- *.
  destruct (find_crlf buffer); [| exact Hrun].
  destruct (next_frame fuel buffer) as [[| rest | command args rest | rest | rest] |];
    cbn [mbind option_bind] in Hrun |- *; try exact Hrun.
  - destruct (process_buffer steps fuel envs k rest writer st) as [p |] eqn:Hrest;
      [| discriminate Hrun].
    rewrite (IH more _ _ _ _ Hrest) by lia. exact Hrun.
  - destruct (execute_parsed fuel (envs k) command args writer st) as [[st1 out1] |];
      [| discriminate Hrun].
    cbn [mbind option_bind] in Hrun |- *.
    destruct (process_buffer steps fuel envs (S k) rest writer st1) as [p |] eqn:Hrest;
      [| discriminate Hrun].
    rewrite (IH more _ _ _ _ Hrest) by lia. exact Hrun.
  - destruct (process_buffer steps fuel envs k rest writer st) as [p |] eqn:Hrest;
      [| discriminate Hrun].
    rewrite (IH more _ _ _ _ Hrest) by lia. exact Hrun.
  - apply IH; [exact Hrun | lia].
Qed.

(** What is done on a buffer, and then on what it leaves followed by more
    bytes, is done on the buffer followed by these bytes. *)
Lemma process_append_forward (steps : nat) :
  ∀ k buffer st b1 st1 out1 k1,
    process_buffer steps fuel envs k buffer writer st = Some (b1, st1, out1, k1) ->
    ∀ steps2 data b2 st2 out2 k2,
      process_buffer steps2 fuel envs k1 (b1 +:+ data) writer st1
        = Some (b2, st2, out2, k2) ->
      process_buffer (steps + steps2) fuel envs k (buffer +:+ data) writer st
        = Some (b2, st2, out1 ++ out2, k2).
Proof.
  induction steps as [| steps IH]; intros k buffer st b1 st1 out1 k1 Hrun;
    [discriminate Hrun |].
  intros steps2 data b2 st2 out2 k2 Hnext.
  assert (Hstop : (b1, st1, out1, k1) = (buffer, st, [], k) ->
            process_buffer (S steps + steps2) fuel envs k (buffer +:+ data) writer st
            = Some (b2, st2, out1 ++ out2, k2)).
  { intros Heq. injection Heq as -> -> -> ->.
    apply (process_more_steps steps2); [exact Hnext | lia]. }
  cbn [process_buffer] in Hrun.
  destruct (find_crlf buffer) as [i |] eqn:Hi;
    [| apply Hstop; injection Hrun as <- <- <- <-; reflexivity].
  destruct (next_frame fuel buffer) as [frame |] eqn:Hframe; [| discriminate Hrun].
  cbn [mbind option_bind] in Hrun.
  assert (Hcases : frame = FrameIncomplete ∨ frame ≠ FrameIncomplete)
    by (destruct frame; (left; reflexivity) || (right; discriminate)).
  destruct Hcases as [-> | Hnot];
    [apply Hstop; injection Hrun as <- <- <- <-; reflexivity |].
  clear Hstop. cbn [Nat.add process_buffer].
  rewrite (find_crlf_stable buffer data i Hi).
  rewrite (next_frame_append fuel buffer data i Hi) by (rewrite Hframe; congruence).
  rewrite Hframe. cbn [fmap option_fmap option_map mbind option_bind].
  destruct frame as [| rest | command args rest | rest | rest]; [congruence | | | |];
    cbn [extend].
  - destruct (process_buffer steps fuel envs k rest writer st)
      as [[[[b' st'] out'] k'] |] eqn:Hrest; [| discriminate Hrun].
    cbn [mbind option_bind] in Hrun. injection Hrun as -> -> <- ->.
    rewrite (IH _ _ _ _ _ _ _ Hrest _ _ _ _ _ _ Hnext). reflexivity.
  - destruct (execute_parsed fuel (envs k) command args writer st) as [[sta outa] |];
      [| discriminate Hrun].
    cbn [mbind option_bind] in Hrun |- *.
    destruct (process_buffer steps fuel envs (S k) rest writer sta)
      as [[[[b' st'] out'] k'] |] eqn:Hrest; [| discriminate Hrun].
    cbn [mbind option_bind] in Hrun. injection Hrun as -> -> <- ->.
    rewrite (IH _ _ _ _ _ _ _ Hrest _ _ _ _ _ _ Hnext). cbn [mbind option_bind].
    rewrite app_assoc. reflexivity.
  - destruct (process_buffer steps fuel envs k rest writer st)
      as [[[[b' st'] out'] k'] |] eqn:Hrest; [| discriminate Hrun].
    cbn [mbind option_bind] in Hrun. injection Hrun as -> -> <- ->.
    rewrite (IH _ _ _ _ _ _ _ Hrest _ _ _ _ _ _ Hnext). reflexivity.
  - apply (IH _ _ _ _ _ _ _ Hrun _ _ _ _ _ _ Hnext).
Qed.

(** What is done on a buffer followed by more bytes is what is done on the
    buffer, and then on what it leaves followed by these bytes. *)
Lemma process_append_backward (steps : nat) :
  ∀ k buffer st data b2 st2 out k2,
    process_buffer steps fuel envs k (buffer +:+ data) writer st
      = Some (b2, st2, out, k2) ->
    ∃ b1 st1 out1 k1 out2,
      process_buffer steps fuel envs k buffer writer st = Some (b1, st1, out1, k1) ∧
      process_buffer steps fuel envs k1 (b1 +:+ data) writer st1
        = Some (b2, st2, out2, k2) ∧
      out = out1 ++ out2.
Proof.
  induction steps as [| steps IH]; intros k buffer st data b2 st2 out k2 Hrun;
    [discriminate Hrun |].
  assert (Hstop : process_buffer (S steps) fuel envs k buffer writer st
                  = Some (buffer, st, [], k) ->
            ∃ b1 st1 out1 k1 out2,
              process_buffer (S steps) fuel envs k buffer writer st
                = Some (b1, st1, out1, k1) ∧
              process_buffer (S steps) fuel envs k1 (b1 +:+ data) writer st1
                = Some (b2, st2, out2, k2) ∧
              out = out1 ++ out2).
  { intros Hb. exists buffer, st, [], k, out. split; [exact Hb |].
    split; [exact Hrun | reflexivity]. }
  rewrite (process_buffer_step steps k buffer st) in Hstop |- *.
  destruct (find_crlf buffer) as [i |] eqn:Hi; [| apply Hstop; reflexivity].
  assert (Hcases : next_frame fuel buffer = Some FrameIncomplete
                   ∨ next_frame fuel buffer ≠ Some FrameIncomplete)
    by (destruct (next_frame fuel buffer) as [[] |];
        (left; reflexivity) || (right; discriminate)).
  destruct Hcases as [Hinc | Hnot].
  { rewrite Hinc in Hstop |- *. apply Hstop. reflexivity. }
  clear Hstop. rewrite process_buffer_step in Hrun.
  rewrite (find_crlf_stable buffer data i Hi) in Hrun.
  rewrite (next_frame_append fuel buffer data i Hi Hnot) in Hrun.
  destruct (next_frame fuel buffer) as [frame |]; [| discriminate Hrun].
  cbn [fmap option_fmap option_map mbind option_bind] in Hrun |- *.
  destruct frame as [| rest | command args rest | rest | rest]; [congruence | | | |];
    cbn [extend] in Hrun.
  - destruct (process_buffer steps fuel envs k (rest +:+ data) writer st)
      as [[[[b' st'] out'] k'] |] eqn:Hrest; [| discriminate Hrun].
    cbn [mbind option_bind] in Hrun. injection Hrun as -> -> <- ->.
    destruct (IH _ _ _ _ _ _ _ _ Hrest) as (b1 & st1 & out1 & k1 & out2 & H1 & H2 & ->).
    rewrite H1. cbn [mbind option_bind]. eexists _, _, _, _, out2.
    split; [reflexivity |]. split; [| reflexivity].
    apply (process_more_steps steps); [exact H2 | lia].
  - destruct (execute_parsed fuel (envs k) command args writer st) as [[sta outa] |];
      [| discriminate Hrun].
    cbn [mbind option_bind] in Hrun |- *.
    destruct (process_buffer steps fuel envs (S k) (rest +:+ data) writer sta)
      as [[[[b' st'] out'] k'] |] eqn:Hrest; [| discriminate Hrun].
    cbn [mbind option_bind] in Hrun. injection Hrun as -> -> <- ->.
    destruct (IH _ _ _ _ _ _ _ _ Hrest) as (b1 & st1 & out1 & k1 & out2 & H1 & H2 & ->).
    rewrite H1. cbn [mbind option_bind]. eexists _, _, _, _, out2.
    split; [reflexivity |]. split; [| apply app_assoc].
    apply (process_more_steps steps); [exact H2 | lia].
  - destruct (process_buffer steps fuel envs k (rest +:+ data) writer st)
      as [[[[b' st'] out'] k'] |] eqn:Hrest; [| discriminate Hrun].
    cbn [mbind option_bind] in Hrun. injection Hrun as -> -> <- ->.
    destruct (IH _ _ _ _ _ _ _ _ Hrest) as (b1 & st1 & out1 & k1 & out2 & H1 & H2 & ->).
    rewrite H1. cbn [mbind option_bind]. eexists _, _, _, _, out2.
    split; [reflexivity |]. split; [| reflexivity].
    apply (process_more_steps steps); [exact H2 | lia].
  - destruct (IH _ _ _ _ _ _ _ _ Hrun) as (b1 & st1 & out1 & k1 & out2 & H1 & H2 & ->).
    exists b1, st1, out1, k1, out2. split; [exact H1 |]. split; [| reflexivity].
    apply (process_more_steps steps); [exact H2 | lia].
Qed.

Lemma read_more_steps (steps more : nat) (chunks : list string) :
  (steps <= more)%nat ->
  ∀ k buffer st r,
    read_loop steps fuel envs k chunks buffer writer st = Some r ->
    read_loop more fuel envs k chunks buffer writer st = Some r.
Proof.
  intros Hmore. induction chunks as [| data chunks IH]; intros k buffer st r Hrun;
    [exact Hrun |].
  cbn [read_loop] in Hrun |- *. destruct (String.eqb data ""); [exact Hrun |].
  destruct (process_buffer steps fuel envs k (buffer +:+ data) writer st)
    as [[[[b1 st1] out1] k1] |] eqn:Hfirst; [| discriminate Hrun].
  rewrite (process_more_steps steps more _ _ _ _ Hfirst Hmore).
  cbn [mbind option_bind] in Hrun |- *.
  destruct (read_loop steps fuel envs k1 chunks b1 writer st1) as [[st' out] |] eqn:Hrest;
    [| discriminate Hrun].
  rewrite (IH _ _ _ _ Hrest). exact Hrun.
Qed.

Lemma append_not_empty (a b : string) : a ≠ "" -> String.eqb (a +:+ b) "" = false.
Proof. destruct a; [congruence | reflexivity]. Qed.

Lemma not_empty (a : string) : a ≠ "" -> String.eqb a "" = false.
Proof. destruct a; [congruence | reflexivity]. Qed.

(** Two chunks served one after the other are served as one chunk. *)
Lemma read_merge_forward (steps : nat) (a b : string) (chunks : list string) :
  a ≠ "" -> b ≠ "" ->
  ∀ k buffer st r,
    read_loop steps fuel envs k (a :: b :: chunks) buffer writer st = Some r ->
    read_loop (steps + steps) fuel envs k ((a +:+ b) :: chunks) buffer writer st = Some r.
Proof.
  intros Ha Hb k buffer st r Hrun. cbn [read_loop] in Hrun |- *.
  rewrite (not_empty a Ha), (not_empty b Hb) in Hrun. rewrite (append_not_empty a b Ha).
  destruct (process_buffer steps fuel envs k (buffer +:+ a) writer st)
    as [[[[b1 st1] out1] k1] |] eqn:Hfirst; [| discriminate Hrun].
  cbn [mbind option_bind] in Hrun.
  destruct (process_buffer steps fuel envs k1 (b1 +:+ b) writer st1)
    as [[[[b2 st2] out2] k2] |] eqn:Hsecond; [| discriminate Hrun].
  cbn [mbind option_bind] in Hrun.
  destruct (read_loop steps fuel envs k2 chunks b2 writer st2) as [[st' out] |] eqn:Hrest;
    [| discriminate Hrun].
  cbn [mbind option_bind] in Hrun. injection Hrun as <-.
  rewrite <- append_associative.
  rewrite (process_append_forward steps _ _ _ _ _ _ _ Hfirst steps b _ _ _ _ Hsecond).
  cbn [mbind option_bind].
  rewrite (read_more_steps steps (steps + steps) chunks ltac:(lia) _ _ _ _ Hrest).
  cbn [mbind option_bind]. rewrite app_assoc. reflexivity.
Qed.

(** One chunk is served as any two chunks it is cut into. *)
Lemma read_merge_backward (steps : nat) (a b : string) (chunks : list string) :
  a ≠ "" -> b ≠ "" ->
  ∀ k buffer st r,
    read_loop steps fuel envs k ((a +:+ b) :: chunks) buffer writer st = Some r ->
    read_loop steps fuel envs k (a :: b :: chunks) buffer writer st = Some r.
Proof.
  intros Ha Hb k buffer st r Hrun. cbn [read_loop] in Hrun |- *.
  rewrite (not_empty a Ha), (not_empty b Hb). rewrite (append_not_empty a b Ha) in Hrun.
  rewrite <- append_associative in Hrun.
  destruct (process_buffer steps fuel envs k ((buffer +:+ a) +:+ b) writer st)
    as [[[[b2 st2] out12] k2] |] eqn:Hboth; [| discriminate Hrun].
  destruct (process_append_backward steps _ _ _ _ _ _ _ _ Hboth)
    as (b1 & st1 & out1 & k1 & out2 & Hfirst & Hsecond & ->).
  rewrite Hfirst. cbn [mbind option_bind] in Hrun |- *. rewrite Hsecond.
  cbn [mbind option_bind].
  destruct (read_loop steps fuel envs k2 chunks b2 writer st2) as [[st' out] |];
    [| discriminate Hrun].
  cbn [mbind option_bind] in Hrun |- *. rewrite app_assoc. exact Hrun.
Qed.

(** Chunks are served as the one chunk of all their bytes. *)
Lemma served_joined (chunks : list string) (st : Redis) (r : Redis * list Event) :
  Forall (fun c => c ≠ "") chunks ->
  served fuel envs chunks writer st r ↔
  served fuel envs [String.concat "" chunks] writer st r.
Proof.
  destruct chunks as [| a chunks]; [intros _; split; intros [steps H]; exists steps; exact H |].
  intros Hall. apply Forall_cons in Hall as [Ha Hall]. rewrite concat_empty_cons.
  revert a Ha. induction Hall as [| b chunks Hb _ IH]; intros a Ha.
  - cbn [String.concat]. rewrite append_empty_r. reflexivity.
  - rewrite concat_empty_cons, <- append_associative.
    rewrite <- (IH (a +:+ b)) by (destruct a; [congruence | discriminate]).
    unfold served, handle_client. split; intros [steps Hrun].
    + exists (steps + steps)%nat.
      destruct (read_loop steps fuel envs 0 (a :: b :: chunks) "" writer st)
        as [p |] eqn:Hread; [| discriminate Hrun].
      rewrite (read_merge_forward steps a b chunks Ha Hb _ _ _ _ Hread). exact Hrun.
    + exists steps.
      destruct (read_loop steps fuel envs 0 ((a +:+ b) :: chunks) "" writer st)
        as [p |] eqn:Hread; [| discriminate Hrun].
      rewrite (read_merge_backward steps a b chunks Ha Hb _ _ _ _ Hread). exact Hrun.
Qed.

End Chunks.

(** X25: how the bytes of a connection are cut into chunks does not
    matter. Two sequences of non-empty chunks that carry the same ASCII
    bytes are served alike: the node is left in the same state and the same
    replies are written in the same order, provided the command dispatched
    as the k-th meets the same clock and the same collaborators in both. A
    frame or a line may thus be split anywhere, also inside a line end. *)
Theorem X25_chunking_is_immaterial (fuel : nat) (envs : nat -> Env) (writer : Writer)
    (st : Redis) (chunks chunks' : list string) (r : Redis * list Event) :
  Forall (fun c => c ≠ "" ∧ is_ascii c) chunks ->
  Forall (fun c => c ≠ "" ∧ is_ascii c) chunks' ->
  String.concat "" chunks = String.concat "" chunks' ->
  served fuel envs chunks writer st r ↔ served fuel envs chunks' writer st r.
Proof.
  intros Hall Hall' Hbytes.
  rewrite (served_joined fuel envs writer chunks st r)
    by (eapply Forall_impl; [exact Hall | intros c [Hc _]; exact Hc]).
  rewrite (served_joined fuel envs writer chunks' st r)
    by (eapply Forall_impl; [exact Hall' | intros c [Hc _]; exact Hc]).
  rewrite Hbytes. reflexivity.
Qed.

Lemma X25_chunking_is_immaterial_witness :
  let envs := fun _ : nat => quiet_env 0 master_node (UpstreamFailed "refused") in
  let whole := ["*3" +:+ CRLF +:+ "$3" +:+ CRLF +:+ "SET" +:+ CRLF +:+ "$1" +:+ CRLF
                +:+ "k" +:+ CRLF +:+ "$1" +:+ CRLF +:+ "v" +:+ CRLF] in
  let cut := ["*3" +:+ CRLF +:+ "$3" +:+ CRLF +:+ "SE";
              "T" +:+ CRLF +:+ "$1" +:+ CRLF +:+ "k" +:+ String CR "";
              String LF "" +:+ "$1" +:+ CRLF +:+ "v" +:+ CRLF] in
  Forall (fun c : string => c ≠ "" ∧ is_ascii c) whole ∧
  Forall (fun c : string => c ≠ "" ∧ is_ascii c) cut ∧
  String.concat "" whole = String.concat "" cut ∧
  (∀ r, served 5 envs whole 7%nat (empty_redis master_node) r
        ↔ served 5 envs cut 7%nat (empty_redis master_node) r) ∧
  ∃ st', served 5 envs cut 7%nat (empty_redis master_node)
           (st', [ClientWrite (encode_simple_string "OK")]).
Proof.
  intros envs whole cut.
  assert (Hwhole : Forall (fun c : string => c ≠ "" ∧ is_ascii c) whole)
    by (repeat constructor; (discriminate || (cbn; lia))).
  assert (Hcut : Forall (fun c : string => c ≠ "" ∧ is_ascii c) cut)
    by (repeat constructor; (discriminate || (cbn; lia))).
  assert (Hbytes : String.concat "" whole = String.concat "" cut) by reflexivity.
  split; [exact Hwhole |]. split; [exact Hcut |]. split; [exact Hbytes |].
  split.
  - intros r.
    exact (X25_chunking_is_immaterial 5 envs 7%nat (empty_redis master_node) whole cut r
             Hwhole Hcut Hbytes).
  - eexists. exists 3%nat. vm_compute. reflexivity.
Defined.

Lemma extract_generation_none (st : Redis) : (extract_generation [] st).2 = st.
Proof. destruct st as [d [] c t]. reflexivity. Qed.

Lemma find_crlf_after (c : ascii) (s : string) (i : nat) :
  Ascii.eqb c CR = false -> find_crlf s = Some i -> find_crlf (String c s) = Some (S i).
Proof.
  intros Hc Hi. destruct s as [| d s]; [discriminate Hi |].
  rewrite find_crlf_cons, Hi. unfold is_crlf. rewrite Hc. reflexivity.
Qed.

(** X26: a PING in plain text does not go through the dispatcher. When the
    buffer starts with the four letters, whatever follows them, PONG is
    written at once, the four letters and a line end right after them are
    dropped, and the loop goes on with the rest: the node is untouched and
    no command is counted, even on a connection in a transaction. The same
    PING sent as a frame is dispatched, and in a transaction it is answered
    QUEUED and buffered. *)
Theorem X26_plain_ping_skips_dispatch (steps fuel : nat) (envs : nat -> Env) (k : nat)
    (follows : string) (writer : Writer) (st : Redis) (queued : list Command) (i : nat) :
  find_crlf follows = Some i -> transactions st !! writer = Some queued ->
  (1 < fuel)%nat ->
  process_buffer (S steps) fuel envs k ("PING" +:+ follows) writer st =
    ('(b, st', out, k') ←
       process_buffer steps fuel envs k
         (if startswith CRLF follows then drop_chars 2 follows else follows) writer st;
     Some (b, st', ClientWrite ("+PONG" +:+ CRLF) :: out, k')) ∧
  process_buffer (S steps) fuel envs k (encode_array ["PING"] +:+ follows) writer st =
    ('(b, st', out, k') ←
       process_buffer steps fuel envs (S k) follows writer
         (set_transactions (<[writer := queued ++ [("PING", [])]]> (transactions st)) st);
     Some (b, st', ClientWrite (encode_simple_string "QUEUED") :: out, k')).
Proof.
  intros Hi Hq Hfuel. split.
  - cbn [process_buffer].
    change ("PING" +:+ follows)
      with (String "P" (String "I" (String "N" (String "G" follows)))).
    rewrite (find_crlf_after "P" _ (S (S (S i)))); [| reflexivity |].
    2:{ do 3 (apply find_crlf_after; [reflexivity |]). exact Hi. }
    unfold next_frame.
    replace (startswith "PING" (String "P" (String "I" (String "N" (String "G" follows)))))
      with true by (cbn; destruct follows; reflexivity).
    reflexivity.
  - cbn [process_buffer].
    destruct (encoded_has_line ["PING"] follows) as [j ->].
    rewrite next_frame_encoded by (repeat constructor || exact Hfuel).
    cbn [mbind option_bind execute_parsed]. change (upper "PING") with "PING".
    rewrite (execute_buffered fuel (envs k) "PING" [] writer st queued);
      [| split; [reflexivity | intros _; reflexivity] | exact Hq].
    rewrite extract_generation_none. reflexivity.
Qed.

Lemma X26_plain_ping_skips_dispatch_witness :
  let envs := fun _ : nat => quiet_env 0 master_node (UpstreamFailed "refused") in
  let st := with_queue 7%nat [("SET", ["k"; "v"])] (empty_redis master_node) in
  find_crlf CRLF = Some 0%nat ∧
  transactions st !! 7%nat = Some [("SET", ["k"; "v"])] ∧ (1 < 2)%nat ∧
  process_buffer 2 2 envs 0 ("PING" +:+ CRLF) 7%nat st =
    Some ("", st, [ClientWrite ("+PONG" +:+ CRLF)], 0%nat).
Proof.
  intros envs st.
  assert (Hq : transactions st !! 7%nat = Some [("SET", ["k"; "v"])]) by reflexivity.
  assert (Hfuel : (1 < 2)%nat) by lia.
  split; [reflexivity |]. split; [exact Hq |]. split; [exact Hfuel |].
  exact (proj1 (X26_plain_ping_skips_dispatch 1 2 envs 0 CRLF 7%nat st _ 0 eq_refl Hq Hfuel)).
Defined.

(** ** What KEYS lists *)

Lemma empty_store (st : Redis) : is_empty_store st = true -> data_store st = ∅.
Proof.
  unfold is_empty_store. intros H. apply map_to_list_empty_iff.
  destruct (map_to_list (data_store st)); [reflexivity | discriminate H].
Qed.

(** X27: what KEYS lists. The pattern [*] lists exactly the live keys of
    the keyspace as the scan leaves it: the scan leaves the node as it
    was, except that, when the keyspace is empty and a snapshot file is
    configured, it first loads the snapshot, and then lists the live keys
    of the snapshot. A pattern that contains [?] or [[] lists exactly the
    live keys that start with the text before the first of these two
    characters. A pattern without [*], [?] and [[] lists the key of that
    name when it is live, and nothing otherwise. No key is listed twice,
    and the last two kinds of pattern leave the node as it was. *)
Theorem X27_keys_scan (env : Env) (st : Redis) :
  let now := env_now env in
  (let r := get_matching_keys env "*" st in
   (∀ key, key ∈ r.2 ↔ live now r.1 key) ∧ NoDup r.2 ∧
   (is_empty_store st = false ∨ rdb_configured st = false -> r.1 = st) ∧
   (is_empty_store st = true -> rdb_configured st = true ->
      r.1 = set_data_store (env_rdb env) st)) ∧
  (∀ pre c rest, c = "?"%char ∨ c = "["%char ->
     contains "?" pre = false -> contains "[" pre = false ->
     let r := get_matching_keys env (pre +:+ String c rest) st in
     (∀ key, key ∈ r.2 ↔ startswith pre key = true ∧ live now st key) ∧
     NoDup r.2 ∧ r.1 = st) ∧
  (∀ pattern, contains "*" pattern = false ->
     contains "?" pattern = false -> contains "[" pattern = false ->
     (live now st pattern -> get_matching_keys env pattern st = (st, [pattern])) ∧
     (¬ live now st pattern -> get_matching_keys env pattern st = (st, []))).
Proof.
  intros now. subst now. split; [| split].
  - unfold get_matching_keys. simpl String.eqb. cbv iota. cbn [fst snd].
    split; [| split; [| split]].
    + intros key. rewrite keys_where_elem. tauto.
    + apply keys_where_NoDup.
    + intros [-> | Hrdb]; [reflexivity |]. rewrite Hrdb, andb_false_r. reflexivity.
    + intros Hempty Hrdb. rewrite Hempty, Hrdb. cbn [andb]. unfold load_from_rdb.
      rewrite Hrdb, (empty_store st Hempty), (right_id ∅ (∪)). reflexivity.
  - intros pre c rest Hc Hq Hb r.
    assert (Hwild : contains "?" (pre +:+ String c rest)
                    || contains "[" (pre +:+ String c rest) = true).
    { rewrite !contains_append. destruct Hc as [-> | ->]; simpl;
        rewrite ?orb_true_r; reflexivity. }
    assert (Hstar : String.eqb (pre +:+ String c rest) "*" = false).
    { destruct (String.eqb_spec (pre +:+ String c rest) "*") as [Heq |]; [| reflexivity].
      rewrite Heq in Hwild. discriminate Hwild. }
    unfold r, get_matching_keys. rewrite Hstar, Hwild.
    rewrite (split_head_wildcard pre rest c Hc Hq Hb). cbn [fst snd].
    split; [| split; [apply keys_where_NoDup | reflexivity]].
    intros key. apply keys_where_elem.
  - intros pattern Hs Hq Hb.
    assert (Hstar : String.eqb pattern "*" = false).
    { destruct (String.eqb_spec pattern "*") as [-> |]; [discriminate Hs | reflexivity]. }
    unfold get_matching_keys. rewrite Hstar, Hq, Hb. cbn [orb].
    split.
    + intros Hlive. pose proof Hlive as (value & expiry & Hk & _).
      apply is_key_expired_false in Hlive. rewrite Hk, Hlive. reflexivity.
    + intros Hdead.
      destruct (data_store st !! pattern) as [entry |]; [| reflexivity].
      destruct (is_key_expired (env_now env) st pattern) eqn:He; [reflexivity |].
      apply is_key_expired_false in He. contradiction.
Qed.

Lemma X27_keys_scan_witness :
  let st := with_key "foo1" "v" None (with_key "bar" "w" None (empty_redis master_node)) in
  let env := quiet_env 0 master_node (UpstreamFailed "refused") in
  contains "?" "foo" = false ∧ contains "[" "foo" = false ∧
  contains "*" "foo1" = false ∧ contains "?" "foo1" = false ∧ contains "[" "foo1" = false ∧
  live (env_now env) st "foo1" ∧
  "foo1" ∈ (get_matching_keys env ("foo" +:+ String "?" "") st).2 ∧
  get_matching_keys env "foo1" st = (st, ["foo1"]).
Proof.
  intros st env.
  assert (Hlive : live (env_now env) st "foo1").
  { exists "v", None. split; [vm_compute; reflexivity | exact I]. }
  destruct (X27_keys_scan env st) as (_ & Hprefix & Hexact).
  repeat (split; [reflexivity |]). split; [exact Hlive |].
  split.
  - destruct (Hprefix "foo" "?"%char "" (or_introl eq_refl) eq_refl eq_refl) as [Hiff _].
    apply Hiff. split; [reflexivity | exact Hlive].
  - exact (proj1 (Hexact "foo1" eq_refl eq_refl eq_refl) Hlive).
Defined.
